(** * Agent2Agent demo: task stores, discovery, delegation and supervision

    A shallow embedding of the JavaScript sources of the dynamic-discovery
    agents:

    - [AgentA]: [src/dynamic-discovery/agent-a-server.js] (leaf agent),
    - [AgentE]: the intelligent orchestrator agent (agent-e-server.js),
    - [Client]: [src/dynamic-discovery/discovery-client.js],
    - [Orchestrator]: [src/dynamic-discovery/advanced-orchestrator.js].

    Every process is a single-threaded event loop.  A synchronous stretch of
    JavaScript (from one [await] to the next) is one atomic transition; the
    network is an oracle ([world]) that answers a request issued at a given
    time with a latency and a payload. *)

From stdpp Require Import base option list strings gmap.
From Stdlib Require Import Ascii NArith ZArith QArith Lia.
From Stdlib Require Import DecimalString DecimalPos DecimalN.

Local Open Scope string_scope.
Local Open Scope N_scope.

(* ===================================================================== *)
(** * JavaScript values *)
(* ===================================================================== *)

(** JSON-like values as they travel in request and response bodies.  Numbers
    are integers: the agents only compare, count and forward such payloads
    (decimal scores live in typed records, see [AgentE.sentiment_result]). *)
Local Unset Elimination Schemes.
Inductive json : Type :=
| JUndefined
| JNull
| JBool (b : bool)
| JNum (n : Z)
| JStr (s : string)
| JArr (items : list json)
| JObj (fields : list (string * json)).
Local Set Elimination Schemes.

(** [!v] is [negb (truthy v)]. *)
Definition truthy (v : json) : bool :=
  match v with
  | JUndefined | JNull => false
  | JBool b => b
  | JNum n => negb (Z.eqb n 0)
  | JStr s => negb (String.eqb s "")
  | JArr _ | JObj _ => true
  end.

(** [v === 'lit'] for a string literal. *)
Definition is_str (v : json) (lit : string) : bool :=
  match v with
  | JStr s => String.eqb s lit
  | _ => false
  end.

(** [v === true]. *)
Definition is_true (v : json) : bool :=
  match v with
  | JBool true => true
  | _ => false
  end.

(** [lits.includes(v)] for an array of string literals. *)
Definition includes_str (lits : list string) (v : json) : bool :=
  existsb (is_str v) lits.

Fixpoint assoc {A : Type} (k : string) (l : list (string * A)) : option A :=
  match l with
  | [] => None
  | (k', a) :: l' => if String.eqb k k' then Some a else assoc k l'
  end.

(** A thrown [Error]: only its [message] is ever read by the sources. *)
Record js_error : Type := Error { message : string }.

(** Code that may throw: [inl e] is a thrown error, [inr a] a normal
    completion.  [x ← m; k] is sequencing inside a [try]. *)
#[export] Instance throw_bind : MBind (sum js_error) :=
  fun A B k m => match m with inl e => inl e | inr a => k a end.
#[export] Instance throw_ret : MRet (sum js_error) := fun A a => inr a.
#[export] Instance throw_fmap : FMap (sum js_error) :=
  fun A B f m => match m with inl e => inl e | inr a => inr (f a) end.

(** Property read [v.k]: a [TypeError] on [undefined] and [null]. *)
Definition js_get (v : json) (k : string) : js_error + json :=
  match v with
  | JUndefined => inl (Error ("Cannot read properties of undefined (reading '" ++ k ++ "')"))
  | JNull => inl (Error ("Cannot read properties of null (reading '" ++ k ++ "')"))
  | JObj fields => inr (default JUndefined (assoc k fields))
  | _ => inr JUndefined
  end.

(** Optional chaining [v?.k]. *)
Definition js_get_opt (v : json) (k : string) : json :=
  match js_get v k with
  | inl _ => JUndefined
  | inr x => x
  end.

(** Decimal rendering of a number inside a template string. *)
Definition show_N (n : N) : string := NilZero.string_of_uint (N.to_uint n).
Definition show_Z (n : Z) : string := NilZero.string_of_int (Z.to_int n).

Definition join (sep : string) (parts : list string) : string :=
  match parts with
  | [] => ""
  | p :: ps => fold_left (fun acc q => acc ++ sep ++ q) ps p
  end.

(** [String(v)], the conversion a template string `${v}` applies.  A number
    is an integer here and is printed with all its digits, as JavaScript
    prints the integers below 10^21. *)
Fixpoint js_String (v : json) : string :=
  match v with
  | JUndefined => "undefined"
  | JNull => "null"
  | JBool true => "true"
  | JBool false => "false"
  | JNum n => show_Z n
  | JStr s => s
  | JArr items =>
      join "," (map (fun x => match x with
                              | JUndefined | JNull => ""
                              | _ => js_String x
                              end) items)
  | JObj _ => "[object Object]"
  end.

(** [s.includes(sub)]. *)
Fixpoint includes (s sub : string) : bool :=
  String.prefix sub s ||
  match s with
  | EmptyString => false
  | String _ s' => includes s' sub
  end.

(* ===================================================================== *)
(** * JavaScript [Map]: keys in insertion order *)
(* ===================================================================== *)

Module JsMap.
Section JsMap.
Context {K V : Type} (eqb : K -> K -> bool).

Definition t : Type := list (K * V).

Definition get (k : K) (m : t) : option V :=
  snd <$> List.find (fun e => eqb k (fst e)) m.

Definition has (k : K) (m : t) : bool := existsb (fun e => eqb k (fst e)) m.

(** An existing key keeps its position; a new key goes last. *)
Fixpoint set (k : K) (v : V) (m : t) : t :=
  match m with
  | [] => [(k, v)]
  | e :: m' => if eqb k (fst e) then (k, v) :: m' else e :: set k v m'
  end.

Definition delete (k : K) (m : t) : t :=
  List.filter (fun e => negb (eqb k (fst e))) m.

Definition values (m : t) : list V := map snd m.
Definition keys (m : t) : list K := map fst m.
Definition size (m : t) : nat := length m.
End JsMap.
End JsMap.

(* ===================================================================== *)
(** * Wire format shared by all agents *)
(* ===================================================================== *)

(** Body of [POST /rpc]; a missing member is [JUndefined]. *)
Record rpc_request : Type := RpcRequest {
  req_jsonrpc : json;
  req_method : json;
  req_params : json;
  req_id : json
}.

(** A member of a JSON object: left out, [null], or a value. *)
Inductive member (A : Type) : Type :=
| Missing
| Null
| Val (a : A).
Arguments Missing {A}.
Arguments Null {A}.
Arguments Val {A} a.

(** A property is present when it is neither missing nor [null]. *)
Definition present {A : Type} (m : member A) : bool :=
  match m with
  | Val _ => true
  | _ => false
  end.

(** A task record of a task store; [R] is the type of handler results.
    Agent A leaves [result] and [error] out until the task ends, agent E
    creates them as [null]. *)
Record task (R : Type) : Type := Task {
  task_id : string;
  status : string;
  task_method : json;
  task_params : json;
  created_at : N;
  agent : option string;
  result : member R;
  error : member string;
  completed_at : option N;
  failed_at : option N
}.
Arguments Task {R}.
Arguments task_id {R}.
Arguments status {R}.
Arguments task_method {R}.
Arguments task_params {R}.
Arguments created_at {R}.
Arguments agent {R}.
Arguments result {R}.
Arguments error {R}.
Arguments completed_at {R}.
Arguments failed_at {R}.

Inductive rpc_body : Type :=
| RpcResult (task_id status msg : string) (id : json)
| RpcError (code : Z) (msg : string) (data : option string) (id : json).

Inductive http_request : Type :=
| POST_rpc (req : rpc_request)
| GET_task (taskId : string).

Inductive http_body (R : Type) : Type :=
| BodyRpc (b : rpc_body)
| BodyTask (t : task R)
| BodyError (msg : string).
Arguments BodyRpc {R}.
Arguments BodyTask {R}.
Arguments BodyError {R}.

Record http_response (R : Type) : Type := Response {
  http_status : Z;
  http_body_of : http_body R
}.
Arguments Response {R}.
Arguments http_status {R}.
Arguments http_body_of {R}.

(** [uuidv4()]: the n-th identifier drawn by a process; distinct draws give
    distinct identifiers. *)
Definition uuidv4 (n : N) : string := "uuid-" ++ show_N n.

(** [id || null]. *)
Definition or_null (v : json) : json := if truthy v then v else JNull.

(** The thunk left behind by [this.processTask(taskId, method, params)] at its
    first [await]. *)
Record job : Type := Job {
  job_task : string;
  job_method : json;
  job_params : json
}.

(** Take the job of [taskId] out of the waiting ones. *)
Fixpoint take_job (taskId : string) (js : list job) : option (job * list job) :=
  match js with
  | [] => None
  | j :: js' =>
      if String.eqb taskId (job_task j) then Some (j, js')
      else '(j0, rest) ← take_job taskId js'; Some (j0, j :: rest)
  end.

(* ===================================================================== *)
(** * Agent A: text processor (agent-a-server.js) *)
(* ===================================================================== *)

Module AgentA.
Section AgentA.
(** The text functions of the agent; each returns an object literal or
    throws. *)
Context (analyzeText : json -> js_error + list (string * json)).
Context (transformText : json -> json -> js_error + list (string * json)).
Context (validateText : json -> json -> js_error + list (string * json)).

Record state : Type := State {
  tasks : gmap string (task json);
  uuids : N;                (* identifiers drawn so far *)
  clock : N;                (* Date.now() *)
  suspended : list job      (* processTask calls waiting in their timer *)
}.

Definition init : state :=
  {| tasks := ∅; uuids := 0; clock := 0; suspended := [] |}.

Definition supportedMethods : list string :=
  ["text_analysis"; "text_transform"; "text_validation"].

(** [app.post('/rpc', ...)]. *)
Definition rpc (req : rpc_request) (s : state) : state * http_response json :=
  if negb (is_str (req_jsonrpc req) "2.0") then
    (s, Response 400 (BodyRpc (RpcError (-32600) "Invalid Request" None (req_id req))))
  else if negb (includes_str supportedMethods (req_method req)) then
    (s, Response 400 (BodyRpc (RpcError (-32601)
           ("Method not found: " ++ js_String (req_method req)) None (req_id req))))
  else
    let taskId := uuidv4 (uuids s) in
    let t := {| task_id := taskId; status := "processing";
                task_method := req_method req; task_params := req_params req;
                created_at := clock s; agent := Some "agent-a";
                result := Missing; error := Missing;
                completed_at := None; failed_at := None |} in
    ({| tasks := <[taskId := t]> (tasks s);
        uuids := uuids s + 1;
        clock := clock s;
        (* processTask finds the task and parks in its 1500 ms timer *)
        suspended := suspended s ++ [Job taskId (req_method req) (req_params req)] |},
     Response 200 (BodyRpc (RpcResult taskId "accepted"
           ("Task " ++ js_String (req_method req) ++ " accepted for processing")
           (req_id req)))).

(** [app.get('/task/:taskId', ...)]. *)
Definition get_task (taskId : string) (s : state) : http_response json :=
  match tasks s !! taskId with
  | None => Response 404 (BodyError "Task not found")
  | Some t => Response 200 (BodyTask t)
  end.

(** The [switch (method)] of [processTask]. *)
Definition dispatch (method params : json) : js_error + list (string * json) :=
  if is_str method "text_analysis" then
    text ← js_get params "text"; analyzeText text
  else if is_str method "text_transform" then
    text ← js_get params "text";
    operation ← js_get params "operation";
    transformText text operation
  else if is_str method "text_validation" then
    text ← js_get params "text";
    validation_type ← js_get params "validation_type";
    validateText text validation_type
  else inl (Error ("Unsupported method: " ++ js_String method)).

(** The rest of [processTask] once its timer fired: the three assignments
    of either branch run without an [await] in between. *)
Definition finish (now : N) (j : job) (t : task json) : task json :=
  match dispatch (job_method j) (job_params j) with
  | inr fields =>
      {| task_id := task_id t; status := "completed";
         task_method := task_method t; task_params := task_params t;
         created_at := created_at t; agent := agent t;
         result := Val (JObj fields); error := error t;
         completed_at := Some now; failed_at := failed_at t |}
  | inl e =>
      {| task_id := task_id t; status := "failed";
         task_method := task_method t; task_params := task_params t;
         created_at := created_at t; agent := agent t;
         result := result t; error := Val (message e);
         completed_at := completed_at t; failed_at := Some now |}
  end.

(** The timer of the suspended [processTask(taskId, ...)] fires. *)
Definition resume (taskId : string) (s : state) : state :=
  match take_job taskId (suspended s) with
  | None => s
  | Some (j, rest) =>
      {| tasks := alter (finish (clock s) j) taskId (tasks s);
         uuids := uuids s; clock := clock s; suspended := rest |}
  end.

Inductive event : Type :=
| Request (r : http_request)
| Resume (taskId : string)
| Elapse (dt : N).

Definition step (s : state) (e : event) : state * option (http_response json) :=
  match e with
  | Request (POST_rpc req) => let '(s', r) := rpc req s in (s', Some r)
  | Request (GET_task taskId) => (s, Some (get_task taskId s))
  | Resume taskId => (resume taskId s, None)
  | Elapse dt =>
      ({| tasks := tasks s; uuids := uuids s; clock := clock s + dt;
          suspended := suspended s |}, None)
  end.

Definition run (es : list event) (s : state) : state :=
  fold_left (fun s e => fst (step s e)) es s.
End AgentA.
End AgentA.

(* ===================================================================== *)
(** * The network and asynchronous code *)
(* ===================================================================== *)

(** What an [axios] call settles with: the response body, or a rejection
    (connection refused, timeout, a status outside 2xx). *)
Inductive net (A : Type) : Type :=
| Reply (data : A)
| Failure (msg : string).
Arguments Reply {A}.
Arguments Failure {A}.

(** An Agent Card as far as the discovery code reads it.  [card_id] keys the
    registry, so it is a string as in the cards the agents publish. *)
Record agent_card : Type := AgentCard {
  card_id : string;
  card_name : json;
  card_type : json;
  card_capabilities : json
}.

(** The rest of the system seen from one process: a request to [url] issued
    at time [t] settles after a latency with an outcome.  Every request
    settles here; one that is never answered is not modelled.  For a request
    sent with a time limit that is no loss, the limit settles it; of a call
    that sends requests without one ([routeAndExecuteTask], the client's
    [sendTaskToAgent] and [waitForTaskCompletion]) the development says what
    it sends and what it returns, not that it ends. *)
Record world : Type := World {
  get_json : string -> N -> N * net json;
  get_card : string -> N -> N * net agent_card;
  post_rpc : string -> rpc_request -> N -> N * net json
}.

(** The [{ timeout }] option of axios: the call is given up after [t] ms. *)
Definition within {A : Type} (timeout : option N) (r : N * net A) : N * net A :=
  match timeout with
  | Some t =>
      if t <=? fst r then (t, Failure ("timeout of " ++ show_N t ++ "ms exceeded"))
      else r
  | None => r
  end.

(** A request a process sent, with the time it was sent at. *)
Inductive call : Type :=
| GET (url : string) (t : N)
| POST (url : string) (body : rpc_request) (t : N).

(** A running process: its clock ([Date.now()]), the fields of [this], and
    the requests it has sent so far. *)
Record proc (S : Type) : Type := Proc {
  now : N;
  self : S;
  calls : list call
}.
Arguments Proc {S}.
Arguments now {S}.
Arguments self {S}.
Arguments calls {S}.

Definition with_self {S} (f : S -> S) (p : proc S) : proc S :=
  {| now := now p; self := f (self p); calls := calls p |}.
Definition elapse {S} (dt : N) (p : proc S) : proc S :=
  {| now := now p + dt; self := self p; calls := calls p |}.
Definition sent {S} (c : call) (p : proc S) : proc S :=
  {| now := now p; self := self p; calls := calls p ++ [c] |}.

(** An [async] function body: it reads and writes the process and either
    returns or throws; what it wrote before throwing stays written. *)
Record M (S A : Type) : Type := MkM {
  runM : proc S -> (js_error + A) * proc S
}.
Arguments MkM {S A}.
Arguments runM {S A}.

#[export] Instance M_ret {S} : MRet (M S) :=
  fun A a => MkM (fun p => (inr a, p)).
#[export] Instance M_bind {S} : MBind (M S) :=
  fun A B k m => MkM (fun p =>
    match runM m p with
    | (inl e, p') => (inl e, p')
    | (inr a, p') => runM (k a) p'
    end).

Definition throw {S A} (e : js_error) : M S A := MkM (fun p => (inl e, p)).

(** [try { body } catch (error) { handler }]. *)
Definition try_catch {S A} (body : M S A) (handler : js_error -> M S A) : M S A :=
  MkM (fun p =>
    match runM body p with
    | (inl e, p') => runM (handler e) p'
    | (inr a, p') => (inr a, p')
    end).

Definition lift {S A} (r : js_error + A) : M S A := MkM (fun p => (r, p)).
Definition date_now {S} : M S N := MkM (fun p => (inr (now p), p)).
Definition this {S} : M S S := MkM (fun p => (inr (self p), p)).
Definition update {S} (f : S -> S) : M S unit :=
  MkM (fun p => (inr tt, with_self f p)).

(** [await new Promise(resolve => setTimeout(resolve, ms))]. *)
Definition sleep {S} (ms : N) : M S unit :=
  MkM (fun p => (inr tt, elapse ms p)).

(** A request is sent and settles: the clock moves by its latency. *)
Definition settle {S A} (c : call) (r : N * net A) : M S A :=
  MkM (fun p =>
    let p' := elapse (fst r) (sent c p) in
    match snd r with
    | Reply d => (inr d, p')
    | Failure msg => (inl (Error msg), p')
    end).

Definition axios_get {S} (w : world) (url : string) (timeout : option N) : M S json :=
  t ← date_now; settle (GET url t) (within timeout (get_json w url t)).
Definition axios_get_card {S} (w : world) (url : string) (timeout : option N)
  : M S agent_card :=
  t ← date_now; settle (GET url t) (within timeout (get_card w url t)).
Definition axios_post {S} (w : world) (url : string) (body : rpc_request)
    (timeout : option N) : M S json :=
  t ← date_now; settle (POST url body t) (within timeout (post_rpc w url body t)).

(** [for (const x of xs) { body }]. *)
Fixpoint for_of {S A} (xs : list A) (body : A -> M S unit) : M S unit :=
  match xs with
  | [] => mret tt
  | x :: xs' => body x;; for_of xs' body
  end.

(* ===================================================================== *)
(** * Text helpers *)
(* ===================================================================== *)

(** Texts are strings of ASCII characters. *)
Definition is_space (c : ascii) : bool :=
  let n := N_of_ascii c in (n =? 32) || ((9 <=? n) && (n <=? 13)).

Definition lower_char (c : ascii) : ascii :=
  let n := N_of_ascii c in
  if (65 <=? n) && (n <=? 90) then ascii_of_N (n + 32) else c.

(** [s.toLowerCase()]. *)
Fixpoint toLowerCase (s : string) : string :=
  match s with
  | EmptyString => EmptyString
  | String c s' => String (lower_char c) (toLowerCase s')
  end.

Definition starts_with_space (s : string) : bool :=
  match s with
  | String c _ => is_space c
  | EmptyString => false
  end.

(** [s.split(/\s+/)]: the pieces between maximal runs of white space, the
    empty pieces at either end included. *)
Fixpoint split_ws (s : string) : list string :=
  match s with
  | EmptyString => [EmptyString]
  | String c s' =>
      if is_space c then
        if starts_with_space s' then split_ws s' else EmptyString :: split_ws s'
      else
        match split_ws s' with
        | [] => [String c EmptyString]
        | piece :: pieces => String c piece :: pieces
        end
  end.

Definition qmin (a b : Q) : Q := if Qle_bool a b then a else b.
Definition qmax (a b : Q) : Q := if Qle_bool a b then b else a.
Definition qabs (a : Q) : Q := if Qle_bool 0 a then a else Qopp a.

(* ===================================================================== *)
(** * Agent E: intelligent text orchestrator (agent-e-server.js) *)
(* ===================================================================== *)

Module AgentE.

(** An entry of [this.discoveredAgents]. *)
Record descriptor : Type := Descriptor {
  d_id : string;
  d_name : json;
  d_type : json;
  d_url : string;
  d_capabilities : json;
  d_last_seen : N;
  d_card : agent_card
}.

(** What [sentimentFallback] returns. *)
Record sentiment_result : Type := SentimentResult {
  sentiment : string;
  score : Q;
  confidence : Q;
  processed_by : string;
  positive_words : nat;
  negative_words : nat;
  total_words : nat
}.

Definition positiveWords : list string :=
  ["good"; "great"; "excellent"; "amazing"; "wonderful"; "fantastic"; "love";
   "happy"; "joy"].
Definition negativeWords : list string :=
  ["bad"; "terrible"; "awful"; "hate"; "sad"; "angry"; "disappointed";
   "horrible"; "worst"].

(** [words.filter(word => list.includes(word)).length]. *)
Definition count_in (lits words : list string) : nat :=
  List.length (List.filter (fun word => existsb (String.eqb word) lits) words).

Definition sentimentFallback (text : string) : sentiment_result :=
  let words := split_ws (toLowerCase text) in
  let positive := count_in positiveWords words in
  let negative := count_in negativeWords words in
  let '(label, sc) :=
    if (negative <? positive)%nat then
      ("positive",
       qmin (8 # 10) (Qplus (3 # 10) (Qmult (inject_Z (Z.of_nat (positive - negative))) (1 # 10))))
    else if (positive <? negative)%nat then
      ("negative",
       qmax (Qopp (8 # 10))
            (Qminus (Qopp (3 # 10)) (Qmult (inject_Z (Z.of_nat (negative - positive))) (1 # 10))))
    else ("neutral", 0%Q) in
  {| sentiment := label;
     score := sc;
     confidence := if Qle_bool (qabs sc) 0 then (4 # 10) else (6 # 10);
     processed_by := "Agent E (fallback sentiment)";
     positive_words := positive;
     negative_words := negative;
     total_words := List.length words |}.

(** A part of a result: the remote task's result, or the local fallback's. *)
Inductive handled (L : Type) : Type :=
| Delegated (v : json)
| Fallback (r : L).
Arguments Delegated {L}.
Arguments Fallback {L}.

Section AgentE.
(** The two local text functions no property below looks into, with the
    types of what they return, and the number formatting of the status
    report. *)
Context {Basic Lang : Type}.
Context (analyzeTextBasic : string -> Basic).
Context (languageFallback : string -> Lang).
Context (delegation_rate : nat -> nat -> string).
Context (w : world).

(** Result of [intelligentTextAnalysis]. *)
Record analysis_result : Type := AnalysisResult {
  text_analysis : Basic;
  delegation_used : bool;
  agents_called : list string;
  sentiment_analysis : option (handled sentiment_result);
  language_detection : option (handled Lang);
  fallback_used : json
}.

(** Result of [smartTextProcessing]. *)
Record processing_result : Type := ProcessingResult {
  processed_text : json;
  operations_performed : list string;
  agents_used : list string;
  fallbacks_used : list string;
  total_delegations : nat;
  total_fallbacks : nat;
  basic_analysis : option Basic;
  sp_sentiment : option (handled sentiment_result);
  sp_language : option (handled Lang)
}.

Record agent_summary : Type := AgentSummary {
  sum_id : string;
  sum_name : json;
  sum_type : json;
  sum_url : string;
  sum_last_seen : N;
  sum_capabilities : json
}.

(** Result of [getOrchestratorStatus]. *)
Record status_result : Type := StatusResult {
  sr_agent_id : string;
  sr_port : N;
  sr_discovered_agents : list agent_summary;
  sr_total_delegations : nat;
  sr_total_fallbacks : nat;
  sr_delegation_rate : string;
  sr_last_discovery : option N;
  sr_discovery_interval_ms : N;
  sr_agents_discovered : nat
}.

(** Result of [forceDiscovery]. *)
Record discovery_result : Type := DiscoveryResult {
  dr_message : string;
  dr_discovered_agents : nat;
  dr_timestamp : N
}.

Inductive result_t : Type :=
| RAnalysis (r : analysis_result)
| RProcessing (r : processing_result)
| RStatus (r : status_result)
| RDiscovery (r : discovery_result).

Record state : Type := State {
  port : N;
  tasks : gmap string (task result_t);
  discoveredAgents : list (string * descriptor);
  lastDiscovery : option N;
  discoveryInterval : N;
  delegationCount : nat;
  fallbackCount : nat;
  uuids : N;
  suspended : list job
}.

Definition init (port : N) : state :=
  {| port := port; tasks := ∅; discoveredAgents := []; lastDiscovery := None;
     discoveryInterval := 30000; delegationCount := 0; fallbackCount := 0;
     uuids := 0; suspended := [] |}.

Definition set_tasks (f : gmap string (task result_t) -> gmap string (task result_t))
    (s : state) : state :=
  {| port := port s; tasks := f (tasks s); discoveredAgents := discoveredAgents s;
     lastDiscovery := lastDiscovery s; discoveryInterval := discoveryInterval s;
     delegationCount := delegationCount s; fallbackCount := fallbackCount s;
     uuids := uuids s; suspended := suspended s |}.
Definition set_discoveredAgents
    (f : list (string * descriptor) -> list (string * descriptor)) (s : state) : state :=
  {| port := port s; tasks := tasks s; discoveredAgents := f (discoveredAgents s);
     lastDiscovery := lastDiscovery s; discoveryInterval := discoveryInterval s;
     delegationCount := delegationCount s; fallbackCount := fallbackCount s;
     uuids := uuids s; suspended := suspended s |}.
Definition set_lastDiscovery (t : N) (s : state) : state :=
  {| port := port s; tasks := tasks s; discoveredAgents := discoveredAgents s;
     lastDiscovery := Some t; discoveryInterval := discoveryInterval s;
     delegationCount := delegationCount s; fallbackCount := fallbackCount s;
     uuids := uuids s; suspended := suspended s |}.
(** [this.delegationCount++]. *)
Definition incr_delegationCount (s : state) : state :=
  {| port := port s; tasks := tasks s; discoveredAgents := discoveredAgents s;
     lastDiscovery := lastDiscovery s; discoveryInterval := discoveryInterval s;
     delegationCount := S (delegationCount s); fallbackCount := fallbackCount s;
     uuids := uuids s; suspended := suspended s |}.
(** [this.fallbackCount++]. *)
Definition incr_fallbackCount (s : state) : state :=
  {| port := port s; tasks := tasks s; discoveredAgents := discoveredAgents s;
     lastDiscovery := lastDiscovery s; discoveryInterval := discoveryInterval s;
     delegationCount := delegationCount s; fallbackCount := S (fallbackCount s);
     uuids := uuids s; suspended := suspended s |}.
Definition set_uuids (n : N) (s : state) : state :=
  {| port := port s; tasks := tasks s; discoveredAgents := discoveredAgents s;
     lastDiscovery := lastDiscovery s; discoveryInterval := discoveryInterval s;
     delegationCount := delegationCount s; fallbackCount := fallbackCount s;
     uuids := n; suspended := suspended s |}.
Definition set_suspended (js : list job) (s : state) : state :=
  {| port := port s; tasks := tasks s; discoveredAgents := discoveredAgents s;
     lastDiscovery := lastDiscovery s; discoveryInterval := discoveryInterval s;
     delegationCount := delegationCount s; fallbackCount := fallbackCount s;
     uuids := uuids s; suspended := js |}.

(** [uuidv4()] inside an async function. *)
Definition draw_uuid : M state string :=
  s ← this; update (set_uuids (uuids s + 1));; mret (uuidv4 (uuids s)).

(* ------------------------------------------------------------------- *)
(** ** Discovery *)

Definition portRange : list N := [4001; 4002; 4003; 4004].

(** The [catch] of a probe: every agent whose url mentions the port goes. *)
Definition remove_unreachable (p : N) (agents : list (string * descriptor))
  : list (string * descriptor) :=
  let agentsToRemove :=
    List.filter (fun a => includes (d_url a) (":" ++ show_N p)) (JsMap.values agents) in
  fold_left (fun m a => JsMap.delete String.eqb (d_id a) m) agentsToRemove agents.

(** One turn of the [for (const port of portRange)] loop. *)
Definition discover_port (p : N) : M state unit :=
  s ← this;
  if p =? port s then mret tt
  else
    try_catch
      (let agentUrl := "http://localhost:" ++ show_N p in
       statusResponse ← axios_get w (agentUrl ++ "/status") (Some 2000);
       st ← lift (js_get statusResponse "status");
       if is_str st "ok" then
         agentCard ← axios_get_card w (agentUrl ++ "/agent-card") (Some 2000);
         t ← date_now;
         update (set_discoveredAgents
           (JsMap.set String.eqb (card_id agentCard)
              {| d_id := card_id agentCard; d_name := card_name agentCard;
                 d_type := card_type agentCard; d_url := agentUrl;
                 d_capabilities := card_capabilities agentCard;
                 d_last_seen := t; d_card := agentCard |}))
       else mret tt)
      (fun _ => update (set_discoveredAgents (remove_unreachable p))).

Definition performDiscovery : M state unit :=
  for_of portRange discover_port;;
  t ← date_now;
  update (set_lastDiscovery t).

Definition findAgentByType (type : string) (s : state) : option descriptor :=
  List.find (fun a => is_str (d_type a) type) (JsMap.values (discoveredAgents s)).

(* ------------------------------------------------------------------- *)
(** ** Delegation *)

(** How the polling loop of [waitForTaskCompletion] is left. *)
Inductive poll_exit : Type :=
| Returned (v : json)      (* [return task.result] *)
| LeftLoop                 (* the condition failed, or [break] *)
| Exhausted.               (* the model's fuel ran out *)

(** The [while (Date.now() - startTime < maxWaitTime)] loop. *)
Fixpoint poll (fuel : nat) (agentUrl : string) (taskId : json)
    (startTime maxWaitTime : N) : M state poll_exit :=
  match fuel with
  | O => mret Exhausted
  | S fuel' =>
      t ← date_now;
      if t - startTime <? maxWaitTime then
        r ← try_catch
              (taskResponse ← axios_get w (agentUrl ++ "/task/" ++ js_String taskId)
                                (Some 2000);
               st ← lift (js_get taskResponse "status");
               if is_str st "completed" then
                 v ← lift (js_get taskResponse "result");
                 mret (Some (Returned v))
               else if is_str st "failed" then
                 e ← lift (js_get taskResponse "error");
                 throw (Error ("Task failed: " ++ js_String e))
               else
                 sleep 500;; mret None)
              (fun _ => mret (Some LeftLoop));
        match r with
        | Some exit => mret exit
        | None => poll fuel' agentUrl taskId startTime maxWaitTime
        end
      else mret LeftLoop
  end.

(** Every turn that goes round again takes 500 ms, so this many turns
    outlast [maxWaitTime] (see [poll_never_exhausted]). *)
Definition poll_fuel (maxWaitTime : N) : nat := N.to_nat (maxWaitTime / 500) + 2.

Definition waitForTaskCompletion (agentUrl : string) (taskId : json)
    (maxWaitTime : N) : M state json :=
  startTime ← date_now;
  exit ← poll (poll_fuel maxWaitTime) agentUrl taskId startTime maxWaitTime;
  match exit with
  | Returned v => mret v
  | LeftLoop | Exhausted => throw (Error ("Task " ++ js_String taskId ++ " timeout"))
  end.

Definition delegateToAgent (agent : descriptor) (method : string) (params : json)
  : M state json :=
  uid ← draw_uuid;
  response ← axios_post w (d_url agent ++ "/rpc")
               {| req_jsonrpc := JStr "2.0"; req_method := JStr method;
                  req_params := params; req_id := JStr uid |} (Some 5000);
  e ← lift (js_get response "error");
  if truthy e then
    msg ← lift (js_get e "message");
    throw (Error ("Agent error: " ++ js_String msg))
  else
    res ← lift (js_get response "result");
    let task_id := js_get_opt res "task_id" in
    if truthy task_id then waitForTaskCompletion (d_url agent) task_id 10000
    else mret res.

(* ------------------------------------------------------------------- *)
(** ** The local text functions applied to a parameter *)

(** A string method called on [text]: a [TypeError] unless it is a string. *)
Definition as_text (method : string) (text : json) : js_error + string :=
  match text with
  | JStr s => inr s
  | _ => inl (Error ("text." ++ method ++ " is not a function"))
  end.

Definition call_analyzeTextBasic (text : json) : js_error + Basic :=
  s ← as_text "split" text; mret (analyzeTextBasic s).
Definition call_sentimentFallback (text : json) : js_error + sentiment_result :=
  s ← as_text "toLowerCase" text; mret (sentimentFallback s).
Definition call_languageFallback (text : json) : js_error + Lang :=
  s ← as_text "match" text; mret (languageFallback s).

(** [const { k = dflt } = params]: the pattern throws its own [TypeError] on
    [undefined] and [null]. *)
Definition destructure (params : json) (k : string) (dflt : json) : js_error + json :=
  match params with
  | JUndefined =>
      inl (Error ("Cannot destructure property '" ++ k
                    ++ "' of 'params' as it is undefined."))
  | JNull =>
      inl (Error ("Cannot destructure property '" ++ k ++ "' of 'params' as it is null."))
  | _ =>
      v ← js_get params k;
      mret (match v with JUndefined => dflt | _ => v end)
  end.

(* ------------------------------------------------------------------- *)
(** ** intelligentTextAnalysis *)

Definition sentiment_delegated (v : json) (r : analysis_result) : analysis_result :=
  {| text_analysis := text_analysis r; delegation_used := true;
     agents_called := agents_called r ++ ["Agent C (sentiment)"];
     sentiment_analysis := Some (Delegated v);
     language_detection := language_detection r;
     fallback_used := fallback_used r |}.
Definition sentiment_fallback (f : sentiment_result) (r : analysis_result)
  : analysis_result :=
  {| text_analysis := text_analysis r; delegation_used := delegation_used r;
     agents_called := agents_called r;
     sentiment_analysis := Some (Fallback f);
     language_detection := language_detection r;
     fallback_used := JStr "sentiment" |}.
Definition language_delegated (v : json) (r : analysis_result) : analysis_result :=
  {| text_analysis := text_analysis r; delegation_used := true;
     agents_called := agents_called r ++ ["Agent D (language)"];
     sentiment_analysis := sentiment_analysis r;
     language_detection := Some (Delegated v);
     fallback_used := fallback_used r |}.
Definition language_fallback (f : Lang) (r : analysis_result) : analysis_result :=
  {| text_analysis := text_analysis r; delegation_used := delegation_used r;
     agents_called := agents_called r;
     sentiment_analysis := sentiment_analysis r;
     language_detection := Some (Fallback f);
     fallback_used :=
       if truthy (fallback_used r) then JArr [fallback_used r; JStr "language"]
       else JStr "language" |}.

(** The [if (include_sentiment) { ... }] block. *)
Definition analyse_sentiment (text : json) (result : analysis_result)
  : M state analysis_result :=
  s ← this;
  match findAgentByType "sentiment-analyzer" s with
  | Some sentimentAgent =>
      try_catch
        (sentimentResult ← delegateToAgent sentimentAgent "sentiment_analysis"
                             (JObj [("text", text)]);
         update incr_delegationCount;;
         mret (sentiment_delegated sentimentResult result))
        (fun _ =>
           f ← lift (call_sentimentFallback text);
           update incr_fallbackCount;;
           mret (sentiment_fallback f result))
  | None =>
      f ← lift (call_sentimentFallback text);
      update incr_fallbackCount;;
      mret (sentiment_fallback f result)
  end.

(** The [if (include_language) { ... }] block. *)
Definition analyse_language (text : json) (result : analysis_result)
  : M state analysis_result :=
  s ← this;
  match findAgentByType "language-detector" s with
  | Some languageAgent =>
      try_catch
        (languageResult ← delegateToAgent languageAgent "language_detection"
                            (JObj [("text", text)]);
         update incr_delegationCount;;
         mret (language_delegated languageResult result))
        (fun _ =>
           f ← lift (call_languageFallback text);
           update incr_fallbackCount;;
           mret (language_fallback f result))
  | None =>
      f ← lift (call_languageFallback text);
      update incr_fallbackCount;;
      mret (language_fallback f result)
  end.

(** [if (this.discoveredAgents.size === 0) await this.performDiscovery()]. *)
Definition discover_if_empty : M state unit :=
  s ← this;
  if Nat.eqb (JsMap.size (discoveredAgents s)) 0 then performDiscovery else mret tt.

Definition intelligentTextAnalysis (params : json) : M state analysis_result :=
  text ← lift (destructure params "text" JUndefined);
  include_sentiment ← lift (destructure params "include_sentiment" (JBool true));
  include_language ← lift (destructure params "include_language" (JBool true));
  _ ← lift (destructure params "detailed" (JBool false));
  if negb (truthy text) then throw (Error "Text parameter is required")
  else
    basicAnalysis ← lift (call_analyzeTextBasic text);
    let result :=
      {| text_analysis := basicAnalysis; delegation_used := false;
         agents_called := []; sentiment_analysis := None;
         language_detection := None; fallback_used := JUndefined |} in
    discover_if_empty;;
    result ← (if truthy include_sentiment then analyse_sentiment text result
              else mret result);
    result ← (if truthy include_language then analyse_language text result
              else mret result);
    mret result.

(* ------------------------------------------------------------------- *)
(** ** smartTextProcessing *)

(** What [for (const operation of operations)] walks over. *)
Definition iterate (v : json) : js_error + list json :=
  match v with
  | JArr items => inr items
  | JStr s => inr (map (fun c => JStr (String c EmptyString)) (String.list_ascii_of_string s))
  | _ => inl (Error "operations is not iterable")
  end.

Definition performed (name : string) (r : processing_result) : processing_result :=
  {| processed_text := processed_text r;
     operations_performed := operations_performed r ++ [name];
     agents_used := agents_used r; fallbacks_used := fallbacks_used r;
     total_delegations := total_delegations r; total_fallbacks := total_fallbacks r;
     basic_analysis := basic_analysis r; sp_sentiment := sp_sentiment r;
     sp_language := sp_language r |}.
Definition with_basic (b : Basic) (r : processing_result) : processing_result :=
  {| processed_text := processed_text r;
     operations_performed := operations_performed r;
     agents_used := agents_used r; fallbacks_used := fallbacks_used r;
     total_delegations := total_delegations r; total_fallbacks := total_fallbacks r;
     basic_analysis := Some b; sp_sentiment := sp_sentiment r;
     sp_language := sp_language r |}.
Definition sp_sentiment_delegated (v : json) (r : processing_result) : processing_result :=
  {| processed_text := processed_text r;
     operations_performed := operations_performed r;
     agents_used := agents_used r ++ ["Agent C (sentiment)"];
     fallbacks_used := fallbacks_used r;
     total_delegations := S (total_delegations r);
     total_fallbacks := total_fallbacks r;
     basic_analysis := basic_analysis r; sp_sentiment := Some (Delegated v);
     sp_language := sp_language r |}.
Definition sp_sentiment_fallback (f : sentiment_result) (r : processing_result)
  : processing_result :=
  {| processed_text := processed_text r;
     operations_performed := operations_performed r;
     agents_used := agents_used r;
     fallbacks_used := fallbacks_used r ++ ["sentiment"];
     total_delegations := total_delegations r;
     total_fallbacks := S (total_fallbacks r);
     basic_analysis := basic_analysis r; sp_sentiment := Some (Fallback f);
     sp_language := sp_language r |}.
Definition sp_language_delegated (v : json) (r : processing_result) : processing_result :=
  {| processed_text := processed_text r;
     operations_performed := operations_performed r;
     agents_used := agents_used r ++ ["Agent D (language)"];
     fallbacks_used := fallbacks_used r;
     total_delegations := S (total_delegations r);
     total_fallbacks := total_fallbacks r;
     basic_analysis := basic_analysis r; sp_sentiment := sp_sentiment r;
     sp_language := Some (Delegated v) |}.
Definition sp_language_fallback (f : Lang) (r : processing_result) : processing_result :=
  {| processed_text := processed_text r;
     operations_performed := operations_performed r;
     agents_used := agents_used r;
     fallbacks_used := fallbacks_used r ++ ["language"];
     total_delegations := total_delegations r;
     total_fallbacks := S (total_fallbacks r);
     basic_analysis := basic_analysis r; sp_sentiment := sp_sentiment r;
     sp_language := Some (Fallback f) |}.

(** The [case 'sentiment':] arm up to its [operations_performed.push]. *)
Definition process_sentiment (text : json) (result : processing_result)
  : M state processing_result :=
  s ← this;
  match findAgentByType "sentiment-analyzer" s with
  | Some sentimentAgent =>
      try_catch
        (v ← delegateToAgent sentimentAgent "sentiment_analysis" (JObj [("text", text)]);
         update incr_delegationCount;;
         mret (sp_sentiment_delegated v result))
        (fun _ =>
           f ← lift (call_sentimentFallback text);
           update incr_fallbackCount;;
           mret (sp_sentiment_fallback f result))
  | None =>
      f ← lift (call_sentimentFallback text);
      update incr_fallbackCount;;
      mret (sp_sentiment_fallback f result)
  end.

Definition process_language (text : json) (result : processing_result)
  : M state processing_result :=
  s ← this;
  match findAgentByType "language-detector" s with
  | Some languageAgent =>
      try_catch
        (v ← delegateToAgent languageAgent "language_detection" (JObj [("text", text)]);
         update incr_delegationCount;;
         mret (sp_language_delegated v result))
        (fun _ =>
           f ← lift (call_languageFallback text);
           update incr_fallbackCount;;
           mret (sp_language_fallback f result))
  | None =>
      f ← lift (call_languageFallback text);
      update incr_fallbackCount;;
      mret (sp_language_fallback f result)
  end.

(** The body of the [switch (operation)]. *)
Definition process_operation (text : json) (result : processing_result)
    (operation : json) : M state processing_result :=
  if is_str operation "analyze" then
    b ← lift (call_analyzeTextBasic text);
    mret (performed "basic_analysis" (with_basic b result))
  else if is_str operation "sentiment" then
    r ← process_sentiment text result;
    mret (performed "sentiment_analysis" r)
  else if is_str operation "language" then
    r ← process_language text result;
    mret (performed "language_detection" r)
  else mret result.

Fixpoint process_operations (text : json) (result : processing_result)
    (operations : list json) : M state processing_result :=
  match operations with
  | [] => mret result
  | operation :: rest =>
      r ← process_operation text result operation;
      process_operations text r rest
  end.

Definition smartTextProcessing (params : json) : M state processing_result :=
  text ← lift (destructure params "text" JUndefined);
  operations ← lift (destructure params "operations"
                       (JArr [JStr "analyze"; JStr "sentiment"; JStr "language"]));
  if negb (truthy text) then throw (Error "Text parameter is required")
  else
    let result :=
      {| processed_text := text; operations_performed := [];
         agents_used := []; fallbacks_used := [];
         total_delegations := 0; total_fallbacks := 0;
         basic_analysis := None; sp_sentiment := None; sp_language := None |} in
    discover_if_empty;;
    ops ← lift (iterate operations);
    process_operations text result ops.

(* ------------------------------------------------------------------- *)
(** ** Status and forced discovery *)

(** [agent.capabilities?.length || 0]. *)
Definition capabilities_count (capabilities : json) : json :=
  let len := match capabilities with
             | JArr items => JNum (Z.of_nat (List.length items))
             | JStr s => JNum (Z.of_nat (String.length s))
             | _ => js_get_opt capabilities "length"
             end in
  if truthy len then len else JNum 0.

Definition getOrchestratorStatus : M state status_result :=
  s ← this;
  mret {| sr_agent_id := "intelligent-orchestrator-agent-e";
          sr_port := port s;
          sr_discovered_agents :=
            map (fun e =>
                   {| sum_id := fst e; sum_name := d_name (snd e);
                      sum_type := d_type (snd e); sum_url := d_url (snd e);
                      sum_last_seen := d_last_seen (snd e);
                      sum_capabilities := capabilities_count (d_capabilities (snd e)) |})
                (discoveredAgents s);
          sr_total_delegations := delegationCount s;
          sr_total_fallbacks := fallbackCount s;
          sr_delegation_rate :=
            if Nat.ltb 0 (delegationCount s + fallbackCount s)
            then delegation_rate (delegationCount s) (fallbackCount s)
            else "0%";
          sr_last_discovery := lastDiscovery s;
          sr_discovery_interval_ms := discoveryInterval s;
          sr_agents_discovered := JsMap.size (discoveredAgents s) |}.

Definition forceDiscovery : M state discovery_result :=
  performDiscovery;;
  s ← this;
  t ← date_now;
  mret {| dr_message := "Discovery completed";
          dr_discovered_agents := JsMap.size (discoveredAgents s);
          dr_timestamp := t |}.

(* ------------------------------------------------------------------- *)
(** ** Task acceptance and processing *)

Definition knownMethods : list string :=
  ["intelligent_text_analysis"; "smart_text_processing"; "orchestrator_status";
   "force_discovery"].

(** The [switch (method)] of [processTask]. *)
Definition dispatch (method params : json) : M state result_t :=
  if is_str method "intelligent_text_analysis" then
    r ← intelligentTextAnalysis params; mret (RAnalysis r)
  else if is_str method "smart_text_processing" then
    r ← smartTextProcessing params; mret (RProcessing r)
  else if is_str method "orchestrator_status" then
    r ← getOrchestratorStatus; mret (RStatus r)
  else if is_str method "force_discovery" then
    r ← forceDiscovery; mret (RDiscovery r)
  else throw (Error ("Unknown method: " ++ js_String method)).

Definition complete (r : result_t) (t : N) (k : task result_t) : task result_t :=
  {| task_id := task_id k; status := "completed";
     task_method := task_method k; task_params := task_params k;
     created_at := created_at k; agent := agent k;
     result := Val r; error := error k;
     completed_at := Some t; failed_at := failed_at k |}.
Definition fail (e : js_error) (t : N) (k : task result_t) : task result_t :=
  {| task_id := task_id k; status := "failed";
     task_method := task_method k; task_params := task_params k;
     created_at := created_at k; agent := agent k;
     result := result k; error := Val (message e);
     completed_at := Some t; failed_at := failed_at k |}.

(** [processTask]: the assignments after the [switch], and those of the
    [catch], each run without an [await] in between. *)
Definition processTask (taskId : string) (method params : json) : M state unit :=
  try_catch
    (r ← dispatch method params;
     t ← date_now;
     update (set_tasks (alter (complete r t) taskId)))
    (fun e =>
       t ← date_now;
       update (set_tasks (alter (fail e t) taskId))).

(** [app.post('/rpc', ...)].  A method outside the [switch] makes
    [processTask] throw and catch before its first [await], that is before
    the response is written; the four handlers are entered through an
    [await] and go on after the response. *)
Definition rpc (req : rpc_request) (p : proc state)
  : proc state * http_response result_t :=
  if negb (is_str (req_jsonrpc req) "2.0") then
    (p, Response 400 (BodyRpc (RpcError (-32600) "Invalid Request" None
                                 (or_null (req_id req)))))
  else if negb (truthy (req_method req)) then
    (p, Response 400 (BodyRpc (RpcError (-32600) "Method required" None
                                 (or_null (req_id req)))))
  else
    let s := self p in
    let taskId := uuidv4 (uuids s) in
    let k := {| task_id := taskId; status := "processing";
                task_method := req_method req; task_params := req_params req;
                created_at := now p; agent := None;
                result := Null; error := Null;
                completed_at := None; failed_at := None |} in
    let s1 := set_uuids (uuids s + 1) (set_tasks (insert taskId k) s) in
    let p2 :=
      if includes_str knownMethods (req_method req) then
        with_self (fun _ =>
             set_suspended
               (suspended s1 ++ [Job taskId (req_method req) (req_params req)]) s1) p
      else
        snd (runM (processTask taskId (req_method req) (req_params req))
                  (with_self (fun _ => s1) p)) in
    (p2, Response 200 (BodyRpc (RpcResult taskId "accepted"
                                  "Task processing started" (req_id req)))).

(** [app.get('/task/:taskId', ...)]. *)
Definition get_task (taskId : string) (s : state) : http_response result_t :=
  match tasks s !! taskId with
  | None => Response 404 (BodyError "Task not found")
  | Some k => Response 200 (BodyTask k)
  end.

(** A waiting [processTask] runs to its end. *)
Definition resume (taskId : string) (p : proc state) : proc state :=
  match take_job taskId (suspended (self p)) with
  | None => p
  | Some (j, rest) =>
      snd (runM (processTask taskId (job_method j) (job_params j))
                (with_self (set_suspended rest) p))
  end.

Inductive event : Type :=
| Request (r : http_request)
| Resume (taskId : string)
| Discover                (* the [setInterval] of [startPeriodicDiscovery] *)
| Elapse (dt : N).

Definition step (p : proc state) (e : event)
  : proc state * option (http_response result_t) :=
  match e with
  | Request (POST_rpc req) => let '(p', r) := rpc req p in (p', Some r)
  | Request (GET_task taskId) => (p, Some (get_task taskId (self p)))
  | Resume taskId => (resume taskId p, None)
  | Discover => (snd (runM performDiscovery p), None)
  | Elapse dt => (elapse dt p, None)
  end.

Definition run (es : list event) (p : proc state) : proc state :=
  fold_left (fun p e => fst (step p e)) es p.
End AgentE.
End AgentE.

(* ===================================================================== *)
(** * Discovery client (discovery-client.js) *)
(* ===================================================================== *)

Module Client.

Record entry : Type := Entry {
  e_url : string;
  e_port : N;
  e_card : agent_card;
  e_last_seen : N
}.

Record state : Type := State {
  discoveredAgents : list (N * entry);
  discoveryPorts : list N
}.

Definition init : state :=
  {| discoveredAgents := []; discoveryPorts := [4001; 4002; 4003; 4004; 4005] |}.

Definition baseUrl : string := "http://localhost".

Definition set_discoveredAgents (f : list (N * entry) -> list (N * entry)) (s : state)
  : state :=
  {| discoveredAgents := f (discoveredAgents s); discoveryPorts := discoveryPorts s |}.

(** A line of the summary [discoverAgents] returns. *)
Record available : Type := Available {
  av_port : N;
  av_name : json;
  av_type : json;
  av_capabilities : json
}.

(** [v.length]. *)
Definition js_length (v : json) : js_error + json :=
  match v with
  | JArr items => inr (JNum (Z.of_nat (List.length items)))
  | JStr s => inr (JNum (Z.of_nat (String.length s)))
  | _ => js_get v "length"
  end.

Section Client.
Context (w : world).

(** One turn of the loop of [discoverAgents]; the [catch] is empty. *)
Definition discover_port (p : N) : M state (option available) :=
  try_catch
    (let agentUrl := baseUrl ++ ":" ++ show_N p in
     statusResponse ← axios_get w (agentUrl ++ "/status") (Some 2000);
     st ← lift (js_get statusResponse "status");
     if is_str st "ok" then
       agentCard ← axios_get_card w (agentUrl ++ "/agent-card") (Some 2000);
       t ← date_now;
       update (set_discoveredAgents
         (JsMap.set N.eqb p
            {| e_url := agentUrl; e_port := p; e_card := agentCard;
               e_last_seen := t |}));;
       n ← lift (js_length (card_capabilities agentCard));
       mret (Some {| av_port := p; av_name := card_name agentCard;
                     av_type := card_type agentCard; av_capabilities := n |})
     else mret None)
    (fun _ => mret None).

Fixpoint discover_ports (ps : list N) : M state (list available) :=
  match ps with
  | [] => mret []
  | p :: ps' =>
      a ← discover_port p;
      rest ← discover_ports ps';
      mret (match a with Some x => x :: rest | None => rest end)
  end.

Definition discoverAgents : M state (list available) :=
  s ← this; discover_ports (discoveryPorts s).
End Client.
End Client.

(* ===================================================================== *)
(** * Supervisor (advanced-orchestrator.js) *)
(* ===================================================================== *)

Module Orchestrator.

Record agent_config : Type := AgentConfig {
  cfg_id : string;
  cfg_name : string;
  cfg_port : N;
  cfg_type : string;
  cfg_script : string;
  cfg_healthPath : string;
  cfg_capabilities : list string
}.

Definition agentConfigs : list agent_config :=
  [ {| cfg_id := "agent-a"; cfg_name := "Text Processor"; cfg_port := 4001;
       cfg_type := "text-processor"; cfg_script := "agent-a-server.js";
       cfg_healthPath := "/status";
       cfg_capabilities := ["text_analysis"; "text_transform"; "text_validation"] |};
    {| cfg_id := "agent-b"; cfg_name := "Math Calculator"; cfg_port := 4002;
       cfg_type := "math-calculator"; cfg_script := "agent-b-server.js";
       cfg_healthPath := "/status";
       cfg_capabilities := ["basic_math"; "advanced_math"; "statistical_analysis";
                            "equation_solving"] |};
    {| cfg_id := "agent-c"; cfg_name := "Sentiment Analyzer"; cfg_port := 4003;
       cfg_type := "sentiment-analyzer"; cfg_script := "agent-c-server.js";
       cfg_healthPath := "/status";
       cfg_capabilities := ["sentiment_analysis"; "emotion_detection";
                            "polarity_analysis"; "batch_sentiment"] |};
    {| cfg_id := "agent-d"; cfg_name := "Language Detector"; cfg_port := 4004;
       cfg_type := "language-detector"; cfg_script := "agent-d-server.js";
       cfg_healthPath := "/status";
       cfg_capabilities := ["language_detection"; "multilingual_analysis";
                            "language_statistics"; "batch_language_detection"] |} ].

(** A [ChildProcess] handle.  [killed] says a signal was sent. *)
Record child : Type := Child {
  pid : N;
  killed : bool;
  exited : bool
}.

(** An entry of [this.agents]. *)
Record agent : Type := Agent {
  config : agent_config;
  process : child;
  a_status : string;
  startTime : N;
  lastHealthCheck : option N;
  responseTime : option N;
  errorCount : nat
}.

(** What the supervisor did to the operating system. *)
Inductive os_call : Type :=
| Spawn (command : string) (args : list string) (env : list (string * string)) (pid : N)
| Kill (pid : N) (signal : string).

Record state : Type := State {
  agents : list (string * agent);
  os_calls : list os_call;
  pids : N                       (* processes spawned so far *)
}.

Definition init : state := {| agents := []; os_calls := []; pids := 0 |}.

Definition set_agents (f : list (string * agent) -> list (string * agent)) (s : state)
  : state :=
  {| agents := f (agents s); os_calls := os_calls s; pids := pids s |}.
Definition log_os (c : os_call) (s : state) : state :=
  {| agents := agents s; os_calls := os_calls s ++ [c]; pids := pids s |}.

(** In-place assignment to a field of the agent object of [agentId]. *)
Definition alter_agent (agentId : string) (f : agent -> agent)
    (m : list (string * agent)) : list (string * agent) :=
  map (fun e => if String.eqb agentId (fst e) then (fst e, f (snd e)) else e) m.

Definition with_status (st : string) (a : agent) : agent :=
  {| config := config a; process := process a; a_status := st;
     startTime := startTime a; lastHealthCheck := lastHealthCheck a;
     responseTime := responseTime a; errorCount := errorCount a |}.
Definition with_process (c : child) (a : agent) : agent :=
  {| config := config a; process := c; a_status := a_status a;
     startTime := startTime a; lastHealthCheck := lastHealthCheck a;
     responseTime := responseTime a; errorCount := errorCount a |}.
Definition with_health (t rt : N) (a : agent) : agent :=
  {| config := config a; process := process a; a_status := a_status a;
     startTime := startTime a; lastHealthCheck := Some t;
     responseTime := Some rt; errorCount := errorCount a |}.
Definition with_errorCount (n : nat) (a : agent) : agent :=
  {| config := config a; process := process a; a_status := a_status a;
     startTime := startTime a; lastHealthCheck := lastHealthCheck a;
     responseTime := responseTime a; errorCount := n |}.

(** A [const] of the enclosing block: until its initializer has run it is in
    its temporal dead zone, and reading it throws a [ReferenceError]. *)
Inductive binding (A : Type) : Type :=
| Uninitialized
| Initialized (a : A).
Arguments Uninitialized {A}.
Arguments Initialized {A} a.

Definition read_binding {A : Type} (name : string) (b : binding A) : js_error + A :=
  match b with
  | Uninitialized => inl (Error ("Cannot access '" ++ name ++ "' before initialization"))
  | Initialized a => inr a
  end.

(** What a started agent reports back. *)
Record started : Type := Started {
  started_agentId : string;
  started_status : string;
  started_port : N
}.

(** Result of [routeAndExecuteTask]. *)
Record routed : Type := Routed {
  routed_agent : string;
  routed_method : string;
  routed_result : json;
  routed_to : string;
  execution_time : N
}.

Section Orchestrator.
Context (w : world).
(** [__dirname], and how long a child takes to exit after a signal sent at
    a given time, if it ever does. *)
Context (dirname : string).
Context (exit_delay : N -> string -> N -> option N).

(** [waitForAgent(port, timeout)]: [Some true] is [return true], [None]
    means the model's fuel ran out. *)
Fixpoint wait_loop (fuel : nat) (port start timeout : N) : M state (option bool) :=
  match fuel with
  | O => mret None
  | S fuel' =>
      t ← date_now;
      if t - start <? timeout then
        ok ← (try_catch
                (axios_get w ("http://localhost:" ++ show_N port ++ "/status")
                           (Some 1000);;
                 mret true)
                (fun _ => sleep 500;; mret false) : M state bool);
        if (ok : bool) then mret (Some true) else wait_loop fuel' port start timeout
      else mret (Some false)
  end.

Definition waitForAgent (port timeout : N) : M state bool :=
  start ← date_now;
  r ← wait_loop (N.to_nat (timeout / 500) + 2) port start timeout;
  match r with
  | Some true => mret true
  | _ => throw (Error ("Agent on port " ++ show_N port ++ " did not start within "
                         ++ show_N timeout ++ "ms"))
  end.

(** [spawn(command, args, { env })]. *)
Definition spawn (command : string) (args : list string) (env : list (string * string))
  : M state child :=
  s ← this;
  update (fun s => {| agents := agents s;
                      os_calls := os_calls s ++ [Spawn command args env (pids s)];
                      pids := pids s + 1 |});;
  mret {| pid := pids s; killed := false; exited := false |}.

Definition startAgent (agentId : string) : M state started :=
  s ← this;
  match List.find (fun c => String.eqb (cfg_id c) agentId) agentConfigs with
  | None => throw (Error ("Agent configuration not found: " ++ agentId))
  | Some config =>
      let existing := JsMap.get String.eqb agentId (agents s) in
      if match existing with
         | Some a => String.eqb (a_status a) "running"
         | None => false
         end
      then throw (Error ("Agent " ++ agentId ++ " is already running"))
      else
        let scriptPath := dirname ++ "/" ++ cfg_script config in
        (* const process = spawn('node', [scriptPath],
                                 { stdio, env: { ...process.env, AGENT_PORT } });
           the [process] of the initializer is the constant being declared *)
        _ ← lift (read_binding "process" (Uninitialized : binding child));
        process ← spawn "node" [scriptPath] [("AGENT_PORT", show_N (cfg_port config))];
        t ← date_now;
        let agent := {| config := config; process := process; a_status := "starting";
                        startTime := t; lastHealthCheck := None;
                        responseTime := None; errorCount := 0 |} in
        update (set_agents (JsMap.set String.eqb agentId agent));;
        waitForAgent (cfg_port config) 10000;;
        update (set_agents (alter_agent agentId (with_status "running")));;
        mret {| started_agentId := agentId; started_status := "running";
                started_port := cfg_port config |}
  end.

(** [process.kill(signal)]: the signal goes out unless the child is gone. *)
Definition kill (agentId : string) (signal : string) : M state unit :=
  s ← this;
  match JsMap.get String.eqb agentId (agents s) with
  | Some a =>
      if exited (process a) then mret tt
      else
        update (log_os (Kill (pid (process a)) signal));;
        update (set_agents (alter_agent agentId
                  (with_process {| pid := pid (process a); killed := true;
                                   exited := false |})))
  | None => mret tt
  end.

Definition stopAgent (agentId : string) : M state string :=
  s ← this;
  match JsMap.get String.eqb agentId (agents s) with
  | None => throw (Error ("Agent " ++ agentId ++ " not found or not running"))
  | Some a =>
      kill agentId "SIGTERM";;
      update (set_agents (alter_agent agentId (with_status "stopping")));;
      (* the promise resolves on 'exit' or when the 5 s timer fires *)
      t ← date_now;
      match (if exited (process a) then None
             else exit_delay (pid (process a)) "SIGTERM" t) with
      | Some d =>
          if d <? 5000 then
            sleep d;;
            update (set_agents (alter_agent agentId
                      (fun a => with_status "stopped"
                                  (with_process {| pid := pid (process a);
                                                   killed := killed (process a);
                                                   exited := true |} a))))
          else
            sleep 5000;;
            s ← this;
            match JsMap.get String.eqb agentId (agents s) with
            | Some a' => if killed (process a') then mret tt else kill agentId "SIGKILL"
            | None => mret tt
            end
      | None =>
          sleep 5000;;
          s ← this;
          match JsMap.get String.eqb agentId (agents s) with
          | Some a' => if killed (process a') then mret tt else kill agentId "SIGKILL"
          | None => mret tt
          end
      end;;
      update (set_agents (alter_agent agentId (with_status "stopped")));;
      mret "stopped"
  end.

(** One turn of the [for (const [agentId, agent] of this.agents)] loop of
    the health check.  [startAgent] never replaces the entry of [agentId]
    (see [startAgent_throws]), so [agent] is that entry throughout. *)
Definition check_agent (agentId : string) : M state unit :=
  s ← this;
  match JsMap.get String.eqb agentId (agents s) with
  | None => mret tt
  | Some agent =>
      if String.eqb (a_status agent) "running" then
        try_catch
          (start ← date_now;
           axios_get w ("http://localhost:" ++ show_N (cfg_port (config agent)) ++ "/status")
                     (Some 5000);;
           t ← date_now;
           update (set_agents (alter_agent agentId (with_health t (t - start)))))
          (fun _ =>
             update (set_agents (alter_agent agentId
                       (fun a => with_errorCount (S (errorCount a)) a)));;
             s ← this;
             if match JsMap.get String.eqb agentId (agents s) with
                | Some a => Nat.ltb 3 (errorCount a)
                | None => false
                end
             then
               try_catch
                 (stopAgent agentId;;
                  sleep 2000;;
                  startAgent agentId;;
                  update (set_agents (alter_agent agentId (with_errorCount 0))))
                 (fun _ => mret tt)
             else mret tt)
      else mret tt
  end.

(** The callback of the [setInterval] of [startHealthMonitoring]. *)
Definition startHealthMonitoring : M state unit :=
  s ← this;
  for_of (JsMap.keys (agents s)) check_agent.

(** The handlers [startAgent] hangs on the child process. *)
Definition on_stderr (agentId : string) : M state unit :=
  update (set_agents (alter_agent agentId (fun a => with_errorCount (S (errorCount a)) a))).
Definition on_exit (agentId : string) : M state unit :=
  update (set_agents (alter_agent agentId (with_status "stopped"))).

(** [method.startsWith(...)] needs a string. *)
Definition as_method (method : json) : js_error + string :=
  match method with
  | JStr s => inr s
  | JUndefined | JNull => js_get method "startsWith" ≫= fun _ => inr EmptyString
  | _ => inl (Error "method.startsWith is not a function")
  end.

Definition routeAndExecuteTask (method : json) (params : json) : M state routed :=
  m ← lift (as_method method);
  targetAgentType ←
    (if String.prefix "text_" m then mret "text-processor"
     else if String.prefix "math_" m || includes m "math" then mret "math-calculator"
     else if String.prefix "sentiment_" m || includes m "sentiment" || includes m "emotion"
          then mret "sentiment-analyzer"
     else if String.prefix "language_" m || includes m "language"
          then mret "language-detector"
     else throw (Error ("Unable to route method: " ++ m)) : M state string);
  match List.find (fun c => String.eqb (cfg_type c) targetAgentType) agentConfigs with
  | None => throw (Error ("No agent found for type: " ++ targetAgentType))
  | Some targetConfig =>
      t ← date_now;
      response ← axios_post w ("http://localhost:" ++ show_N (cfg_port targetConfig)
                                 ++ "/json-rpc")
                   {| req_jsonrpc := JStr "2.0"; req_method := JStr m;
                      req_params := params; req_id := JNum (Z.of_N t) |} None;
      r ← lift (js_get response "result");
      t' ← date_now;
      mret {| routed_agent := cfg_name targetConfig; routed_method := m;
              routed_result := r; routed_to := targetAgentType;
              execution_time := t' |}
  end.
End Orchestrator.
End Orchestrator.

(* ===================================================================== *)
(** * Properties *)
(* ===================================================================== *)

(** ** Task lifecycle predicates *)

(** The three states of a task record, with what is present in each. *)
Definition lifecycle_ok {R : Type} (t : task R) : Prop :=
  (status t = "processing" ∧ present (result t) = false ∧ present (error t) = false)
  ∨ (status t = "completed" ∧ present (result t) = true ∧ present (error t) = false)
  ∨ (status t = "failed" ∧ present (result t) = false ∧ present (error t) = true).

(** What one transition of an agent may do to a stored task. *)
Definition transition_ok {R : Type} (t t' : task R) : Prop :=
  t' = t
  ∨ (status t = "processing" ∧ (status t' = "completed" ∨ status t' = "failed")).

(** ** Identifiers and waiting jobs *)

Lemma show_N_inj (n m : N) : show_N n = show_N m -> n = m.
Proof.
  unfold show_N. intros H.
  apply DecimalN.Unsigned.to_uint_inj.
  assert (Hn : N.to_uint n <> Decimal.Nil) by (destruct n; [discriminate|apply DecimalPos.Unsigned.to_uint_nonnil]).
  assert (Hm : N.to_uint m <> Decimal.Nil) by (destruct m; [discriminate|apply DecimalPos.Unsigned.to_uint_nonnil]).
  pose proof (NilZero.usu _ Hn) as E1.
  pose proof (NilZero.usu _ Hm) as E2.
  rewrite H in E1. rewrite E1 in E2. congruence.
Qed.

Lemma uuidv4_inj (n m : N) : uuidv4 n = uuidv4 m -> n = m.
Proof.
  unfold uuidv4. intros H. apply show_N_inj.
  by simplify_eq/=.
Qed.

Lemma take_job_Some (taskId : string) (js : list job) (j : job) (rest : list job) :
  take_job taskId js = Some (j, rest) ->
  job_task j = taskId ∧ ∃ l1 l2 : list job, js = (l1 ++ j :: l2)%list ∧ rest = (l1 ++ l2)%list.
Proof.
  revert j rest. induction js as [|j0 js IH]; intros j rest H; [done|].
  simpl in H. destruct (String.eqb taskId (job_task j0)) eqn:E.
  - apply String.eqb_eq in E. injection H as -> ->. split; [done|]. by exists [], rest.
  - destruct (take_job taskId js) as [[j1 r1]|] eqn:T; simplify_eq/=.
    destruct (IH _ _ eq_refl) as (Hj & l1 & l2 & -> & ->).
    split; [done|]. by exists (j0 :: l1), l2.
Qed.

(** ** Agent A: the task store *)

Section AgentA_props.
Context (analyzeText : json -> js_error + list (string * json)).
Context (transformText : json -> json -> js_error + list (string * json)).
Context (validateText : json -> json -> js_error + list (string * json)).


(** Stored tasks are well formed and carry drawn identifiers; every
    waiting job belongs to one task, which is still processing. *)
Definition invA (s : AgentA.state) : Prop :=
  (∀ id t, AgentA.tasks s !! id = Some t ->
     lifecycle_ok t ∧ ∃ n, n < AgentA.uuids s ∧ id = uuidv4 n)
  ∧ NoDup (job_task <$> AgentA.suspended s)
  ∧ (∀ j, j ∈ AgentA.suspended s ->
       ∃ t, AgentA.tasks s !! job_task j = Some t ∧ status t = "processing").

Lemma invA_init : invA AgentA.init.
Proof.
  split; [|split]; simpl.
  - intros id t H. by rewrite lookup_empty in H.
  - constructor.
  - intros j H. by apply elem_of_nil in H.
Qed.

Lemma fresh_uuid (s : AgentA.state) :
  invA s -> AgentA.tasks s !! uuidv4 (AgentA.uuids s) = None.
Proof.
  intros (Ht & _ & _).
  destruct (AgentA.tasks s !! uuidv4 (AgentA.uuids s)) as [t|] eqn:E; [|done].
  destruct (Ht _ _ E) as (_ & n & Hn & Heq).
  apply uuidv4_inj in Heq. lia.
Qed.

Lemma finish_lifecycle (t0 : N) (j : job) (t : task json) :
  lifecycle_ok t -> status t = "processing" ->
  lifecycle_ok (AgentA.finish analyzeText transformText validateText t0 j t)
  ∧ (status (AgentA.finish analyzeText transformText validateText t0 j t) = "completed"
     ∨ status (AgentA.finish analyzeText transformText validateText t0 j t) = "failed").
Proof.
  intros [(_ & Hr & He)|[(Hs & _)|(Hs & _)]] Hp; try congruence.
  unfold AgentA.finish.
  destruct (AgentA.dispatch _ _ _ _ _); simpl.
  - split; [|by right]. right; right. by simpl.
  - split; [|by left]. right; left. by simpl.
Qed.

Lemma invA_rpc (req : rpc_request) (s : AgentA.state) :
  invA s -> invA (fst (AgentA.rpc req s)).
Proof.
  intros Hinv. pose proof (fresh_uuid _ Hinv) as Hfresh.
  destruct Hinv as (Ht & Hnd & Hj).
  unfold AgentA.rpc.
  destruct (negb (is_str (req_jsonrpc req) "2.0")); [done|].
  destruct (negb (includes_str AgentA.supportedMethods (req_method req))); [done|].
  split; [|split]; simpl.
  - intros id t. rewrite lookup_insert. case_decide as Hid.
    + intros [= <-]. split.
      * left. by simpl.
      * exists (AgentA.uuids s). split; [lia|done].
    + intros H. destruct (Ht _ _ H) as (Hok & n & Hn & ->).
      split; [done|]. exists n. split; [lia|done].
  - rewrite fmap_app. simpl. apply NoDup_app. split; [done|]. split.
    + intros x Hx ->%list_elem_of_singleton.
      apply list_elem_of_fmap in Hx as (j & Hjt & Hin).
      destruct (Hj _ Hin) as (t & Hl & _). rewrite <- Hjt in Hl. congruence.
    + apply NoDup_singleton.
  - intros j [Hin|Hin]%elem_of_app.
    + destruct (Hj _ Hin) as (t & Hl & Hs). exists t. split; [|done].
      rewrite lookup_insert_ne; [done|]. intros E. rewrite <- E in Hl. congruence.
    + apply list_elem_of_singleton in Hin as ->. simpl.
      eexists. rewrite lookup_insert_eq. split; [done|]. done.
Qed.

Lemma invA_resume (taskId : string) (s : AgentA.state) :
  invA s -> invA (AgentA.resume analyzeText transformText validateText taskId s).
Proof.
  intros (Ht & Hnd & Hj). unfold AgentA.resume.
  destruct (take_job taskId (AgentA.suspended s)) as [[j rest]|] eqn:T; [|done].
  apply take_job_Some in T as (Hid & l1 & l2 & Hjs & ->).
  rewrite Hjs, fmap_app, fmap_cons in Hnd.
  apply NoDup_app in Hnd as (Hn1 & Hdisj & Hn2).
  apply NoDup_cons in Hn2 as (Hnot2 & Hn2).
  assert (Hnot : ∀ j', j' ∈ (l1 ++ l2)%list -> job_task j' ≠ taskId).
  { intros j' [Hin|Hin]%elem_of_app E.
    - apply (Hdisj (job_task j')); [by apply list_elem_of_fmap_2|].
      rewrite E, <- Hid. apply elem_of_cons. by left.
    - apply Hnot2. rewrite Hid, <- E. by apply list_elem_of_fmap_2. }
  split; [|split]; simpl.
  - intros id t. rewrite lookup_alter. case_decide as Hd.
    + subst id. destruct (AgentA.tasks s !! taskId) as [t0|] eqn:E; [|done].
      intros [= <-]. destruct (Ht _ _ E) as (Hok & Hn). split; [|done].
      destruct (Hj j) as (t1 & Hl & Hs).
      { rewrite Hjs. apply elem_of_app. right. apply elem_of_cons. by left. }
      rewrite Hid, E in Hl. injection Hl as <-.
      by apply finish_lifecycle.
    + apply Ht.
  - rewrite fmap_app. apply NoDup_app. split; [done|]. split; [|done].
    intros x Hx Hx2. apply (Hdisj x Hx). apply elem_of_cons. by right.
  - intros j' Hin. destruct (Hj j') as (t & Hl & Hs).
    { rewrite Hjs. apply elem_of_app in Hin as [Hin|Hin]; apply elem_of_app;
        [by left|right; apply elem_of_cons; by right]. }
    exists t. split; [|done]. rewrite lookup_alter_ne; [done|].
    intros E. by apply (Hnot j' Hin).
Qed.

Lemma invA_step (s : AgentA.state) (e : AgentA.event) :
  invA s -> invA (fst (AgentA.step analyzeText transformText validateText s e)).
Proof.
  intros Hinv. destruct e as [[req|taskId]|taskId|dt]; simpl.
  - pose proof (invA_rpc req s Hinv) as H.
    by destruct (AgentA.rpc req s).
  - done.
  - by apply invA_resume.
  - done.
Qed.

Lemma invA_run (es : list AgentA.event) (s : AgentA.state) :
  invA s -> invA (AgentA.run analyzeText transformText validateText es s).
Proof.
  revert s. induction es as [|e es IH]; intros s Hinv; [done|].
  simpl. apply IH. by apply invA_step.
Qed.

(** One transition moves a stored task at most from processing to a
    terminal state, and never drops it. *)
Lemma stepA_transition (s : AgentA.state) (e : AgentA.event) (id : string)
    (t : task json) :
  invA s -> AgentA.tasks s !! id = Some t ->
  ∃ t', AgentA.tasks (fst (AgentA.step analyzeText transformText validateText s e)) !! id
          = Some t' ∧ transition_ok t t'.
Proof.
  intros Hinv Hl. pose proof (fresh_uuid _ Hinv) as Hfresh.
  destruct Hinv as (Ht & Hnd & Hj).
  destruct e as [[req|taskId]|taskId|dt]; simpl; try (exists t; split; [done|by left]).
  - unfold AgentA.rpc.
    destruct (negb (is_str (req_jsonrpc req) "2.0")); [exists t; split; [done|by left]|].
    destruct (negb (includes_str AgentA.supportedMethods (req_method req)));
      [exists t; split; [done|by left]|].
    simpl. exists t. split; [|by left].
    rewrite lookup_insert_ne; [done|]. intros E. rewrite <- E in Hl. congruence.
  - unfold AgentA.resume.
    destruct (take_job taskId (AgentA.suspended s)) as [[j rest]|] eqn:T;
      [|exists t; split; [done|by left]].
    apply take_job_Some in T as (Hid & l1 & l2 & Hjs & ->). simpl.
    rewrite lookup_alter. case_decide as Hd.
    + subst id. rewrite Hl. simpl. eexists. split; [done|].
      destruct (Hj j) as (t1 & Hl1 & Hs).
      { rewrite Hjs. apply elem_of_app. right. apply elem_of_cons. by left. }
      rewrite Hid, Hl in Hl1. injection Hl1 as <-.
      right. split; [done|].
      apply finish_lifecycle; [|done]. by apply (Ht taskId t).
    + exists t. split; [done|by left].
Qed.
End AgentA_props.

(** ** Asynchronous code that keeps a relation between states *)

Section respects.
Context {S : Type} (R : S -> S -> Prop).
Context (R_refl : ∀ s, R s s) (R_trans : ∀ s1 s2 s3, R s1 s2 -> R s2 s3 -> R s1 s3).

(** Whatever [m] does, and whether it returns or throws, the state it
    leaves is related to the one it found. *)
Definition respects {A : Type} (m : M S A) : Prop :=
  ∀ p, R (self p) (self (snd (runM m p))).

Lemma respects_ret {A} (a : A) : respects (mret a).
Proof. intros p. apply R_refl. Qed.

Lemma respects_bind {A B} (m : M S A) (k : A -> M S B) :
  respects m -> (∀ a, respects (k a)) -> respects (m ≫= k).
Proof.
  intros Hm Hk p. unfold mbind, M_bind. simpl.
  specialize (Hm p). destruct (runM m p) as [[e|a] p']; [done|].
  simpl in Hm. eapply R_trans; [exact Hm|apply Hk].
Qed.

Lemma respects_throw {A} (e : js_error) : respects (throw e : M S A).
Proof. intros p. apply R_refl. Qed.

Lemma respects_try_catch {A} (body : M S A) (handler : js_error -> M S A) :
  respects body -> (∀ e, respects (handler e)) -> respects (try_catch body handler).
Proof.
  intros Hb Hh p. unfold try_catch. simpl.
  specialize (Hb p). destruct (runM body p) as [[e|a] p']; [|done].
  simpl in Hb. eapply R_trans; [exact Hb|apply Hh].
Qed.

Lemma respects_lift {A} (r : js_error + A) : respects (lift r).
Proof. intros p. apply R_refl. Qed.

Lemma respects_date_now : respects date_now.
Proof. intros p. apply R_refl. Qed.

Lemma respects_this : respects this.
Proof. intros p. apply R_refl. Qed.

Lemma respects_update (f : S -> S) : (∀ s, R s (f s)) -> respects (update f).
Proof. intros Hf p. apply Hf. Qed.

Lemma respects_sleep (ms : N) : respects (sleep ms).
Proof. intros p. apply R_refl. Qed.

Lemma respects_settle {A} (c : call) (r : N * net A) : respects (settle c r).
Proof. intros p. unfold settle. simpl. destruct (snd r); apply R_refl. Qed.

Lemma respects_axios_get (w : world) (url : string) (timeout : option N) :
  respects (axios_get w url timeout).
Proof.
  apply respects_bind; [apply respects_date_now|intros t; apply respects_settle].
Qed.

Lemma respects_axios_get_card (w : world) (url : string) (timeout : option N) :
  respects (axios_get_card w url timeout).
Proof.
  apply respects_bind; [apply respects_date_now|intros t; apply respects_settle].
Qed.

Lemma respects_axios_post (w : world) (url : string) (body : rpc_request)
    (timeout : option N) :
  respects (axios_post w url body timeout).
Proof.
  apply respects_bind; [apply respects_date_now|intros t; apply respects_settle].
Qed.

Lemma respects_for_of {A} (xs : list A) (body : A -> M S unit) :
  (∀ x, respects (body x)) -> respects (for_of xs body).
Proof.
  intros Hb. induction xs as [|x xs IH]; simpl.
  - apply respects_ret.
  - apply respects_bind; [apply Hb|intros _; apply IH].
Qed.
End respects.

Create HintDb frame discriminated.

(** The routine cases of a [respects] goal; [frame] holds the facts about
    the relation at hand and the functions already dealt with. *)
Ltac respects_step :=
  first
    [ solve [auto with frame]
    | match goal with
      | |- respects _ (mret _) => apply respects_ret
      | |- respects _ (throw _) => apply respects_throw
      | |- respects _ (lift _) => apply respects_lift
      | |- respects _ date_now => apply respects_date_now
      | |- respects _ this => apply respects_this
      | |- respects _ (sleep _) => apply respects_sleep
      | |- respects _ (axios_get _ _ _) => apply respects_axios_get
      | |- respects _ (axios_get_card _ _ _) => apply respects_axios_get_card
      | |- respects _ (axios_post _ _ _ _) => apply respects_axios_post
      | |- respects _ (update _) => apply respects_update
      | |- respects _ (for_of _ _) => apply respects_for_of
      | |- respects _ (try_catch _ _) => apply respects_try_catch
      | |- respects _ (_ ≫= _) => apply respects_bind
      | |- respects _ (if ?b then _ else _) => destruct b
      | |- respects _ (match ?x with _ => _ end) => destruct x
      | |- respects _ (let _ := _ in _) => cbv zeta
      | |- ∀ s1 s2 s3, ?R s1 s2 -> ?R s2 s3 -> ?R s1 s3 =>
          solve [intros; eauto 2 with frame]
      | |- ∀ _, _ => intros ?
      end ].
Ltac respects_auto := repeat respects_step.

(** ** Agent E: what the handlers leave alone *)

Section AgentE_frame.
Context {Basic Lang : Type}.
Context (analyzeTextBasic : string -> Basic).
Context (languageFallback : string -> Lang).
Context (delegation_rate : nat -> nat -> string).
Context (w : world).

(** The task store and the waiting jobs are kept; identifiers are only
    drawn. *)
Definition keeps_store (s s' : @AgentE.state Basic Lang) : Prop :=
  AgentE.tasks s' = AgentE.tasks s
  ∧ AgentE.suspended s' = AgentE.suspended s
  ∧ AgentE.uuids s <= AgentE.uuids s'.

(** Moreover the port and the two counters are kept. *)
Definition quiet (s s' : @AgentE.state Basic Lang) : Prop :=
  keeps_store s s'
  ∧ AgentE.port s' = AgentE.port s
  ∧ AgentE.delegationCount s' = AgentE.delegationCount s
  ∧ AgentE.fallbackCount s' = AgentE.fallbackCount s.

Lemma keeps_store_refl s : keeps_store s s.
Proof. unfold keeps_store. split_and!; [done|done|lia]. Qed.
Lemma keeps_store_trans s1 s2 s3 :
  keeps_store s1 s2 -> keeps_store s2 s3 -> keeps_store s1 s3.
Proof. unfold keeps_store. intros (?&?&?) (?&?&?). split_and!; [congruence|congruence|lia]. Qed.
Lemma quiet_refl s : quiet s s.
Proof. unfold quiet. split_and!; [apply keeps_store_refl|done..]. Qed.
Lemma quiet_trans s1 s2 s3 : quiet s1 s2 -> quiet s2 s3 -> quiet s1 s3.
Proof.
  unfold quiet. intros (?&?&?&?) (?&?&?&?).
  split_and!; [by eapply keeps_store_trans|congruence..].
Qed.
Lemma quiet_keeps_store s s' : quiet s s' -> keeps_store s s'.
Proof. by intros (?&_). Qed.

Lemma respects_quiet_keeps_store {A} (m : M AgentE.state A) :
  respects quiet m -> respects keeps_store m.
Proof. intros H p. apply quiet_keeps_store, H. Qed.

#[local] Hint Resolve keeps_store_refl keeps_store_trans quiet_refl quiet_trans : frame.

Lemma quiet_set_discoveredAgents f s : quiet s (AgentE.set_discoveredAgents f s).
Proof. unfold quiet, keeps_store. simpl. split_and!; (done || lia). Qed.
Lemma quiet_set_lastDiscovery t s : quiet s (AgentE.set_lastDiscovery t s).
Proof. unfold quiet, keeps_store. simpl. split_and!; (done || lia). Qed.
Lemma quiet_set_uuids s : quiet s (AgentE.set_uuids (AgentE.uuids s + 1) s).
Proof. unfold quiet, keeps_store. simpl. split_and!; (done || lia). Qed.
Lemma keeps_store_incr_delegationCount s : keeps_store s (AgentE.incr_delegationCount s).
Proof. unfold keeps_store. simpl. split_and!; (done || lia). Qed.
Lemma keeps_store_incr_fallbackCount s : keeps_store s (AgentE.incr_fallbackCount s).
Proof. unfold keeps_store. simpl. split_and!; (done || lia). Qed.

#[local] Hint Resolve quiet_set_discoveredAgents quiet_set_lastDiscovery
  keeps_store_incr_delegationCount keeps_store_incr_fallbackCount : frame.

Lemma quiet_draw_uuid : respects quiet (@AgentE.draw_uuid Basic Lang).
Proof.
  intros p. unfold AgentE.draw_uuid. simpl. apply quiet_set_uuids.
Qed.

Lemma quiet_discover_port (p : N) : respects quiet (@AgentE.discover_port Basic Lang w p).
Proof. unfold AgentE.discover_port. respects_auto. Qed.

Lemma quiet_performDiscovery : respects quiet (@AgentE.performDiscovery Basic Lang w).
Proof.
  unfold AgentE.performDiscovery. pose proof quiet_discover_port. respects_auto.
Qed.

Lemma quiet_poll fuel url taskId start maxWait :
  respects quiet (@AgentE.poll Basic Lang w fuel url taskId start maxWait).
Proof.
  induction fuel as [|fuel IH]; cbn [AgentE.poll]; respects_auto.
Qed.

Lemma quiet_waitForTaskCompletion url taskId maxWait :
  respects quiet (@AgentE.waitForTaskCompletion Basic Lang w url taskId maxWait).
Proof.
  unfold AgentE.waitForTaskCompletion. pose proof quiet_poll. respects_auto.
Qed.

Lemma quiet_delegateToAgent agent method params :
  respects quiet (@AgentE.delegateToAgent Basic Lang w agent method params).
Proof.
  unfold AgentE.delegateToAgent.
  pose proof quiet_draw_uuid. pose proof quiet_waitForTaskCompletion. respects_auto.
Qed.

Lemma quiet_discover_if_empty : respects quiet (@AgentE.discover_if_empty Basic Lang w).
Proof.
  unfold AgentE.discover_if_empty. pose proof quiet_performDiscovery. respects_auto.
Qed.

#[local] Hint Resolve respects_quiet_keeps_store quiet_performDiscovery
  quiet_delegateToAgent quiet_discover_if_empty : frame.

Lemma keeps_analyse_sentiment text result :
  respects keeps_store (@AgentE.analyse_sentiment Basic Lang w text result).
Proof. unfold AgentE.analyse_sentiment. respects_auto. Qed.

Lemma keeps_analyse_language text result :
  respects keeps_store (AgentE.analyse_language languageFallback w text result).
Proof. unfold AgentE.analyse_language. respects_auto. Qed.

Lemma keeps_intelligentTextAnalysis params :
  respects keeps_store
    (AgentE.intelligentTextAnalysis analyzeTextBasic languageFallback w params).
Proof.
  unfold AgentE.intelligentTextAnalysis.
  pose proof keeps_analyse_sentiment. pose proof keeps_analyse_language.
  respects_auto.
Qed.

Lemma keeps_process_sentiment text result :
  respects keeps_store (@AgentE.process_sentiment Basic Lang w text result).
Proof. unfold AgentE.process_sentiment. respects_auto. Qed.

Lemma keeps_process_language text result :
  respects keeps_store (AgentE.process_language languageFallback w text result).
Proof. unfold AgentE.process_language. respects_auto. Qed.

Lemma keeps_process_operation text result operation :
  respects keeps_store
    (AgentE.process_operation analyzeTextBasic languageFallback w text result operation).
Proof.
  unfold AgentE.process_operation.
  pose proof keeps_process_sentiment. pose proof keeps_process_language.
  respects_auto.
Qed.

Lemma keeps_process_operations text operations : ∀ result,
  respects keeps_store
    (AgentE.process_operations analyzeTextBasic languageFallback w text result operations).
Proof.
  induction operations as [|op ops IH]; intros result;
    cbn [AgentE.process_operations]; pose proof keeps_process_operation;
    respects_auto.
Qed.

Lemma keeps_smartTextProcessing params :
  respects keeps_store
    (AgentE.smartTextProcessing analyzeTextBasic languageFallback w params).
Proof.
  unfold AgentE.smartTextProcessing. pose proof keeps_process_operations.
  respects_auto.
Qed.

Lemma keeps_dispatch method params :
  respects keeps_store
    (AgentE.dispatch analyzeTextBasic languageFallback delegation_rate w method params).
Proof.
  unfold AgentE.dispatch, AgentE.getOrchestratorStatus, AgentE.forceDiscovery.
  pose proof keeps_intelligentTextAnalysis. pose proof keeps_smartTextProcessing.
  respects_auto.
Qed.

(** [processTask] ends the task it was started for, once, and touches no
    other. *)
Lemma processTask_spec (taskId : string) (method params : json)
    (p : proc (@AgentE.state Basic Lang)) :
  ∃ f : task AgentE.result_t -> task AgentE.result_t,
    (∀ k, lifecycle_ok k -> status k = "processing" ->
          lifecycle_ok (f k) ∧ (status (f k) = "completed" ∨ status (f k) = "failed"))
    ∧ AgentE.tasks (self (snd (runM (AgentE.processTask analyzeTextBasic
                 languageFallback delegation_rate w taskId method params) p)))
      = alter f taskId (AgentE.tasks (self p))
    ∧ AgentE.suspended (self (snd (runM (AgentE.processTask analyzeTextBasic
                 languageFallback delegation_rate w taskId method params) p)))
      = AgentE.suspended (self p)
    ∧ AgentE.uuids (self p)
      <= AgentE.uuids (self (snd (runM (AgentE.processTask analyzeTextBasic
                 languageFallback delegation_rate w taskId method params) p))).
Proof.
  unfold AgentE.processTask, try_catch. simpl.
  pose proof (keeps_dispatch method params p) as Hk.
  destruct (runM (AgentE.dispatch _ _ _ _ _ _) p) as [[e|r] p1]; simpl in *.
  - exists (AgentE.fail e (now p1)). destruct Hk as (-> & -> & Hu).
    split; [|done].
    intros k [(_ & Hr & He)|[(Hs & _)|(Hs & _)]] Hp; try congruence.
    split; [|by right]. right; right. by simpl.
  - exists (AgentE.complete r (now p1)). destruct Hk as (-> & -> & Hu).
    split; [|done].
    intros k [(_ & Hr & He)|[(Hs & _)|(Hs & _)]] Hp; try congruence.
    split; [|by left]. right; left. by simpl.
Qed.
End AgentE_frame.

(** ** Agent E: the task store *)

Section AgentE_props.
Context {Basic Lang : Type}.
Context (analyzeTextBasic : string -> Basic).
Context (languageFallback : string -> Lang).
Context (delegation_rate : nat -> nat -> string).
Context (w : world).

Definition invE (s : @AgentE.state Basic Lang) : Prop :=
  (∀ id t, AgentE.tasks s !! id = Some t ->
     lifecycle_ok t ∧ ∃ n, n < AgentE.uuids s ∧ id = uuidv4 n)
  ∧ NoDup (job_task <$> AgentE.suspended s)
  ∧ (∀ j, j ∈ AgentE.suspended s ->
       ∃ t, AgentE.tasks s !! job_task j = Some t ∧ status t = "processing").

Lemma invE_init (port : N) : invE (AgentE.init port).
Proof.
  split; [|split]; simpl.
  - intros id t H. by rewrite lookup_empty in H.
  - constructor.
  - intros j H. by apply elem_of_nil in H.
Qed.

Lemma fresh_uuidE (s : AgentE.state) :
  invE s -> AgentE.tasks s !! uuidv4 (AgentE.uuids s) = None.
Proof.
  intros (Ht & _ & _).
  destruct (AgentE.tasks s !! uuidv4 (AgentE.uuids s)) as [t|] eqn:E; [|done].
  destruct (Ht _ _ E) as (_ & n & Hn & Heq).
  apply uuidv4_inj in Heq. lia.
Qed.

(** A state that differs from a good one by the store of the process alone
    is judged by that store. *)
Lemma invE_ext (s s' : AgentE.state) :
  AgentE.tasks s' = AgentE.tasks s -> AgentE.suspended s' = AgentE.suspended s ->
  AgentE.uuids s <= AgentE.uuids s' -> invE s -> invE s'.
Proof.
  intros Ht Hs Hu (H1 & H2 & H3). unfold invE. rewrite Ht, Hs.
  split; [|done]. intros id t Hl. destruct (H1 _ _ Hl) as (Hok & n & Hn & ->).
  split; [done|]. exists n. split; [lia|done].
Qed.

Lemma invE_performDiscovery (p : proc AgentE.state) :
  invE (self p) -> invE (self (snd (runM (AgentE.performDiscovery w) p))).
Proof.
  intros H. destruct (quiet_performDiscovery w p) as ((Ht & Hs & Hu) & _).
  by eapply invE_ext.
Qed.

Lemma invE_rpc (req : rpc_request) (p : proc AgentE.state) :
  invE (self p) ->
  invE (self (fst (AgentE.rpc analyzeTextBasic languageFallback delegation_rate w req p))).
Proof.
  intros Hinv. pose proof (fresh_uuidE _ Hinv) as Hfresh.
  destruct Hinv as (Ht & Hnd & Hj).
  unfold AgentE.rpc.
  destruct (negb (is_str (req_jsonrpc req) "2.0")); [done|].
  destruct (negb (truthy (req_method req))); [done|].
  cbv zeta.
  set (taskId := uuidv4 (AgentE.uuids (self p))) in *.
  set (k := {| task_id := taskId |}).
  assert (Hk : lifecycle_ok k ∧ status k = "processing") by (split; [left|]; done).
  assert (HtaskId : taskId = uuidv4 (AgentE.uuids (self p))) by done.
  clearbody k. clearbody taskId.
  set (s1 := AgentE.set_uuids _ _).
  assert (Hs1 : AgentE.tasks s1 = <[taskId:=k]> (AgentE.tasks (self p))
                ∧ AgentE.suspended s1 = AgentE.suspended (self p)
                ∧ AgentE.uuids s1 = AgentE.uuids (self p) + 1) by done.
  clearbody s1. destruct Hs1 as (Hs1t & Hs1s & Hs1u). destruct Hk as (Hk1 & Hk2).
  assert (H1 : ∀ f, (∀ k0, lifecycle_ok k0 -> status k0 = "processing" ->
                           lifecycle_ok (f k0)) ->
            ∀ id t, alter f taskId (AgentE.tasks s1) !! id = Some t ->
              lifecycle_ok t ∧ ∃ n, n < AgentE.uuids (self p) + 1 ∧ id = uuidv4 n).
  { intros f Hf id t. rewrite lookup_alter, Hs1t.
    case_decide as Hd.
    - subst id. rewrite lookup_insert_eq. simpl. intros [= <-]. split.
      + by apply Hf.
      + exists (AgentE.uuids (self p)). split; [lia|done].
    - rewrite lookup_insert_ne by done. intros H.
      destruct (Ht _ _ H) as (Hok & n & Hn & ->).
      split; [done|]. exists n. split; [lia|done]. }
  destruct (includes_str AgentE.knownMethods (req_method req)); simpl.
  - split; [|split]; simpl; rewrite ?Hs1t, ?Hs1s, ?Hs1u.
    + intros id t H. apply (H1 (fun x => x)); [done|].
      rewrite lookup_alter, Hs1t. case_decide; [subst id; by rewrite H|done].
    + rewrite fmap_app. simpl. apply NoDup_app. split; [done|]. split.
      * intros x Hx ->%list_elem_of_singleton.
        apply list_elem_of_fmap in Hx as (j & Hjt & Hin).
        destruct (Hj _ Hin) as (t & Hl & _). rewrite <- Hjt in Hl. congruence.
      * apply NoDup_singleton.
    + intros j [Hin|Hin]%elem_of_app.
      * destruct (Hj _ Hin) as (t & Hl & Hs). exists t. split; [|done].
        rewrite lookup_insert_ne; [done|]. intros E. rewrite <- E in Hl. congruence.
      * apply list_elem_of_singleton in Hin as ->. simpl.
        eexists. rewrite lookup_insert_eq. split; done.
  - destruct (processTask_spec analyzeTextBasic languageFallback delegation_rate w
                taskId (req_method req) (req_params req) (with_self (λ _, s1) p))
      as (f & Hf & Htasks & Hsusp & Hu).
    simpl in Htasks, Hsusp, Hu.
    split; [|split].
    + rewrite Htasks. intros id t H.
      destruct (H1 f (λ k0 a b, proj1 (Hf k0 a b)) id t H) as (Hok & n & Hn & ->).
      split; [done|]. exists n. split; [|done]. lia.
    + rewrite Hsusp, Hs1s. done.
    + rewrite Hsusp, Htasks, Hs1s, Hs1t. intros j Hin.
      destruct (Hj _ Hin) as (t & Hl & Hs). exists t. split; [|done].
      assert (job_task j ≠ taskId).
      { intros E. rewrite E in Hl. congruence. }
      rewrite lookup_alter_ne, lookup_insert_ne by done. done.
Qed.

Lemma invE_resume (taskId : string) (p : proc AgentE.state) :
  invE (self p) ->
  invE (self (AgentE.resume analyzeTextBasic languageFallback delegation_rate w taskId p)).
Proof.
  intros (Ht & Hnd & Hj). unfold AgentE.resume.
  destruct (take_job taskId (AgentE.suspended (self p))) as [[j rest]|] eqn:T; [|done].
  apply take_job_Some in T as (Hid & l1 & l2 & Hjs & ->).
  destruct (processTask_spec analyzeTextBasic languageFallback delegation_rate w
              taskId (job_method j) (job_params j)
              (with_self (AgentE.set_suspended (l1 ++ l2)) p))
    as (f & Hf & Htasks & Hsusp & Hu).
  cbn [with_self self AgentE.set_suspended AgentE.tasks AgentE.suspended AgentE.uuids]
    in Htasks, Hsusp, Hu.
  rewrite Hjs, fmap_app, fmap_cons in Hnd.
  apply NoDup_app in Hnd as (Hn1 & Hdisj & Hn2).
  apply NoDup_cons in Hn2 as (Hnot2 & Hn2).
  assert (Hnot : ∀ j', j' ∈ (l1 ++ l2)%list -> job_task j' ≠ taskId).
  { intros j' [Hin|Hin]%elem_of_app E.
    - apply (Hdisj (job_task j')); [by apply list_elem_of_fmap_2|].
      rewrite E, <- Hid. apply elem_of_cons. by left.
    - apply Hnot2. rewrite Hid, <- E. by apply list_elem_of_fmap_2. }
  split; [|split].
  - rewrite Htasks. intros id t. rewrite lookup_alter. case_decide as Hd.
    + subst id. destruct (AgentE.tasks (self p) !! taskId) as [t0|] eqn:E; [|done].
      intros [= <-]. destruct (Ht _ _ E) as (Hok & n & Hn & Heq). split.
      * destruct (Hj j) as (t1 & Hl & Hs).
        { rewrite Hjs. apply elem_of_app. right. apply elem_of_cons. by left. }
        rewrite Hid, E in Hl. injection Hl as <-. by apply Hf.
      * exists n. split; [lia|done].
    + intros H. destruct (Ht _ _ H) as (Hok & n & Hn & Heq).
      split; [done|]. exists n. split; [lia|done].
  - rewrite Hsusp, fmap_app. apply NoDup_app. split; [done|]. split; [|done].
    intros x Hx Hx2. apply (Hdisj x Hx). apply elem_of_cons. by right.
  - rewrite Hsusp, Htasks. intros j' Hin. destruct (Hj j') as (t & Hl & Hs).
    { rewrite Hjs. apply elem_of_app in Hin as [Hin|Hin]; apply elem_of_app;
        [by left|right; apply elem_of_cons; by right]. }
    exists t. split; [|done]. rewrite lookup_alter_ne; [done|].
    intros E. by apply (Hnot j' Hin).
Qed.

Lemma invE_step (p : proc AgentE.state) (e : AgentE.event) :
  invE (self p) ->
  invE (self (fst (AgentE.step analyzeTextBasic languageFallback delegation_rate w p e))).
Proof.
  intros Hinv. destruct e as [[req|taskId]|taskId| |dt]; simpl.
  - pose proof (invE_rpc req p Hinv) as H.
    by destruct (AgentE.rpc _ _ _ _ req p).
  - done.
  - by apply invE_resume.
  - by apply invE_performDiscovery.
  - done.
Qed.

Lemma invE_run (es : list AgentE.event) (p : proc AgentE.state) :
  invE (self p) ->
  invE (self (AgentE.run analyzeTextBasic languageFallback delegation_rate w es p)).
Proof.
  revert p. induction es as [|e es IH]; intros p Hinv; [done|].
  simpl. apply IH. by apply invE_step.
Qed.

Lemma stepE_transition (p : proc AgentE.state) (e : AgentE.event) (id : string)
    (t : task AgentE.result_t) :
  invE (self p) -> AgentE.tasks (self p) !! id = Some t ->
  ∃ t', AgentE.tasks (self (fst (AgentE.step analyzeTextBasic languageFallback
                                   delegation_rate w p e))) !! id = Some t'
        ∧ transition_ok t t'.
Proof.
  intros Hinv Hl. pose proof (fresh_uuidE _ Hinv) as Hfresh.
  destruct Hinv as (Ht & Hnd & Hj).
  assert (Hne : id ≠ uuidv4 (AgentE.uuids (self p))) by (intros ->; congruence).
  destruct e as [[req|taskId]|taskId| |dt]; simpl; try (exists t; split; [done|by left]).
  - unfold AgentE.rpc.
    destruct (negb (is_str (req_jsonrpc req) "2.0")); [exists t; split; [done|by left]|].
    destruct (negb (truthy (req_method req))); [exists t; split; [done|by left]|].
    cbv zeta. exists t. split; [|by left].
    destruct (includes_str AgentE.knownMethods (req_method req));
      cbn [fst snd self with_self AgentE.set_suspended AgentE.set_uuids
           AgentE.set_tasks AgentE.tasks].
    + by rewrite lookup_insert_ne.
    + match goal with
      | |- context [runM (AgentE.processTask _ _ _ _ ?i ?m ?a) ?q] =>
          destruct (processTask_spec analyzeTextBasic languageFallback delegation_rate w
                      i m a q) as (f & _ & Htasks & _)
      end.
      cbn [with_self self AgentE.set_suspended AgentE.set_uuids AgentE.set_tasks
             AgentE.tasks] in Htasks.
      rewrite Htasks.
      rewrite lookup_alter_ne, lookup_insert_ne by done. done.
  - unfold AgentE.resume.
    destruct (take_job taskId (AgentE.suspended (self p))) as [[j rest]|] eqn:T;
      [|exists t; split; [done|by left]].
    apply take_job_Some in T as (Hid & l1 & l2 & Hjs & ->).
    destruct (processTask_spec analyzeTextBasic languageFallback delegation_rate w
                taskId (job_method j) (job_params j)
                (with_self (AgentE.set_suspended (l1 ++ l2)) p))
      as (f & Hf & Htasks & _).
    cbn [with_self self AgentE.set_suspended AgentE.tasks] in Htasks.
    rewrite Htasks, lookup_alter. case_decide as Hd.
    + subst id. rewrite Hl. simpl. eexists. split; [done|].
      destruct (Hj j) as (t1 & Hl1 & Hs).
      { rewrite Hjs. apply elem_of_app. right. apply elem_of_cons. by left. }
      rewrite Hid, Hl in Hl1. injection Hl1 as <-.
      right. split; [done|]. apply Hf; [|done]. by apply (Ht taskId t).
    + exists t. split; [done|by left].
  - destruct (quiet_performDiscovery w p) as ((Htasks & _) & _).
    simpl in Htasks. rewrite Htasks. exists t. split; [done|by left].
Qed.
End AgentE_props.

(* ===================================================================== *)
(** * The claims *)
(* ===================================================================== *)

(** What a reader of [GET /task/:taskId] may see. *)
Definition observed_ok {R : Type} (r : http_response R) : Prop :=
  match http_body_of r with
  | BodyTask t => lifecycle_ok t
  | _ => True
  end.

(** Agent A answers an unknown method of a well-formed envelope with HTTP
    400 and code -32601, and stores nothing. *)
Lemma agentA_rejects_unknown_method (req : rpc_request) (s : AgentA.state) :
  is_str (req_jsonrpc req) "2.0" = true ->
  includes_str AgentA.supportedMethods (req_method req) = false ->
  AgentA.rpc req s
  = (s, Response 400 (BodyRpc (RpcError (-32601)
          ("Method not found: " ++ js_String (req_method req)) None (req_id req)))).
Proof. intros H1 H2. unfold AgentA.rpc. by rewrite H1, H2. Qed.

(** C1 (the code departs from the claim): agent E has no list of supported
    methods.  The envelope [{jsonrpc: "2.0", method: "nope", params: {}, id: 1}]
    is answered with HTTP 200 and an accepted task, and a task record is stored
    (already failed with "Unknown method: nope"). *)
Theorem agentE_accepts_unknown_method :
  ∀ (Basic Lang : Type) (analyzeTextBasic : string -> Basic)
    (languageFallback : string -> Lang) (delegation_rate : nat -> nat -> string)
    (w : world),
    let req := {| req_jsonrpc := JStr "2.0"; req_method := JStr "nope";
                  req_params := JObj []; req_id := JNum 1 |} in
    let out := AgentE.rpc analyzeTextBasic languageFallback delegation_rate w req
                 (Proc 0 (AgentE.init 4005) []) in
    snd out = Response 200 (BodyRpc (RpcResult "uuid-0" "accepted"
                                       "Task processing started" (JNum 1)))
    ∧ (λ t, (status t, error t)) <$> AgentE.tasks (self (fst out)) !! "uuid-0"
      = Some ("failed", Val "Unknown method: nope").
Proof. intros. split; vm_compute; reflexivity. Qed.

(** C7: in every reachable state of agent A and of agent E, what a reader of
    the task-status endpoint gets is a task that is processing with neither
    result nor error, completed with a result and no error, or failed with an
    error and no result; and one transition of the agent leaves a stored task
    as it is or moves it from processing to completed or failed (so a terminal
    task never changes again). *)
Theorem task_lifecycle :
  (∀ analyzeText transformText validateText (es : list AgentA.event) (id : string),
     let s := AgentA.run analyzeText transformText validateText es AgentA.init in
     observed_ok (AgentA.get_task id s)
     ∧ ∀ (e : AgentA.event) (t : task json),
         AgentA.tasks s !! id = Some t ->
         ∃ t', AgentA.tasks (fst (AgentA.step analyzeText transformText validateText s e))
                 !! id = Some t'
               ∧ transition_ok t t')
  ∧ (∀ (Basic Lang : Type) (analyzeTextBasic : string -> Basic)
       (languageFallback : string -> Lang) (delegation_rate : nat -> nat -> string)
       (w : world) (port t0 : N) (es : list AgentE.event) (id : string),
       let p := AgentE.run analyzeTextBasic languageFallback delegation_rate w es
                  (Proc t0 (AgentE.init port) []) in
       observed_ok (AgentE.get_task id (self p))
       ∧ ∀ (e : AgentE.event) (t : task AgentE.result_t),
           AgentE.tasks (self p) !! id = Some t ->
           ∃ t', AgentE.tasks (self (fst (AgentE.step analyzeTextBasic languageFallback
                                            delegation_rate w p e))) !! id = Some t'
                 ∧ transition_ok t t').
Proof.
  split.
  - intros analyzeText transformText validateText es id s.
    assert (Hinv : invA s) by apply invA_run, invA_init.
    split.
    + unfold observed_ok, AgentA.get_task.
      destruct (AgentA.tasks s !! id) as [t|] eqn:E; [|done].
      simpl. by apply Hinv in E as (? & _).
    + intros e t Hl. by apply stepA_transition.
  - intros Basic Lang analyzeTextBasic languageFallback delegation_rate w port t0 es id p.
    assert (Hinv : invE (self p)) by apply invE_run, invE_init.
    split.
    + unfold observed_ok, AgentE.get_task.
      destruct (AgentE.tasks (self p) !! id) as [t|] eqn:E; [|done].
      simpl. by apply Hinv in E as (? & _).
    + intros e t Hl. by apply stepE_transition.
Qed.

(** Stored tasks stay stored. *)
Lemma runA_keeps_task analyzeText transformText validateText
    (es : list AgentA.event) (s : AgentA.state) (id : string) :
  invA s -> is_Some (AgentA.tasks s !! id) ->
  is_Some (AgentA.tasks (AgentA.run analyzeText transformText validateText es s) !! id).
Proof.
  revert s. induction es as [|e es IH]; intros s Hinv [t Hl]; [by exists t|].
  simpl. apply IH; [by apply invA_step|].
  destruct (stepA_transition analyzeText transformText validateText s e id t Hinv Hl)
    as (t' & Hl' & _).
  by exists t'.
Qed.

Lemma runE_keeps_task {Basic Lang : Type} (analyzeTextBasic : string -> Basic)
    (languageFallback : string -> Lang) (delegation_rate : nat -> nat -> string)
    (w : world) (es : list AgentE.event) (p : proc AgentE.state) (id : string) :
  invE (self p) -> is_Some (AgentE.tasks (self p) !! id) ->
  is_Some (AgentE.tasks (self (AgentE.run analyzeTextBasic languageFallback
                                 delegation_rate w es p)) !! id).
Proof.
  revert p. induction es as [|e es IH]; intros p Hinv [t Hl]; [by exists t|].
  simpl. apply IH; [by apply invE_step|].
  destruct (stepE_transition analyzeTextBasic languageFallback delegation_rate w
              p e id t Hinv Hl) as (t' & Hl' & _).
  by exists t'.
Qed.

(** The task named by an acceptance response is in the store the handler
    leaves behind. *)
Lemma agentA_accept_stores (req : rpc_request) (s s' : AgentA.state)
    (taskId st msg : string) (id : json) (code : Z) :
  AgentA.rpc req s = (s', Response code (BodyRpc (RpcResult taskId st msg id))) ->
  is_Some (AgentA.tasks s' !! taskId).
Proof.
  unfold AgentA.rpc.
  destruct (negb (is_str (req_jsonrpc req) "2.0")); [done|].
  destruct (negb (includes_str AgentA.supportedMethods (req_method req))); [done|].
  intros [= <- _ <- _ _ _]. simpl. rewrite lookup_insert_eq. by eexists.
Qed.

Lemma agentE_accept_stores {Basic Lang : Type} (analyzeTextBasic : string -> Basic)
    (languageFallback : string -> Lang) (delegation_rate : nat -> nat -> string)
    (w : world) (req : rpc_request) (p p' : proc AgentE.state)
    (taskId st msg : string) (id : json) (code : Z) :
  AgentE.rpc analyzeTextBasic languageFallback delegation_rate w req p
  = (p', Response code (BodyRpc (RpcResult taskId st msg id))) ->
  is_Some (AgentE.tasks (self p') !! taskId).
Proof.
  unfold AgentE.rpc.
  destruct (negb (is_str (req_jsonrpc req) "2.0")); [done|].
  destruct (negb (truthy (req_method req))); [done|].
  cbv zeta.
  destruct (includes_str AgentE.knownMethods (req_method req)).
  - intros [= <- _ <- _ _ _]. simpl. rewrite lookup_insert_eq. by eexists.
  - match goal with
    | |- context [runM (AgentE.processTask _ _ _ _ ?i ?m ?a) ?q] =>
        destruct (processTask_spec analyzeTextBasic languageFallback delegation_rate w
                    i m a q) as (f & _ & Htasks & _);
        cbn [with_self self AgentE.set_suspended AgentE.set_uuids AgentE.set_tasks
             AgentE.tasks] in Htasks;
        revert Htasks;
        generalize (runM (AgentE.processTask analyzeTextBasic languageFallback
                            delegation_rate w i m a) q)
    end.
    intros out Htasks [= <- _ <- _ _ _].
    rewrite Htasks, lookup_alter_eq, lookup_insert_eq. by eexists.
Qed.

(** C10: when agent A or agent E answers a request with an acceptance, the
    task it names is already in the task store, and whatever the agent does
    afterwards a status query for that task is answered with HTTP 200 and the
    task record, never with "Task not found". *)
Theorem accepted_task_is_found :
  (∀ analyzeText transformText validateText (es es' : list AgentA.event)
     (req : rpc_request) (s' : AgentA.state) (taskId st msg : string) (id : json)
     (code : Z),
     AgentA.rpc req (AgentA.run analyzeText transformText validateText es AgentA.init)
     = (s', Response code (BodyRpc (RpcResult taskId st msg id))) ->
     ∃ t, AgentA.get_task taskId
            (AgentA.run analyzeText transformText validateText es' s')
          = Response 200 (BodyTask t))
  ∧ (∀ (Basic Lang : Type) (analyzeTextBasic : string -> Basic)
       (languageFallback : string -> Lang) (delegation_rate : nat -> nat -> string)
       (w : world) (port t0 : N) (es es' : list AgentE.event)
       (req : rpc_request) (p' : proc AgentE.state) (taskId st msg : string)
       (id : json) (code : Z),
       AgentE.rpc analyzeTextBasic languageFallback delegation_rate w req
         (AgentE.run analyzeTextBasic languageFallback delegation_rate w es
            (Proc t0 (AgentE.init port) []))
       = (p', Response code (BodyRpc (RpcResult taskId st msg id))) ->
       ∃ t, AgentE.get_task taskId
              (self (AgentE.run analyzeTextBasic languageFallback delegation_rate w es' p'))
            = Response 200 (BodyTask t)).
Proof.
  split.
  - intros analyzeText transformText validateText es es' req s' taskId st msg id code H.
    set (s := AgentA.run _ _ _ es _) in H.
    assert (Hinv : invA s) by apply invA_run, invA_init.
    assert (Hinv' : invA s').
    { pose proof (invA_rpc req s Hinv) as Hr. by rewrite H in Hr. }
    pose proof (agentA_accept_stores _ _ _ _ _ _ _ _ H) as Hs.
    destruct (runA_keeps_task analyzeText transformText validateText es' s' taskId
                Hinv' Hs) as [t Ht].
    exists t. unfold AgentA.get_task. by rewrite Ht.
  - intros Basic Lang analyzeTextBasic languageFallback delegation_rate w port t0
      es es' req p' taskId st msg id code H.
    set (p := AgentE.run _ _ _ _ es _) in H.
    assert (Hinv : invE (self p)) by apply invE_run, invE_init.
    assert (Hinv' : invE (self p')).
    { pose proof (invE_rpc analyzeTextBasic languageFallback delegation_rate w
                    req p Hinv) as Hr. by rewrite H in Hr. }
    pose proof (agentE_accept_stores _ _ _ _ _ _ _ _ _ _ _ _ H) as Hs.
    destruct (runE_keeps_task analyzeTextBasic languageFallback delegation_rate w
                es' p' taskId Hinv' Hs) as [t Ht].
    exists t. unfold AgentE.get_task. by rewrite Ht.
Qed.

(** A text function for concrete runs: it echoes its argument. *)
Definition echo (v : json) : js_error + list (string * json) := inr [("text", v)].
Definition echo2 (v _ : json) : js_error + list (string * json) := inr [("text", v)].

Definition sample_request : rpc_request :=
  {| req_jsonrpc := JStr "2.0"; req_method := JStr "text_analysis";
     req_params := JObj [("text", JStr "hi")]; req_id := JStr "test-123" |}.

Definition sample_task : task json :=
  {| task_id := "uuid-0"; status := "processing";
     task_method := JStr "text_analysis"; task_params := JObj [("text", JStr "hi")];
     created_at := 0; agent := Some "agent-a"; result := Missing; error := Missing;
     completed_at := None; failed_at := None |}.

(** C7 at a concrete run of agent A: the task accepted for [sample_request]
    is processing, and the firing of its timer moves it on. *)
Lemma task_lifecycle_witness :
  ∃ t', AgentA.tasks
          (fst (AgentA.step echo echo2 echo2
                  (AgentA.run echo echo2 echo2
                     [AgentA.Request (POST_rpc sample_request)] AgentA.init)
                  (AgentA.Resume "uuid-0")))
          !! "uuid-0" = Some t'
        ∧ transition_ok sample_task t'.
Proof.
  apply (proj2 (proj1 task_lifecycle echo echo2 echo2
                  [AgentA.Request (POST_rpc sample_request)] "uuid-0")
           (AgentA.Resume "uuid-0") sample_task).
  vm_compute. reflexivity.
Defined.

(** C10 at a concrete run of agent A: [sample_request] is accepted as task
    "uuid-0", which is found after its timer has fired. *)
Lemma accepted_task_is_found_witness :
  ∃ t, AgentA.get_task "uuid-0"
         (AgentA.run echo echo2 echo2 [AgentA.Resume "uuid-0"]
            (fst (AgentA.rpc sample_request AgentA.init)))
       = Response 200 (BodyTask t).
Proof.
  apply (proj1 accepted_task_is_found echo echo2 echo2 [] [AgentA.Resume "uuid-0"]
           sample_request (fst (AgentA.rpc sample_request AgentA.init))
           "uuid-0" "accepted" "Task text_analysis accepted for processing"
           (JStr "test-123") 200%Z).
  vm_compute. reflexivity.
Defined.

(** ** The supervisor *)

(** Is the agent of [agentId] recorded as running? *)
Definition is_running (agentId : string) (s : Orchestrator.state) : bool :=
  match JsMap.get String.eqb agentId (Orchestrator.agents s) with
  | Some a => String.eqb (Orchestrator.a_status a) "running"
  | None => false
  end.

Definition is_configured (agentId : string) : bool :=
  existsb (fun c => String.eqb (Orchestrator.cfg_id c) agentId) Orchestrator.agentConfigs.

(** [startAgent] never returns: it throws before it spawns anything, and
    leaves the process as it found it. *)
Lemma startAgent_run (w : world) (dirname agentId : string)
    (p : proc Orchestrator.state) :
  runM (Orchestrator.startAgent w dirname agentId) p
  = (inl (Error
            (if negb (is_configured agentId)
             then "Agent configuration not found: " ++ agentId
             else if is_running agentId (self p)
             then "Agent " ++ agentId ++ " is already running"
             else "Cannot access 'process' before initialization")),
     p).
Proof.
  unfold Orchestrator.startAgent, is_configured, is_running.
  cbn [mbind M_bind runM this].
  destruct (List.find _ Orchestrator.agentConfigs) as [config|] eqn:F.
  - assert (existsb (λ c, String.eqb (Orchestrator.cfg_id c) agentId)
              Orchestrator.agentConfigs = true) as ->.
    { apply existsb_exists. exists config. apply find_some in F. done. }
    cbn [negb].
    destruct (JsMap.get String.eqb agentId (Orchestrator.agents (self p))) as [a|];
      [destruct (String.eqb (Orchestrator.a_status a) "running")|]; reflexivity.
  - assert (existsb (λ c, String.eqb (Orchestrator.cfg_id c) agentId)
              Orchestrator.agentConfigs = false) as ->.
    { apply not_true_is_false. intros (c & Hin & Hc)%existsb_exists.
      eapply find_none in F; [|exact Hin]. simpl in F. congruence. }
    reflexivity.
Qed.

(** C3 (the code departs from the claim): for every agent id, started on
    any supervisor state, [startAgent] throws and changes nothing.  For a
    configured agent that is not running, the initializer of
    [const process = spawn(..., { env: { ...process.env, ... } })] reads the
    constant it declares: the call throws a ReferenceError before anything is
    spawned, no agent is recorded, and no status 'running' is returned. *)
Theorem startAgent_throws :
  ∀ (w : world) (dirname agentId : string) (p : proc Orchestrator.state),
    runM (Orchestrator.startAgent w dirname agentId) p
    = (inl (Error
              (if negb (is_configured agentId)
               then "Agent configuration not found: " ++ agentId
               else if is_running agentId (self p)
               then "Agent " ++ agentId ++ " is already running"
               else "Cannot access 'process' before initialization")),
       p)
    ∧ runM (Orchestrator.startAgent w dirname "agent-a") (Proc 0 Orchestrator.init [])
      = (inl (Error "Cannot access 'process' before initialization"),
         Proc 0 Orchestrator.init []).
Proof.
  intros w dirname agentId p. split.
  - apply startAgent_run.
  - by rewrite startAgent_run.
Qed.

(** Run monadic code one layer at a time, leaving the maps folded. *)
Ltac run_m :=
  cbn -[JsMap.get JsMap.set JsMap.delete Orchestrator.alter_agent within
        Orchestrator.stopAgent Orchestrator.startAgent
        AgentE.delegateToAgent AgentE.waitForTaskCompletion AgentE.poll
        AgentE.performDiscovery AgentE.discover_if_empty AgentE.findAgentByType
        AgentE.sentimentFallback AgentE.analyse_sentiment AgentE.analyse_language
        AgentE.process_sentiment AgentE.process_language js_String N.add N.sub N.ltb N.leb N.eqb N.div String.append String.eqb show_N].

Lemma get_alter_agent (agentId : string) (f : Orchestrator.agent -> Orchestrator.agent)
    (m : list (string * Orchestrator.agent)) :
  JsMap.get String.eqb agentId (Orchestrator.alter_agent agentId f m)
  = f <$> JsMap.get String.eqb agentId m.
Proof.
  unfold JsMap.get, Orchestrator.alter_agent.
  induction m as [|[k a] m IH]; [done|].
  simpl. destruct (String.eqb agentId k) eqn:E; simpl; rewrite E; [done|apply IH].
Qed.

(** The error counter of an agent, if the supervisor knows it. *)
Definition errorCount_of (agentId : string) (s : Orchestrator.state) : option nat :=
  Orchestrator.errorCount <$> JsMap.get String.eqb agentId (Orchestrator.agents s).
Definition status_of (agentId : string) (s : Orchestrator.state) : option string :=
  Orchestrator.a_status <$> JsMap.get String.eqb agentId (Orchestrator.agents s).

(** [stopAgent] on a known agent returns: it signals the child once with
    SIGTERM (if it is still there) and leaves the agent stopped. *)
Lemma stopAgent_run (w : world) (exit_delay : N -> string -> N -> option N)
    (agentId : string) (a : Orchestrator.agent) (p : proc Orchestrator.state) :
  JsMap.get String.eqb agentId (Orchestrator.agents (self p)) = Some a ->
  ∃ p2, runM (Orchestrator.stopAgent exit_delay agentId) p = (inr "stopped", p2)
        ∧ status_of agentId (self p2) = Some "stopped"
        ∧ errorCount_of agentId (self p2) = Some (Orchestrator.errorCount a)
        ∧ Orchestrator.os_calls (self p2)
          = (Orchestrator.os_calls (self p)
             ++ if Orchestrator.exited (Orchestrator.process a) then []
                else [Orchestrator.Kill (Orchestrator.pid (Orchestrator.process a))
                        "SIGTERM"])%list
        ∧ calls p2 = calls p.
Proof.
  intros Hget. unfold Orchestrator.stopAgent, Orchestrator.kill.
  cbn [mbind M_bind runM this]. rewrite Hget.
  cbn [mbind M_bind runM this]. rewrite Hget.
  destruct (Orchestrator.exited (Orchestrator.process a)) eqn:Hex.
  - run_m. rewrite !get_alter_agent, Hget. run_m.
    destruct (Orchestrator.killed (Orchestrator.process a)) eqn:Hk; run_m.
    + eexists. split; [reflexivity|]. unfold status_of, errorCount_of. run_m.
      rewrite !get_alter_agent, Hget. cbn. by rewrite app_nil_r.
    + rewrite !get_alter_agent, Hget. run_m. rewrite Hex. run_m.
      eexists. split; [reflexivity|]. unfold status_of, errorCount_of. run_m.
      rewrite !get_alter_agent, Hget. cbn. by rewrite app_nil_r.
  - run_m.
    destruct (exit_delay (Orchestrator.pid (Orchestrator.process a)) "SIGTERM" (now p))
      as [d|]; [destruct (d <? 5000)|]; run_m;
      rewrite ?get_alter_agent, ?Hget; run_m;
      (eexists; split; [reflexivity|]); unfold status_of, errorCount_of; run_m;
      rewrite !get_alter_agent, ?Hget; cbn; done.
Qed.

Lemma runM_bind {S A B : Type} (m : M S A) (k : A -> M S B) (p : proc S) :
  runM (m ≫= k) p
  = match runM m p with
    | (inl e, p') => (inl e, p')
    | (inr a, p') => runM (k a) p'
    end.
Proof. reflexivity. Qed.

Lemma try_catch_ignore {S : Type} (m : M S unit) (p : proc S) :
  runM (try_catch m (λ _, mret tt)) p = (inr tt, snd (runM m p)).
Proof. unfold try_catch. simpl. by destruct (runM m p) as [[e|[]] q]. Qed.

(** The liveness probe of the health check, sent at time [t]. *)
Definition health_url (a : Orchestrator.agent) : string :=
  "http://localhost:" ++ show_N (Orchestrator.cfg_port (Orchestrator.config a)) ++ "/status".
Definition probe (w : world) (a : Orchestrator.agent) (t : N) : N * net json :=
  within (Some 5000) (get_json w (health_url a) t).

(** The process after a probe sent by [p] has settled. *)
Definition probed (w : world) (a : Orchestrator.agent) (p : proc Orchestrator.state)
  : proc Orchestrator.state :=
  elapse (fst (probe w a (now p))) (sent (GET (health_url a) (now p)) p).

(** [agent.errorCount++]. *)
Definition count_error (agentId : string) (s : Orchestrator.state) : Orchestrator.state :=
  Orchestrator.set_agents
    (Orchestrator.alter_agent agentId
       (fun a => Orchestrator.with_errorCount (S (Orchestrator.errorCount a)) a)) s.

(** The restart the health check tries after [stopAgent]: [startAgent], then
    [agent.errorCount = 0] if that returned. *)
Definition start_again (w : world) (dirname agentId : string) : M Orchestrator.state unit :=
  Orchestrator.startAgent w dirname agentId;;
  update (Orchestrator.set_agents
            (Orchestrator.alter_agent agentId (Orchestrator.with_errorCount 0))).

Section health_check.
Context (w : world) (dirname : string) (exit_delay : N -> string -> N -> option N).
Context (agentId : string) (a : Orchestrator.agent) (p : proc Orchestrator.state).
Hypothesis Hget : JsMap.get String.eqb agentId (Orchestrator.agents (self p)) = Some a.
Hypothesis Hrun : Orchestrator.a_status a = "running".

(** A probe that is answered: the time and the response time are noted, the
    error counter is not touched. *)
Lemma check_agent_success (d : json) :
  snd (probe w a (now p)) = Reply d ->
  runM (Orchestrator.check_agent w dirname exit_delay agentId) p
  = (inr tt,
     with_self (Orchestrator.set_agents
                  (Orchestrator.alter_agent agentId
                     (Orchestrator.with_health (now (probed w a p))
                        (now (probed w a p) - now p))))
       (probed w a p)).
Proof.
  intros Hp. unfold Orchestrator.check_agent.
  cbn [mbind M_bind runM this]. rewrite Hget, Hrun, String.eqb_refl.
  unfold probe, health_url in Hp.
  unfold try_catch, axios_get. run_m. rewrite Hp. run_m.
  reflexivity.
Qed.

(** A probe that fails below the threshold: the counter goes up by one and
    nothing else happens. *)
Lemma check_agent_failure (msg : string) :
  snd (probe w a (now p)) = Failure msg ->
  (Orchestrator.errorCount a < 3)%nat ->
  runM (Orchestrator.check_agent w dirname exit_delay agentId) p
  = (inr tt, with_self (count_error agentId) (probed w a p)).
Proof.
  intros Hp Hlt. unfold Orchestrator.check_agent.
  cbn [mbind M_bind runM this]. rewrite Hget, Hrun, String.eqb_refl.
  unfold probe, health_url in Hp.
  unfold try_catch, axios_get. run_m. rewrite Hp. run_m.
  rewrite get_alter_agent, Hget. run_m.
  destruct (Orchestrator.errorCount a) as [|[|[|n]]]; try lia; reflexivity.
Qed.

(** A probe that fails at the threshold: after the increment the supervisor
    runs [stopAgent], waits 2 s and tries [startAgent]. *)
Lemma check_agent_restart (msg : string) :
  snd (probe w a (now p)) = Failure msg ->
  (3 <= Orchestrator.errorCount a)%nat ->
  ∃ p2,
    runM (Orchestrator.stopAgent exit_delay agentId)
         (with_self (count_error agentId) (probed w a p)) = (inr "stopped", p2)
    ∧ status_of agentId (self p2) = Some "stopped"
    ∧ errorCount_of agentId (self p2) = Some (S (Orchestrator.errorCount a))
    ∧ Orchestrator.os_calls (self p2)
      = (Orchestrator.os_calls (self p)
         ++ if Orchestrator.exited (Orchestrator.process a) then []
            else [Orchestrator.Kill (Orchestrator.pid (Orchestrator.process a))
                    "SIGTERM"])%list
    ∧ runM (Orchestrator.check_agent w dirname exit_delay agentId) p
      = (inr tt, snd (runM (start_again w dirname agentId) (elapse 2000 p2))).
Proof.
  intros Hp Hge.
  assert (Hget1 : JsMap.get String.eqb agentId
            (Orchestrator.agents (self (with_self (count_error agentId) (probed w a p))))
          = Some (Orchestrator.with_errorCount (S (Orchestrator.errorCount a)) a)).
  { run_m. by rewrite get_alter_agent, Hget. }
  destruct (stopAgent_run w exit_delay agentId _ _ Hget1)
    as (p2 & Hstop & Hst & Hec & Hos & Hcalls).
  exists p2. split; [done|]. split; [done|]. split; [done|]. split; [done|].
  unfold Orchestrator.check_agent.
  cbn [mbind M_bind runM this]. rewrite Hget, Hrun, String.eqb_refl.
  unfold probe, health_url in Hp.
  unfold try_catch at 1. unfold axios_get. run_m. rewrite Hp. run_m.
  rewrite get_alter_agent, Hget. run_m.
  destruct (Orchestrator.errorCount a) as [|[|[|n]]] eqn:En; try lia.
  cbn [Nat.ltb Nat.leb].
  rewrite try_catch_ignore. f_equal.
  unfold start_again. rewrite runM_bind.
  match goal with
  | |- context [runM (Orchestrator.stopAgent _ _) ?q] =>
      change q with (with_self (count_error agentId) (probed w a p))
  end.
  rewrite Hstop. reflexivity.
Qed.
End health_check.

(** One turn of the health check on an agent recorded as running: a probe
    that is answered leaves the error counter as it is (nothing resets it); a
    probe that fails adds one to it; and when the counter then exceeds 3 the
    supervisor runs [stopAgent] on the agent (SIGTERM to its process, status
    stopped), waits 2 s and calls [startAgent], resetting the counter only if
    that call returns. *)
Theorem health_check_counts_errors :
  ∀ (w : world) (dirname : string) (exit_delay : N -> string -> N -> option N)
    (agentId : string) (a : Orchestrator.agent) (p : proc Orchestrator.state),
    JsMap.get String.eqb agentId (Orchestrator.agents (self p)) = Some a ->
    Orchestrator.a_status a = "running" ->
    let out := runM (Orchestrator.check_agent w dirname exit_delay agentId) p in
    match snd (probe w a (now p)) with
    | Reply _ =>
        fst out = inr tt
        ∧ errorCount_of agentId (self (snd out)) = Some (Orchestrator.errorCount a)
        ∧ status_of agentId (self (snd out)) = Some "running"
    | Failure _ =>
        if (Orchestrator.errorCount a <? 3)%nat then
          fst out = inr tt
          ∧ errorCount_of agentId (self (snd out)) = Some (S (Orchestrator.errorCount a))
          ∧ status_of agentId (self (snd out)) = Some "running"
          ∧ Orchestrator.os_calls (self (snd out)) = Orchestrator.os_calls (self p)
        else
          ∃ p2,
            runM (Orchestrator.stopAgent exit_delay agentId)
                 (with_self (count_error agentId) (probed w a p)) = (inr "stopped", p2)
            ∧ status_of agentId (self p2) = Some "stopped"
            ∧ Orchestrator.os_calls (self p2)
              = (Orchestrator.os_calls (self p)
                 ++ if Orchestrator.exited (Orchestrator.process a) then []
                    else [Orchestrator.Kill (Orchestrator.pid (Orchestrator.process a))
                            "SIGTERM"])%list
            ∧ out = (inr tt, snd (runM (start_again w dirname agentId) (elapse 2000 p2)))
    end.
Proof.
  intros w dirname exit_delay agentId a p Hget Hrun out.
  destruct (snd (probe w a (now p))) as [d|msg] eqn:Hp.
  - subst out.
    pose proof (check_agent_success w dirname exit_delay agentId a p Hget Hrun d Hp) as E.
    rewrite E.
    unfold errorCount_of, status_of. run_m.
    rewrite !get_alter_agent, Hget. by rewrite <- Hrun.
  - destruct (Orchestrator.errorCount a <? 3)%nat eqn:Hlt.
    + apply Nat.ltb_lt in Hlt. subst out.
      pose proof (check_agent_failure w dirname exit_delay agentId a p Hget Hrun msg Hp Hlt)
        as E.
      rewrite E.
      unfold errorCount_of, status_of. run_m.
      rewrite !get_alter_agent, Hget. by rewrite <- Hrun.
    + apply Nat.ltb_ge in Hlt.
      destruct (check_agent_restart w dirname exit_delay agentId a p Hget Hrun msg Hp Hlt)
        as (p2 & H1 & H2 & H3 & H4 & H5).
      exists p2. subst out. by rewrite H5.
Qed.

(** A supervisor state for concrete runs of single functions: agent-a is
    recorded as running with [n] errors on its counter.  The record is put
    there by hand; no run of the supervisor itself records an agent. *)
Definition running_agent_a (n : nat) : Orchestrator.agent :=
  {| Orchestrator.config :=
       {| Orchestrator.cfg_id := "agent-a"; Orchestrator.cfg_name := "Text Processor";
          Orchestrator.cfg_port := 4001; Orchestrator.cfg_type := "text-processor";
          Orchestrator.cfg_script := "agent-a-server.js";
          Orchestrator.cfg_healthPath := "/status";
          Orchestrator.cfg_capabilities :=
            ["text_analysis"; "text_transform"; "text_validation"] |};
     Orchestrator.process :=
       {| Orchestrator.pid := 0; Orchestrator.killed := false;
          Orchestrator.exited := false |};
     Orchestrator.a_status := "running"; Orchestrator.startTime := 0;
     Orchestrator.lastHealthCheck := None; Orchestrator.responseTime := None;
     Orchestrator.errorCount := n |}.

Definition supervising (n : nat) : proc Orchestrator.state :=
  {| now := 0;
     self := {| Orchestrator.agents := [("agent-a", running_agent_a n)];
                Orchestrator.os_calls := []; Orchestrator.pids := 1 |};
     calls := [] |}.

(** A network on which every agent is unreachable before time [t] and
    answers its status afterwards. *)
Definition up_from (t : N) : world :=
  {| get_json := fun _ now =>
       if now <? t then (3, Failure "connect ECONNREFUSED")
       else (3, Reply (JObj [("status", JStr "ok")]));
     get_card := fun _ _ => (3, Failure "connect ECONNREFUSED");
     post_rpc := fun _ _ _ => (3, Failure "connect ECONNREFUSED") |}.

Definition exits_quickly : N -> string -> N -> option N := fun _ _ _ => Some 100.

(** At a concrete record: agent-a has 3 errors and its probe fails. *)
Lemma health_check_counts_errors_witness :
  ∃ p2,
    runM (Orchestrator.stopAgent exits_quickly "agent-a")
         (with_self (count_error "agent-a") (probed (up_from 100) (running_agent_a 3)
                                                 (supervising 3)))
    = (inr "stopped", p2)
    ∧ status_of "agent-a" (self p2) = Some "stopped"
    ∧ Orchestrator.os_calls (self p2) = [Orchestrator.Kill 0 "SIGTERM"]
    ∧ runM (Orchestrator.check_agent (up_from 100) "/srv" exits_quickly "agent-a")
           (supervising 3)
      = (inr tt, snd (runM (start_again (up_from 100) "/srv" "agent-a") (elapse 2000 p2))).
Proof.
  exact (health_check_counts_errors (up_from 100) "/srv" exits_quickly "agent-a"
           (running_agent_a 3) (supervising 3) eq_refl eq_refl).
Defined.

(** On such a record the counter is cumulative: the first health check of
    agent-a fails (counter 1), the next one, 15 s later, is answered, and the
    counter is still 1. *)
Lemma error_counter_is_not_reset :
  let tick := Orchestrator.startHealthMonitoring (up_from 100) "/srv" exits_quickly in
  let p1 := snd (runM tick (supervising 0)) in
  let p2 := snd (runM tick (elapse 15000 p1)) in
  errorCount_of "agent-a" (self p1) = Some 1%nat
  ∧ (Orchestrator.lastHealthCheck
       <$> JsMap.get String.eqb "agent-a" (Orchestrator.agents (self p2)))
    = Some (Some 15006)
  ∧ errorCount_of "agent-a" (self p2) = Some 1%nat
  ∧ errorCount_of "agent-a" (self p2) ≠ Some 0%nat.
Proof. vm_compute. split_and!; [reflexivity..|discriminate]. Qed.

(** ** Routing in the supervisor *)

(** A network where agent A answers on its documented endpoints
    ([POST /rpc], [GET /task/:id]) and every other path is a 404. *)
Definition agent_a_online : world :=
  {| get_json := fun url _ =>
       if String.eqb url "http://localhost:4001/task/uuid-0"
       then (5, Reply (JObj [("id", JStr "uuid-0"); ("status", JStr "completed");
                             ("result", JObj [("word_count", JNum 1)])]))
       else if String.eqb url "http://localhost:4001/status"
       then (5, Reply (JObj [("status", JStr "ok")]))
       else (5, Failure "Request failed with status code 404");
     get_card := fun _ _ => (5, Failure "Request failed with status code 404");
     post_rpc := fun url body _ =>
       if String.eqb url "http://localhost:4001/rpc"
       then (5, Reply (JObj [("jsonrpc", JStr "2.0");
                             ("result", JObj [("task_id", JStr "uuid-0");
                                              ("status", JStr "accepted")]);
                             ("id", req_id body)]))
       else (5, Failure "Request failed with status code 404") |}.

(** The same, for a caller that posts to [/json-rpc]. *)
Definition answers_anywhere : world :=
  {| get_json := get_json agent_a_online;
     get_card := get_card agent_a_online;
     post_rpc := fun url body _ =>
       (5, Reply (JObj [("jsonrpc", JStr "2.0");
                        ("result", JObj [("task_id", JStr "uuid-0");
                                         ("status", JStr "accepted")]);
                        ("id", req_id body)])) |}.

(** C2 (the code departs from the claim): [routeAndExecuteTask] of the
    supervisor sends at most one request, a POST to [/json-rpc] of the target
    port (the agents serve [/rpc]), never polls a task-status endpoint, and
    what it returns as [result] is the [result] member of that one reply, the
    acceptance envelope.  With agent A online the call for "text_analysis"
    fails on a 404; were the path answered, the caller would get
    [{task_id, status: "accepted"}]. *)
Theorem route_returns_acceptance_envelope :
  ∀ (w : world) (method params : json) (p : proc Orchestrator.state),
    let out := runM (Orchestrator.routeAndExecuteTask w method params) p in
    (calls (snd out) = calls p
     ∨ ∃ port body,
         calls (snd out)
         = (calls p ++ [POST ("http://localhost:" ++ show_N port ++ "/json-rpc")
                          body (now p)])%list
         ∧ match fst out with
           | inr r =>
               ∃ response,
                 snd (post_rpc w ("http://localhost:" ++ show_N port ++ "/json-rpc")
                        body (now p)) = Reply response
                 ∧ js_get response "result" = inr (Orchestrator.routed_result r)
           | inl _ => True
           end)
    ∧ fst (runM (Orchestrator.routeAndExecuteTask agent_a_online (JStr "text_analysis")
                   (JObj [("text", JStr "hi")])) (Proc 0 Orchestrator.init []))
      = inl (Error "Request failed with status code 404")
    ∧ (λ r, (Orchestrator.routed_result <$> r.1, calls r.2))
        (runM (Orchestrator.routeAndExecuteTask answers_anywhere (JStr "text_analysis")
                 (JObj [("text", JStr "hi")])) (Proc 0 Orchestrator.init []))
      = (inr (JObj [("task_id", JStr "uuid-0"); ("status", JStr "accepted")]),
         [POST "http://localhost:4001/json-rpc"
            {| req_jsonrpc := JStr "2.0"; req_method := JStr "text_analysis";
               req_params := JObj [("text", JStr "hi")]; req_id := JNum 0 |} 0]).
Proof.
  intros w method params p out. split; [|split; vm_compute; reflexivity].
  subst out. unfold Orchestrator.routeAndExecuteTask.
  rewrite runM_bind.
  destruct (Orchestrator.as_method method) as [e|m]; [by left|].
  cbn [lift runM]. rewrite runM_bind.
  assert (Hpost : ∀ (cfg : Orchestrator.agent_config) (ty : string),
    let out := runM
      (t ← date_now;
       response ← axios_post w ("http://localhost:" ++ show_N (Orchestrator.cfg_port cfg)
                                  ++ "/json-rpc")
                    {| req_jsonrpc := JStr "2.0"; req_method := JStr m;
                       req_params := params; req_id := JNum (Z.of_N t) |} None;
       r ← lift (js_get response "result");
       t' ← date_now;
       mret {| Orchestrator.routed_agent := Orchestrator.cfg_name cfg;
               Orchestrator.routed_method := m;
               Orchestrator.routed_result := r; Orchestrator.routed_to := ty;
               Orchestrator.execution_time := t' |}) p in
    ∃ port body,
      calls (snd out)
      = (calls p ++ [POST ("http://localhost:" ++ show_N port ++ "/json-rpc")
                       body (now p)])%list
      ∧ match fst out with
        | inr r =>
            ∃ response,
              snd (post_rpc w ("http://localhost:" ++ show_N port ++ "/json-rpc")
                     body (now p)) = Reply response
              ∧ js_get response "result" = inr (Orchestrator.routed_result r)
        | inl _ => True
        end).
  { intros cfg ty. eexists (Orchestrator.cfg_port cfg), _.
    unfold axios_post, within. run_m.
    destruct (snd (post_rpc w _ _ (now p))) as [response|msg] eqn:Hr; run_m.
    - destruct (js_get response "result") as [e|r] eqn:Hres; run_m; [done|].
      split; [done|]. exists response. split; [|done]. exact Hr.
    - done. }
  destruct (String.prefix "text_" m); [right; apply (Hpost _ "text-processor")|].
  destruct (String.prefix "math_" m || includes m "math");
    [right; apply (Hpost _ "math-calculator")|].
  destruct (String.prefix "sentiment_" m || includes m "sentiment" || includes m "emotion");
    [right; apply (Hpost _ "sentiment-analyzer")|].
  destruct (String.prefix "language_" m || includes m "language");
    [right; apply (Hpost _ "language-detector")|].
  by left.
Qed.

(** ** Delegation in agent E *)

Lemma within_le {A : Type} (t : N) (r : N * net A) : fst (within (Some t) r) <= t.
Proof.
  unfold within. destruct (t <=? fst r) eqn:E; simpl.
  - lia.
  - apply N.leb_gt in E. lia.
Qed.

Section AgentE_delegation.
Context {Basic Lang : Type}.
Context (w : world).

(** The polling loop ends within its fuel: each turn that goes round again
    has slept 500 ms.  It leaves the fields of the agent alone and ends at
    most 2.5 s after the ceiling. *)
Lemma poll_spec (fuel k : nat) (url : string) (taskId : json) (start maxWait : N)
    (p : proc (@AgentE.state Basic Lang)) :
  start + maxWait <= now p + 500 * N.of_nat k ->
  (k < fuel)%nat ->
  now p <= start + maxWait + 2500 ->
  ∃ exit p',
    runM (AgentE.poll w fuel url taskId start maxWait) p = (inr exit, p')
    ∧ exit ≠ AgentE.Exhausted
    ∧ self p' = self p
    ∧ now p <= now p' <= start + maxWait + 2500.
Proof.
  revert k p. induction fuel as [|fuel IH]; intros k p Hk Hfuel Hnow; [lia|].
  cbn [AgentE.poll]. rewrite runM_bind. cbn [date_now runM].
  destruct (now p - start <? maxWait) eqn:Hc.
  - apply N.ltb_lt in Hc.
    rewrite runM_bind. unfold try_catch, axios_get. run_m.
    pose proof (within_le 2000 (get_json w (url ++ "/task/" ++ js_String taskId) (now p)))
      as Hlat.
    destruct (snd (within (Some 2000) (get_json w _ (now p)))) as [resp|msg]; run_m.
    + destruct (js_get resp "status") as [e|st]; run_m.
      { eexists _, _. split; [reflexivity|]. split; [done|]. split; [done|]. run_m. lia. }
      destruct (is_str st "completed"); run_m.
      { destruct (js_get resp "result") as [e|v]; run_m;
          (eexists _, _; split; [reflexivity|]; split; [done|]; split; [done|]; run_m; lia). }
      destruct (is_str st "failed"); run_m.
      { destruct (js_get resp "error") as [e|v]; run_m;
          (eexists _, _; split; [reflexivity|]; split; [done|]; split; [done|]; run_m; lia). }
      destruct k as [|k]; [lia|].
      match goal with
      | |- context [runM (AgentE.poll _ _ _ _ _ _) ?q] =>
          destruct (IH k q) as (exit & p' & Hrun & Hne & Hself & Ht)
      end.
      { run_m. lia. }
      { lia. }
      { run_m. lia. }
      rewrite Hrun. exists exit, p'. split; [done|]. split; [done|].
      split; [by rewrite Hself|]. revert Ht. run_m. lia.
    + eexists _, _. split; [reflexivity|]. split; [done|]. split; [done|]. run_m. lia.
  - eexists _, _. split; [reflexivity|]. split; [done|]. split; [done|]. lia.
Qed.

Lemma poll_fuel_enough (maxWait : N) :
  maxWait <= 500 * N.of_nat (N.to_nat (maxWait / 500) + 1)
  ∧ (N.to_nat (maxWait / 500) + 1 < AgentE.poll_fuel maxWait)%nat.
Proof.
  unfold AgentE.poll_fuel. split; [|lia].
  pose proof (N.div_mod maxWait 500 ltac:(lia)) as Hdm.
  pose proof (N.mod_lt maxWait 500 ltac:(lia)) as Hmod.
  lia.
Qed.

(** The fuel of the model never runs out in [waitForTaskCompletion]. *)
Lemma poll_never_exhausted (url : string) (taskId : json) (maxWait : N)
    (p : proc (@AgentE.state Basic Lang)) :
  fst (runM (AgentE.poll w (AgentE.poll_fuel maxWait) url taskId (now p) maxWait) p)
  ≠ inr AgentE.Exhausted.
Proof.
  destruct (poll_fuel_enough maxWait) as (Hk & Hfuel).
  destruct (poll_spec (AgentE.poll_fuel maxWait) (N.to_nat (maxWait / 500) + 1)
              url taskId (now p) maxWait p ltac:(lia) Hfuel ltac:(lia)) as (exit & p' & Hrun & Hne & _).
  rewrite Hrun. simpl. congruence.
Qed.

(** [waitForTaskCompletion] returns the remote result or throws its timeout
    error, at most 2.5 s after the ceiling, and changes no field of the
    agent. *)
Lemma waitForTaskCompletion_spec (url : string) (taskId : json) (maxWait : N)
    (p : proc (@AgentE.state Basic Lang)) :
  ∃ r p',
    runM (AgentE.waitForTaskCompletion w url taskId maxWait) p = (r, p')
    ∧ ((∃ v, r = inr v) ∨ r = inl (Error ("Task " ++ js_String taskId ++ " timeout")))
    ∧ self p' = self p
    ∧ now p <= now p' <= now p + maxWait + 2500.
Proof.
  destruct (poll_fuel_enough maxWait) as (Hk & Hfuel).
  destruct (poll_spec (AgentE.poll_fuel maxWait) (N.to_nat (maxWait / 500) + 1)
              url taskId (now p) maxWait p ltac:(lia) Hfuel ltac:(lia)) as (exit & p' & Hrun & Hne & Hself & Ht).
  unfold AgentE.waitForTaskCompletion. rewrite runM_bind. cbn [date_now runM].
  rewrite runM_bind, Hrun.
  destruct exit as [v| |]; [| |done]; eexists _, p'; (split; [reflexivity|]).
  - split; [left; by eexists|done].
  - split; [by right|done].
Qed.

(** A delegation ends at most 17.5 s after it began (5 s for the
    acceptance call, 10 s of polling, one last poll and sleep), only draws an
    identifier, and sends nothing once it has failed. *)
Lemma delegateToAgent_spec (agent : AgentE.descriptor) (method : string) (params : json)
    (p : proc (@AgentE.state Basic Lang)) :
  ∃ r p',
    runM (AgentE.delegateToAgent w agent method params) p = (r, p')
    ∧ self p' = AgentE.set_uuids (AgentE.uuids (self p) + 1) (self p)
    ∧ now p <= now p' <= now p + 17500.
Proof.
  unfold AgentE.delegateToAgent, AgentE.draw_uuid, axios_post.
  pose proof (within_le 5000 (post_rpc w (AgentE.d_url agent ++ "/rpc")
    {| req_jsonrpc := JStr "2.0"; req_method := JStr method; req_params := params;
       req_id := JStr (uuidv4 (AgentE.uuids (self p))) |} (now p))) as Hlat.
  run_m.
  destruct (snd (within (Some 5000) (post_rpc w _ _ (now p)))) as [resp|msg]; run_m.
  2: { eexists _, _. split; [reflexivity|]. split; [done|]. run_m. lia. }
  destruct (js_get resp "error") as [e|err]; run_m.
  { eexists _, _. split; [reflexivity|]. split; [done|]. run_m. lia. }
  destruct (truthy err); run_m.
  { destruct (js_get err "message"); run_m;
      (eexists _, _; split; [reflexivity|]; split; [done|]; run_m; lia). }
  destruct (js_get resp "result") as [e|res]; run_m.
  { eexists _, _. split; [reflexivity|]. split; [done|]. run_m. lia. }
  destruct (truthy (js_get_opt res "task_id")); run_m.
  - match goal with
    | |- context [runM (AgentE.waitForTaskCompletion w ?u ?i ?m) ?q] =>
        destruct (waitForTaskCompletion_spec u i m q) as (r & p' & Hrun & _ & Hself & Ht)
    end.
    rewrite Hrun. exists r, p'. split; [done|]. split; [by rewrite Hself|].
    revert Ht. run_m. lia.
  - eexists _, _. split; [reflexivity|]. split; [done|]. run_m. lia.
Qed.
End AgentE_delegation.

(** ** What the polls of a wait were answered with *)

(** What a poll of [target] sent at [t] is answered with, the 2 s limit of
    the request applied. *)
Definition poll_answer (w : world) (target : string) (t : N) : N * net json :=
  within (Some 2000) (get_json w target t).

(** The answer says the task is still being processed: a reply whose
    [status] is neither "completed" nor "failed". *)
Definition still_processing (a : net json) : bool :=
  match a with
  | Reply task =>
      match js_get task "status" with
      | inr st => negb (is_str st "completed") && negb (is_str st "failed")
      | inl _ => false
      end
  | Failure _ => false
  end.

(** The result an answer carries for a completed task. *)
Definition completed_result (a : net json) : option json :=
  match a with
  | Reply task =>
      match js_get task "status" with
      | inr st =>
          if is_str st "completed" then
            match js_get task "result" with
            | inr v => Some v
            | inl _ => None
            end
          else None
      | inl _ => None
      end
  | Failure _ => None
  end.

(** A poll of [target] sent between [from] and [before] and answered "still
    processing". *)
Definition asked_in_vain (w : world) (target : string) (from before : N) (c : call)
  : Prop :=
  ∃ t, c = GET target t ∧ from <= t < before
       ∧ still_processing (snd (poll_answer w target t)) = true.

(** How a wait ended, given the polls [l] it sent from [from] on: on the
    answer of its last poll, sent before the ceiling [before], at the moment
    [finish] that answer arrived (with the result of the completed task, or
    with nothing when the answer was anything else but "still processing"),
    or at the head of the loop, [before] having passed. *)
Definition wait_ended (w : world) (target : string) (from before : N)
    (l : list call) (value : option json) (finish : N) : Prop :=
  (∃ l0 t, l = (l0 ++ [GET target t])%list
           ∧ Forall (asked_in_vain w target from before) l0
           ∧ from <= t < before
           ∧ still_processing (snd (poll_answer w target t)) = false
           ∧ value = completed_result (snd (poll_answer w target t))
           ∧ finish = t + fst (poll_answer w target t))
  ∨ (Forall (asked_in_vain w target from before) l
     ∧ value = None ∧ before <= finish).

Section AgentE_wait.
Context {Basic Lang : Type}.
Context (w : world).

Lemma asked_in_vain_earlier (target : string) (from from' before : N) (c : call) :
  from <= from' -> asked_in_vain w target from' before c
  -> asked_in_vain w target from before c.
Proof. intros Hle (t & -> & Ht & Hs). exists t. split_and!; [done|lia|lia|done]. Qed.

Lemma wait_ended_later (target : string) (from from' before : N) (c : call)
    (l : list call) (value : option json) (finish : N) :
  from <= from' ->
  asked_in_vain w target from before c ->
  wait_ended w target from' before l value finish ->
  wait_ended w target from before (c :: l) value finish.
Proof.
  intros Hle Hc [(l0 & t & -> & HF & Ht & Hs & Hv & Hf)|(HF & Hv & Hf)].
  - left. exists (c :: l0), t. split_and!; [done| |lia|lia|done|done|done].
    constructor; [done|].
    eapply Forall_impl; [exact HF|]. intros c'. by apply asked_in_vain_earlier.
  - right. split_and!; [|done|done].
    constructor; [done|].
    eapply Forall_impl; [exact HF|]. intros c'. by apply asked_in_vain_earlier.
Qed.

(** The polling loop, poll by poll. *)
Lemma poll_trace (fuel k : nat) (url : string) (taskId : json) (start maxWait : N)
    (p : proc (@AgentE.state Basic Lang)) :
  start + maxWait <= now p + 500 * N.of_nat k ->
  (k < fuel)%nat ->
  start <= now p ->
  ∃ exit p' l,
    runM (AgentE.poll w fuel url taskId start maxWait) p = (inr exit, p')
    ∧ calls p' = (calls p ++ l)%list
    ∧ match exit with
      | AgentE.Returned v =>
          wait_ended w (url ++ "/task/" ++ js_String taskId) (now p) (start + maxWait)
            l (Some v) (now p')
      | AgentE.LeftLoop =>
          wait_ended w (url ++ "/task/" ++ js_String taskId) (now p) (start + maxWait)
            l None (now p')
      | AgentE.Exhausted => False
      end.
Proof.
  revert k p. induction fuel as [|fuel IH]; intros k p Hk Hfuel Hstart; [lia|].
  set (target := url ++ "/task/" ++ js_String taskId).
  cbn [AgentE.poll]. rewrite runM_bind. cbn [date_now runM].
  destruct (now p - start <? maxWait) eqn:Hc.
  2: { apply N.ltb_ge in Hc. exists AgentE.LeftLoop, p, []. rewrite app_nil_r.
       split_and!; [done|done|]. right. split_and!; [by apply Forall_nil|done|lia]. }
  apply N.ltb_lt in Hc.
  rewrite runM_bind. unfold try_catch, axios_get. run_m. fold target.
  pose proof (eq_refl : poll_answer w target (now p)
                        = within (Some 2000) (get_json w target (now p))) as Ha.
  destruct (within (Some 2000) (get_json w target (now p))) as [lat a].
  assert (Hlast : ∀ value,
    still_processing a = false -> value = completed_result a ->
    wait_ended w target (now p) (start + maxWait) [GET target (now p)] value
      (now p + lat)).
  { intros value Hs Hv. left. exists [], (now p). rewrite Ha.
    split_and!; [done|by apply Forall_nil|lia|lia|done|done|done]. }
  cbn [fst snd]. destruct a as [resp|msg]; run_m.
  2: { eexists AgentE.LeftLoop, _, [_]. split_and!; [reflexivity|done|].
       run_m. by apply Hlast. }
  destruct (js_get resp "status") as [e|st] eqn:Hst; run_m.
  { eexists AgentE.LeftLoop, _, [_]. split_and!; [reflexivity|done|].
    run_m. apply Hlast; simpl; by rewrite Hst. }
  destruct (is_str st "completed") eqn:Hdone; run_m.
  { destruct (js_get resp "result") as [e|v] eqn:Hres; run_m.
    - eexists AgentE.LeftLoop, _, [_]. split_and!; [reflexivity|done|].
      run_m. apply Hlast; simpl; by rewrite Hst, Hdone, ?Hres.
    - eexists (AgentE.Returned v), _, [_]. split_and!; [reflexivity|done|].
      run_m. apply Hlast; simpl; by rewrite Hst, Hdone, ?Hres. }
  destruct (is_str st "failed") eqn:Hfailed; run_m.
  { destruct (js_get resp "error") as [e|v]; run_m;
      (eexists AgentE.LeftLoop, _, [_]; split_and!; [reflexivity|done|];
       run_m; apply Hlast; simpl; by rewrite Hst, Hdone, ?Hfailed). }
  destruct k as [|k]; [lia|].
  match goal with
  | |- context [runM (AgentE.poll _ _ _ _ _ _) ?q] =>
      destruct (IH k q) as (exit & p' & l & Hrun & Hcalls & Hexit)
  end.
  { run_m. lia. }
  { lia. }
  { run_m. lia. }
  rewrite Hrun. revert Hcalls Hexit. run_m. intros Hcalls Hexit.
  exists exit, p', (GET target (now p) :: l). split_and!; [done| |].
  { by rewrite Hcalls, <-app_assoc. }
  assert (Hvain : asked_in_vain w target (now p) (start + maxWait) (GET target (now p))).
  { exists (now p). rewrite Ha. split_and!; [done|lia|lia|].
    simpl. by rewrite Hst, Hdone, Hfailed. }
  destruct exit as [v| |]; [| |done];
    (eapply wait_ended_later; [|exact Hvain|exact Hexit]; lia).
Qed.

(** [waitForTaskCompletion], poll by poll: it returns the result of a
    completed task, or throws its timeout error, as its polls were
    answered. *)
Lemma wait_trace (url : string) (taskId : json) (maxWait : N)
    (p : proc (@AgentE.state Basic Lang)) :
  ∃ value p' l,
    runM (AgentE.waitForTaskCompletion w url taskId maxWait) p
    = (match value with
       | Some v => inr v
       | None => inl (Error ("Task " ++ js_String taskId ++ " timeout"))
       end, p')
    ∧ calls p' = (calls p ++ l)%list
    ∧ wait_ended w (url ++ "/task/" ++ js_String taskId) (now p) (now p + maxWait)
        l value (now p').
Proof.
  destruct (poll_fuel_enough maxWait) as (Hk & Hfuel).
  destruct (poll_trace (AgentE.poll_fuel maxWait) (N.to_nat (maxWait / 500) + 1)
              url taskId (now p) maxWait p ltac:(lia) Hfuel ltac:(lia))
    as (exit & p' & l & Hrun & Hcalls & Hexit).
  unfold AgentE.waitForTaskCompletion. rewrite runM_bind. cbn [date_now runM].
  rewrite runM_bind, Hrun.
  destruct exit as [v| |]; [| |done].
  - by exists (Some v), p', l.
  - by exists None, p', l.
Qed.
End AgentE_wait.

(** ** Routing with fallback in agent E *)

Section AgentE_routing.
Context {Basic Lang : Type}.
Context (analyzeTextBasic : string -> Basic).
Context (languageFallback : string -> Lang).
Context (w : world).

(** The sentiment block: delegate when an agent of the type is registered
    and count a delegation if that returned; in every other case run the
    local fallback and count a fallback. *)
Lemma analyse_sentiment_spec (text : string) (result : AgentE.analysis_result)
    (p : proc (@AgentE.state Basic Lang)) :
  runM (AgentE.analyse_sentiment w (JStr text) result) p
  = match AgentE.findAgentByType "sentiment-analyzer" (self p) with
    | None =>
        (inr (AgentE.sentiment_fallback (AgentE.sentimentFallback text) result),
         with_self AgentE.incr_fallbackCount p)
    | Some agent =>
        match runM (AgentE.delegateToAgent w agent "sentiment_analysis"
                      (JObj [("text", JStr text)])) p with
        | (inr v, p') =>
            (inr (AgentE.sentiment_delegated v result),
             with_self AgentE.incr_delegationCount p')
        | (inl _, p') =>
            (inr (AgentE.sentiment_fallback (AgentE.sentimentFallback text) result),
             with_self AgentE.incr_fallbackCount p')
        end
    end.
Proof.
  unfold AgentE.analyse_sentiment. rewrite runM_bind. cbn [this runM].
  destruct (AgentE.findAgentByType "sentiment-analyzer" (self p)) as [agent|].
  - unfold try_catch. cbn [runM]. rewrite runM_bind.
    by destruct (runM (AgentE.delegateToAgent w agent _ _) p) as [[e|v] p'].
  - reflexivity.
Qed.

Lemma analyse_language_spec (text : string) (result : AgentE.analysis_result)
    (p : proc (@AgentE.state Basic Lang)) :
  runM (AgentE.analyse_language languageFallback w (JStr text) result) p
  = match AgentE.findAgentByType "language-detector" (self p) with
    | None =>
        (inr (AgentE.language_fallback (languageFallback text) result),
         with_self AgentE.incr_fallbackCount p)
    | Some agent =>
        match runM (AgentE.delegateToAgent w agent "language_detection"
                      (JObj [("text", JStr text)])) p with
        | (inr v, p') =>
            (inr (AgentE.language_delegated v result),
             with_self AgentE.incr_delegationCount p')
        | (inl _, p') =>
            (inr (AgentE.language_fallback (languageFallback text) result),
             with_self AgentE.incr_fallbackCount p')
        end
    end.
Proof.
  unfold AgentE.analyse_language. rewrite runM_bind. cbn [this runM].
  destruct (AgentE.findAgentByType "language-detector" (self p)) as [agent|].
  - unfold try_catch. cbn [runM]. rewrite runM_bind.
    by destruct (runM (AgentE.delegateToAgent w agent _ _) p) as [[e|v] p'].
  - reflexivity.
Qed.

(** How many routed capabilities an agent has handled: delegations and
    fallbacks together. *)
Definition handled_count (s : @AgentE.state Basic Lang) : nat :=
  AgentE.delegationCount s + AgentE.fallbackCount s.

(** Each of the two blocks returns and counts exactly once. *)
Lemma analyse_sentiment_counts (text : string) (result : AgentE.analysis_result)
    (p : proc (@AgentE.state Basic Lang)) :
  ∃ r p', runM (AgentE.analyse_sentiment w (JStr text) result) p = (inr r, p')
          ∧ handled_count (self p') = S (handled_count (self p)).
Proof.
  rewrite analyse_sentiment_spec. unfold handled_count.
  destruct (AgentE.findAgentByType "sentiment-analyzer" (self p)) as [agent|].
  - destruct (delegateToAgent_spec w agent "sentiment_analysis"
                (JObj [("text", JStr text)]) p) as (r & p' & Hrun & Hself & _).
    rewrite Hrun. destruct r; eexists _, _; (split; [reflexivity|]);
      cbn; rewrite Hself; cbn; lia.
  - eexists _, _. split; [reflexivity|]. cbn. lia.
Qed.

Lemma analyse_language_counts (text : string) (result : AgentE.analysis_result)
    (p : proc (@AgentE.state Basic Lang)) :
  ∃ r p', runM (AgentE.analyse_language languageFallback w (JStr text) result) p = (inr r, p')
          ∧ handled_count (self p') = S (handled_count (self p)).
Proof.
  rewrite analyse_language_spec. unfold handled_count.
  destruct (AgentE.findAgentByType "language-detector" (self p)) as [agent|].
  - destruct (delegateToAgent_spec w agent "language_detection"
                (JObj [("text", JStr text)]) p) as (r & p' & Hrun & Hself & _).
    rewrite Hrun. destruct r; eexists _, _; (split; [reflexivity|]);
      cbn; rewrite Hself; cbn; lia.
  - eexists _, _. split; [reflexivity|]. cbn. lia.
Qed.

Lemma discover_port_returns (port : N) (p : proc (@AgentE.state Basic Lang)) :
  fst (runM (AgentE.discover_port w port) p) = inr tt.
Proof.
  unfold AgentE.discover_port. rewrite runM_bind. cbn [this runM].
  destruct (port =? AgentE.port (self p)); [done|].
  unfold try_catch. cbn [runM].
  match goal with |- context [runM ?m p] => by destruct (runM m p) as [[e|[]] p'] end.
Qed.

Lemma for_of_returns {S A : Type} (xs : list A) (body : A -> M S unit) (p : proc S) :
  (∀ x q, fst (runM (body x) q) = inr tt) -> fst (runM (for_of xs body) p) = inr tt.
Proof.
  intros Hb. revert p. induction xs as [|x xs IH]; intros p; [done|].
  cbn [for_of]. rewrite runM_bind. specialize (Hb x p).
  destruct (runM (body x) p) as [[e|[]] p']; [done|]. apply IH.
Qed.

(** A discovery pass never throws. *)
Lemma performDiscovery_returns (p : proc (@AgentE.state Basic Lang)) :
  fst (runM (AgentE.performDiscovery w) p) = inr tt.
Proof.
  unfold AgentE.performDiscovery. rewrite runM_bind.
  pose proof (for_of_returns AgentE.portRange (AgentE.discover_port w) p
                discover_port_returns) as H.
  destruct (runM (for_of _ _) p) as [[e|[]] p']; [done|]. reflexivity.
Qed.

(** Discovery returns and counts nothing. *)
Lemma discover_if_empty_returns (p : proc (@AgentE.state Basic Lang)) :
  ∃ p', runM (AgentE.discover_if_empty w) p = (inr tt, p')
        ∧ handled_count (self p') = handled_count (self p).
Proof.
  pose proof (quiet_discover_if_empty w p) as (_ & _ & Hd & Hf).
  assert (Hr : fst (runM (AgentE.discover_if_empty w) p) = inr tt).
  { unfold AgentE.discover_if_empty. rewrite runM_bind. cbn [this runM].
    destruct (JsMap.size _ =? 0)%nat; [apply performDiscovery_returns|done]. }
  destruct (runM (AgentE.discover_if_empty w) p) as [r p'].
  simpl in *. subst r. exists p'. split; [done|].
  unfold handled_count. by rewrite Hd, Hf.
Qed.

(** What [const { k = dflt } = params] binds for an object [params]. *)
Definition member_or (fields : list (string * json)) (k : string) (dflt : json) : json :=
  let v := default JUndefined (assoc k fields) in
  match v with
  | JUndefined => dflt
  | _ => v
  end.

Lemma destructure_obj (fields : list (string * json)) (k : string) (dflt : json) :
  AgentE.destructure (JObj fields) k dflt = inr (member_or fields k dflt).
Proof. reflexivity. Qed.

(** [intelligentTextAnalysis] on an object with a non-empty string [text]:
    the basic analysis, discovery if the registry is empty, then the two
    blocks that were asked for. *)
Lemma intelligentTextAnalysis_run (fields : list (string * json)) (text : string)
    (p : proc (@AgentE.state Basic Lang)) :
  assoc "text" fields = Some (JStr text) -> text ≠ "" ->
  runM (AgentE.intelligentTextAnalysis analyzeTextBasic languageFallback w (JObj fields)) p
  = runM (AgentE.discover_if_empty w;;
          result ← (if truthy (member_or fields "include_sentiment" (JBool true))
                    then AgentE.analyse_sentiment w (JStr text)
                           {| AgentE.text_analysis := analyzeTextBasic text;
                              AgentE.delegation_used := false;
                              AgentE.agents_called := [];
                              AgentE.sentiment_analysis := None;
                              AgentE.language_detection := None;
                              AgentE.fallback_used := JUndefined |}
                    else mret {| AgentE.text_analysis := analyzeTextBasic text;
                                 AgentE.delegation_used := false;
                                 AgentE.agents_called := [];
                                 AgentE.sentiment_analysis := None;
                                 AgentE.language_detection := None;
                                 AgentE.fallback_used := JUndefined |});
          result ← (if truthy (member_or fields "include_language" (JBool true))
                    then AgentE.analyse_language languageFallback w (JStr text) result
                    else mret result);
          mret result) p.
Proof.
  intros Htext Hne. unfold AgentE.intelligentTextAnalysis.
  rewrite !destructure_obj.
  assert (member_or fields "text" JUndefined = JStr text) as Ht.
  { unfold member_or. by rewrite Htext. }
  rewrite runM_bind. cbn [lift runM]. rewrite Ht.
  assert (truthy (JStr text) = true) as Htr.
  { simpl. destruct (String.eqb text "") eqn:E; [|done].
    by apply String.eqb_eq in E. }
  rewrite !runM_bind. cbn [lift runM]. rewrite !runM_bind. cbn [lift runM].
  rewrite !runM_bind. cbn [lift runM]. rewrite Htr. cbn [negb].
  reflexivity.
Qed.

(** A request counts once for each capability it asks for. *)
Lemma intelligentTextAnalysis_counts (fields : list (string * json)) (text : string)
    (p : proc (@AgentE.state Basic Lang)) :
  assoc "text" fields = Some (JStr text) -> text ≠ "" ->
  ∃ r p',
    runM (AgentE.intelligentTextAnalysis analyzeTextBasic languageFallback w (JObj fields)) p
    = (inr r, p')
    ∧ handled_count (self p')
      = (handled_count (self p)
         + (if truthy (member_or fields "include_sentiment" (JBool true)) then 1 else 0)
         + (if truthy (member_or fields "include_language" (JBool true)) then 1 else 0))%nat.
Proof.
  intros Htext Hne. rewrite (intelligentTextAnalysis_run fields text p Htext Hne).
  rewrite runM_bind.
  destruct (discover_if_empty_returns p) as (p1 & -> & H1).
  rewrite runM_bind.
  destruct (truthy (member_or fields "include_sentiment" (JBool true))).
  - match goal with
    | |- context [runM (AgentE.analyse_sentiment w _ ?r0) p1] =>
        destruct (analyse_sentiment_counts text r0 p1) as (r2 & p2 & -> & H2)
    end.
    rewrite runM_bind.
    destruct (truthy (member_or fields "include_language" (JBool true))).
    + destruct (analyse_language_counts text r2 p2) as (r3 & p3 & -> & H3).
      eexists _, _. split; [reflexivity|]. lia.
    + eexists _, _. split; [reflexivity|]. cbn [mret M_ret runM snd]. lia.
  - cbn [mret M_ret runM]. rewrite runM_bind.
    destruct (truthy (member_or fields "include_language" (JBool true))).
    + match goal with
      | |- context [runM (AgentE.analyse_language _ w _ ?r0) p1] =>
          destruct (analyse_language_counts text r0 p1) as (r3 & p3 & -> & H3)
      end.
      eexists _, _. split; [reflexivity|]. lia.
    + eexists _, _. split; [reflexivity|]. cbn [mret M_ret runM snd]. lia.
Qed.

Lemma process_sentiment_counts (text : string) (result : AgentE.processing_result)
    (p : proc (@AgentE.state Basic Lang)) :
  ∃ r p', runM (AgentE.process_sentiment w (JStr text) result) p = (inr r, p')
          ∧ handled_count (self p') = S (handled_count (self p)).
Proof.
  unfold AgentE.process_sentiment, handled_count. rewrite runM_bind. cbn [this runM].
  destruct (AgentE.findAgentByType "sentiment-analyzer" (self p)) as [agent|].
  - unfold try_catch. cbn [runM]. rewrite runM_bind.
    destruct (delegateToAgent_spec w agent "sentiment_analysis"
                (JObj [("text", JStr text)]) p) as (r & p' & Hrun & Hself & _).
    rewrite Hrun. destruct r; eexists _, _; (split; [reflexivity|]);
      cbn; rewrite Hself; cbn; lia.
  - eexists _, _. split; [reflexivity|]. cbn. lia.
Qed.

Lemma process_language_counts (text : string) (result : AgentE.processing_result)
    (p : proc (@AgentE.state Basic Lang)) :
  ∃ r p', runM (AgentE.process_language languageFallback w (JStr text) result) p
          = (inr r, p')
          ∧ handled_count (self p') = S (handled_count (self p)).
Proof.
  unfold AgentE.process_language, handled_count. rewrite runM_bind. cbn [this runM].
  destruct (AgentE.findAgentByType "language-detector" (self p)) as [agent|].
  - unfold try_catch. cbn [runM]. rewrite runM_bind.
    destruct (delegateToAgent_spec w agent "language_detection"
                (JObj [("text", JStr text)]) p) as (r & p' & Hrun & Hself & _).
    rewrite Hrun. destruct r; eexists _, _; (split; [reflexivity|]);
      cbn; rewrite Hself; cbn; lia.
  - eexists _, _. split; [reflexivity|]. cbn. lia.
Qed.

(** The operations of [smartTextProcessing] that are routed to an agent. *)
Definition routed_operation (operation : json) : bool :=
  is_str operation "sentiment" || is_str operation "language".

Lemma process_operation_counts (text : string) (result : AgentE.processing_result)
    (operation : json) (p : proc (@AgentE.state Basic Lang)) :
  ∃ r p',
    runM (AgentE.process_operation analyzeTextBasic languageFallback w (JStr text)
            result operation) p = (inr r, p')
    ∧ handled_count (self p')
      = (handled_count (self p) + if routed_operation operation then 1 else 0)%nat.
Proof.
  unfold AgentE.process_operation, routed_operation.
  destruct (is_str operation "analyze") eqn:Ea.
  - destruct operation as [| | | |s| |]; try done. simpl in Ea.
    apply String.eqb_eq in Ea as ->.
    eexists _, _. split; [reflexivity|]. simpl. lia.
  - destruct (is_str operation "sentiment") eqn:Es.
    + rewrite runM_bind.
      destruct (process_sentiment_counts text result p) as (r & p' & -> & H).
      eexists _, _. split; [reflexivity|]. cbn [mret M_ret runM snd orb]. lia.
    + destruct (is_str operation "language") eqn:El.
      * rewrite runM_bind.
        destruct (process_language_counts text result p) as (r & p' & -> & H).
        eexists _, _. split; [reflexivity|]. cbn [mret M_ret runM snd orb]. lia.
      * eexists _, _. split; [reflexivity|]. cbn [mret M_ret runM snd orb]. lia.
Qed.

Lemma process_operations_counts (text : string) (operations : list json) :
  ∀ (result : AgentE.processing_result) (p : proc (@AgentE.state Basic Lang)),
  ∃ r p',
    runM (AgentE.process_operations analyzeTextBasic languageFallback w (JStr text)
            result operations) p = (inr r, p')
    ∧ handled_count (self p')
      = (handled_count (self p) + List.length (List.filter routed_operation operations))%nat.
Proof.
  induction operations as [|op ops IH]; intros result p.
  - eexists _, _. split; [reflexivity|]. simpl. lia.
  - cbn [AgentE.process_operations]. rewrite runM_bind.
    destruct (process_operation_counts text result op p) as (r1 & p1 & -> & H1).
    destruct (IH r1 p1) as (r2 & p2 & -> & H2).
    eexists _, _. split; [reflexivity|].
    simpl. destruct (routed_operation op); simpl; lia.
Qed.

(** [smartTextProcessing] counts once for each routed operation of its
    list. *)
Lemma smartTextProcessing_counts (fields : list (string * json)) (text : string)
    (operations : list json) (p : proc (@AgentE.state Basic Lang)) :
  assoc "text" fields = Some (JStr text) -> text ≠ "" ->
  AgentE.iterate (member_or fields "operations"
                    (JArr [JStr "analyze"; JStr "sentiment"; JStr "language"]))
  = inr operations ->
  ∃ r p',
    runM (AgentE.smartTextProcessing analyzeTextBasic languageFallback w (JObj fields)) p
    = (inr r, p')
    ∧ handled_count (self p')
      = (handled_count (self p) + List.length (List.filter routed_operation operations))%nat.
Proof.
  intros Htext Hne Hops. unfold AgentE.smartTextProcessing.
  rewrite !destructure_obj.
  assert (member_or fields "text" JUndefined = JStr text) as Ht.
  { unfold member_or. by rewrite Htext. }
  assert (truthy (JStr text) = true) as Htr.
  { simpl. destruct (String.eqb text "") eqn:E; [|done].
    by apply String.eqb_eq in E. }
  rewrite runM_bind. cbn [lift runM]. rewrite Ht.
  rewrite runM_bind. cbn [lift runM]. rewrite Htr. cbn [negb].
  rewrite runM_bind.
  destruct (discover_if_empty_returns p) as (p1 & -> & H1).
  rewrite runM_bind. cbn [lift runM]. rewrite Hops.
  match goal with
  | |- context [runM (AgentE.process_operations _ _ _ _ ?r0 _) p1] =>
      destruct (process_operations_counts text operations r0 p1) as (r & p' & -> & H)
  end.
  eexists _, _. split; [reflexivity|]. lia.
Qed.
End AgentE_routing.

Lemma sentimentFallback_label (text : string) :
  AgentE.sentiment (AgentE.sentimentFallback text) = "positive"
  ∨ AgentE.sentiment (AgentE.sentimentFallback text) = "negative"
  ∨ AgentE.sentiment (AgentE.sentimentFallback text) = "neutral".
Proof.
  unfold AgentE.sentimentFallback.
  destruct (_ <? _)%nat; [by left|].
  destruct (_ <? _)%nat; [by right; left|by right; right].
Qed.

(** A network on which nothing answers. *)
Definition nobody_home : world :=
  {| get_json := fun _ _ => (1, Failure "connect ECONNREFUSED");
     get_card := fun _ _ => (1, Failure "connect ECONNREFUSED");
     post_rpc := fun _ _ _ => (1, Failure "connect ECONNREFUSED") |}.

(** Local text functions for concrete runs. *)
Definition sample_basic (text : string) : nat := String.length text.
Definition sample_language (text : string) : string := "english".

(** One routing counted once.  [attempt] is what the delegation gave, if an
    agent of the required type was registered: when it returned, the
    delegations counter went up by one and the fallbacks counter stayed; when
    no agent was registered, or the delegation threw, the local fallback ran
    and the fallbacks counter went up by one, the delegations counter
    staying. *)
Definition counted_once {Basic Lang : Type} (attempt : option (js_error + json))
    (s s' : @AgentE.state Basic Lang) : Prop :=
  match attempt with
  | Some (inr _) =>
      AgentE.delegationCount s' = S (AgentE.delegationCount s)
      ∧ AgentE.fallbackCount s' = AgentE.fallbackCount s
  | Some (inl _) | None =>
      AgentE.fallbackCount s' = S (AgentE.fallbackCount s)
      ∧ AgentE.delegationCount s' = AgentE.delegationCount s
  end.

(** C4: every routing counts exactly once.  Agent E routes a capability
    (sentiment, language) at four places, the two blocks of
    [intelligentTextAnalysis] and the two arms of [smartTextProcessing]; at
    each of them, when no agent of the required type is registered the local
    fallback runs and [fallbacks] goes up by exactly one, and when one is
    registered and the delegation succeeds [delegations] goes up by exactly
    one, the other counter staying as it was.  A request that routes one
    capability therefore moves the counters by one in all, and a request that
    routes several, by one for each. *)
Theorem routing_counts_once_per_capability :
  ∀ (Basic Lang : Type) (analyzeTextBasic : string -> Basic)
    (languageFallback : string -> Lang) (w : world),
    (∀ (text : string) (result : AgentE.analysis_result)
       (p : proc (@AgentE.state Basic Lang)),
       counted_once
         ((fun agent => fst (runM (AgentE.delegateToAgent w agent "sentiment_analysis"
                                     (JObj [("text", JStr text)])) p))
            <$> AgentE.findAgentByType "sentiment-analyzer" (self p))
         (self p)
         (self (snd (runM (AgentE.analyse_sentiment w (JStr text) result) p))))
    ∧ (∀ (text : string) (result : AgentE.analysis_result)
         (p : proc (@AgentE.state Basic Lang)),
         counted_once
           ((fun agent => fst (runM (AgentE.delegateToAgent w agent "language_detection"
                                       (JObj [("text", JStr text)])) p))
              <$> AgentE.findAgentByType "language-detector" (self p))
           (self p)
           (self (snd (runM (AgentE.analyse_language languageFallback w
                               (JStr text) result) p))))
    ∧ (∀ (text : string) (result : AgentE.processing_result)
         (p : proc (@AgentE.state Basic Lang)),
         counted_once
           ((fun agent => fst (runM (AgentE.delegateToAgent w agent "sentiment_analysis"
                                       (JObj [("text", JStr text)])) p))
              <$> AgentE.findAgentByType "sentiment-analyzer" (self p))
           (self p)
           (self (snd (runM (AgentE.process_sentiment w (JStr text) result) p))))
    ∧ (∀ (text : string) (result : AgentE.processing_result)
         (p : proc (@AgentE.state Basic Lang)),
         counted_once
           ((fun agent => fst (runM (AgentE.delegateToAgent w agent "language_detection"
                                       (JObj [("text", JStr text)])) p))
              <$> AgentE.findAgentByType "language-detector" (self p))
           (self p)
           (self (snd (runM (AgentE.process_language languageFallback w
                               (JStr text) result) p))))
    ∧ (∀ (fields : list (string * json)) (text : string)
         (p : proc (@AgentE.state Basic Lang)),
         assoc "text" fields = Some (JStr text) -> text ≠ "" ->
         ∃ r p',
           runM (AgentE.intelligentTextAnalysis analyzeTextBasic languageFallback w
                   (JObj fields)) p = (inr r, p')
           ∧ handled_count (self p')
             = (handled_count (self p)
                + (if truthy (member_or fields "include_sentiment" (JBool true))
                   then 1 else 0)
                + (if truthy (member_or fields "include_language" (JBool true))
                   then 1 else 0))%nat)
    ∧ (∀ (fields : list (string * json)) (text : string) (operations : list json)
         (p : proc (@AgentE.state Basic Lang)),
         assoc "text" fields = Some (JStr text) -> text ≠ "" ->
         AgentE.iterate (member_or fields "operations"
                           (JArr [JStr "analyze"; JStr "sentiment"; JStr "language"]))
         = inr operations ->
         ∃ r p',
           runM (AgentE.smartTextProcessing analyzeTextBasic languageFallback w
                   (JObj fields)) p = (inr r, p')
           ∧ handled_count (self p')
             = (handled_count (self p)
                + List.length (List.filter routed_operation operations))%nat).
Proof.
  intros Basic Lang analyzeTextBasic languageFallback w. split_and!.
  - intros text result p. rewrite analyse_sentiment_spec.
    destruct (AgentE.findAgentByType "sentiment-analyzer" (self p)) as [agent|]; [|done].
    cbn [fmap option_fmap option_map].
    destruct (delegateToAgent_spec w agent "sentiment_analysis"
                (JObj [("text", JStr text)]) p) as (r & p' & Hrun & Hself & _).
    rewrite Hrun. destruct r; cbn; by rewrite Hself.
  - intros text result p. rewrite analyse_language_spec.
    destruct (AgentE.findAgentByType "language-detector" (self p)) as [agent|]; [|done].
    cbn [fmap option_fmap option_map].
    destruct (delegateToAgent_spec w agent "language_detection"
                (JObj [("text", JStr text)]) p) as (r & p' & Hrun & Hself & _).
    rewrite Hrun. destruct r; cbn; by rewrite Hself.
  - intros text result p. unfold AgentE.process_sentiment.
    rewrite runM_bind. cbn [this runM].
    destruct (AgentE.findAgentByType "sentiment-analyzer" (self p)) as [agent|]; [|done].
    cbn [fmap option_fmap option_map].
    unfold try_catch. cbn [runM]. rewrite runM_bind.
    destruct (delegateToAgent_spec w agent "sentiment_analysis"
                (JObj [("text", JStr text)]) p) as (r & p' & Hrun & Hself & _).
    rewrite Hrun. destruct r; cbn; by rewrite Hself.
  - intros text result p. unfold AgentE.process_language.
    rewrite runM_bind. cbn [this runM].
    destruct (AgentE.findAgentByType "language-detector" (self p)) as [agent|]; [|done].
    cbn [fmap option_fmap option_map].
    unfold try_catch. cbn [runM]. rewrite runM_bind.
    destruct (delegateToAgent_spec w agent "language_detection"
                (JObj [("text", JStr text)]) p) as (r & p' & Hrun & Hself & _).
    rewrite Hrun. destruct r; cbn; by rewrite Hself.
  - intros fields text p Htext Hne. by eapply intelligentTextAnalysis_counts.
  - intros fields text operations p Htext Hne Hops.
    by eapply smartTextProcessing_counts.
Qed.

(** C4 at a concrete request: an analysis of "x" that asks for the sentiment
    only, with nobody to delegate to, counts once. *)
Lemma routing_counts_once_per_capability_witness :
  ∃ r p',
    runM (AgentE.intelligentTextAnalysis sample_basic sample_language nobody_home
            (JObj [("text", JStr "x"); ("include_language", JBool false)]))
         (Proc 0 (AgentE.init 4005) [])
    = (inr r, p')
    ∧ handled_count (self p') = 1%nat.
Proof.
  exact (proj1 (proj2 (proj2 (proj2 (proj2
           (routing_counts_once_per_capability nat string sample_basic
              sample_language nobody_home)))))
           [("text", JStr "x"); ("include_language", JBool false)] "x"
           (Proc 0 (AgentE.init 4005) []) eq_refl ltac:(discriminate)).
Defined.

(** C6 (amended): when no agent of type sentiment-analyzer is registered
    (after the discovery pass an empty registry triggers), a request with a
    non-empty text that asks for sentiment succeeds through the local
    fallback: the result holds the fallback's sentiment, whose label is
    positive, negative or neutral, and [fallback_used] is the string
    "sentiment", or the array ["sentiment", "language"] when the language
    fallback ran too; it is never the boolean [true]. *)
Theorem sentiment_falls_back_locally :
  ∀ (Basic Lang : Type) (analyzeTextBasic : string -> Basic)
    (languageFallback : string -> Lang) (w : world)
    (fields : list (string * json)) (text : string)
    (p : proc (@AgentE.state Basic Lang)),
    assoc "text" fields = Some (JStr text) -> text ≠ "" ->
    truthy (member_or fields "include_sentiment" (JBool true)) = true ->
    AgentE.findAgentByType "sentiment-analyzer"
      (self (snd (runM (AgentE.discover_if_empty w) p))) = None ->
    ∃ r p',
      runM (AgentE.intelligentTextAnalysis analyzeTextBasic languageFallback w
              (JObj fields)) p = (inr r, p')
      ∧ AgentE.sentiment_analysis r = Some (AgentE.Fallback (AgentE.sentimentFallback text))
      ∧ (AgentE.sentiment (AgentE.sentimentFallback text) = "positive"
         ∨ AgentE.sentiment (AgentE.sentimentFallback text) = "negative"
         ∨ AgentE.sentiment (AgentE.sentimentFallback text) = "neutral")
      ∧ (AgentE.fallback_used r = JStr "sentiment"
         ∨ AgentE.fallback_used r = JArr [JStr "sentiment"; JStr "language"])
      ∧ is_true (AgentE.fallback_used r) = false.
Proof.
  intros Basic Lang analyzeTextBasic languageFallback w fields text p Htext Hne Hinc Hnone.
  rewrite (intelligentTextAnalysis_run analyzeTextBasic languageFallback w fields text p
             Htext Hne).
  rewrite runM_bind.
  destruct (discover_if_empty_returns w p) as (p1 & Hd & _).
  rewrite Hd in Hnone |- *. cbn [snd] in Hnone.
  rewrite runM_bind, Hinc, analyse_sentiment_spec, Hnone.
  rewrite runM_bind.
  destruct (truthy (member_or fields "include_language" (JBool true))).
  - rewrite analyse_language_spec.
    destruct (AgentE.findAgentByType "language-detector" _) as [agent|].
    + destruct (runM (AgentE.delegateToAgent w agent _ _) _) as [[e|v] p2];
        (eexists _, _; split; [reflexivity|]); cbn;
        (split; [done|]); (split; [apply sentimentFallback_label|]); split; auto.
    + eexists _, _. split; [reflexivity|]. cbn.
      split; [done|]. split; [apply sentimentFallback_label|]. split; auto.
  - eexists _, _. split; [reflexivity|]. cbn.
    split; [done|]. split; [apply sentimentFallback_label|]. split; auto.
Qed.

(** C6 at a concrete request: text "x", language not asked for, nobody to
    delegate to. *)
Lemma sentiment_falls_back_locally_witness :
  ∃ r p',
    runM (AgentE.intelligentTextAnalysis sample_basic sample_language nobody_home
            (JObj [("text", JStr "x"); ("include_language", JBool false)]))
         (Proc 0 (AgentE.init 4005) [])
    = (inr r, p')
    ∧ AgentE.sentiment_analysis r = Some (AgentE.Fallback (AgentE.sentimentFallback "x"))
    ∧ (AgentE.sentiment (AgentE.sentimentFallback "x") = "positive"
       ∨ AgentE.sentiment (AgentE.sentimentFallback "x") = "negative"
       ∨ AgentE.sentiment (AgentE.sentimentFallback "x") = "neutral")
    ∧ (AgentE.fallback_used r = JStr "sentiment"
       ∨ AgentE.fallback_used r = JArr [JStr "sentiment"; JStr "language"])
    ∧ is_true (AgentE.fallback_used r) = false.
Proof.
  exact (sentiment_falls_back_locally nat string sample_basic sample_language nobody_home
           [("text", JStr "x"); ("include_language", JBool false)] "x"
           (Proc 0 (AgentE.init 4005) []) eq_refl ltac:(discriminate) eq_refl eq_refl).
Defined.

(** C6 as stated fails: with no agent registered, the result of the
    sentiment request for "x" has the label "neutral" and
    [fallback_used: "sentiment"], a string and not the boolean [true]. *)
Lemma fallback_used_is_not_true :
  let out := fst (runM (AgentE.intelligentTextAnalysis sample_basic sample_language
                          nobody_home
                          (JObj [("text", JStr "x"); ("include_language", JBool false)]))
                       (Proc 0 (AgentE.init 4005) [])) in
  AgentE.fallback_used <$> out = inr (JStr "sentiment")
  ∧ AgentE.fallback_used <$> out ≠ inr (JBool true)
  ∧ (λ r, AgentE.sentiment <$> match AgentE.sentiment_analysis r with
                               | Some (AgentE.Fallback f) => Some f
                               | _ => None
                               end) <$> out
    = inr (Some "neutral").
Proof. vm_compute. split_and!; [reflexivity|discriminate|reflexivity]. Qed.

(** C9 (amended): a delegation is bounded, and the ceiling of its wait is
    tested where a poll is about to be sent.  The acceptance call is given up
    after 5 s and each poll after 2 s.  [waitForTaskCompletion] (ceiling 10 s)
    sends a poll only while less than 10 s have passed since it began, and
    the answer of a poll sent in time counts even when it arrives after the
    ceiling: the wait returns a value only as the result of the completed
    task its last poll found, at the moment that answer arrived.  In every
    other case it throws "Task <id> timeout", so when no poll sent before the
    ceiling finds the task completed the delegation has failed for good.  The
    wait ends at most 12.5 s after it began and a delegation at most 17.5 s.
    A delegation whose request was accepted with a task id is that wait, and
    throws what it throws.
    When the delegation throws (on the ceiling as on any other failure) the
    sentiment and language blocks run the local fallback at once: they return
    its result, count one fallback, and the process is otherwise as the failed
    delegation left it (nothing more is sent). *)
Theorem delegation_is_bounded_and_falls_back :
  ∀ (Basic Lang : Type) (languageFallback : string -> Lang) (w : world),
    (∀ (url : string) (taskId : json) (p : proc (@AgentE.state Basic Lang)),
       let target := url ++ "/task/" ++ js_String taskId in
       let timeout := Error ("Task " ++ js_String taskId ++ " timeout") in
       let out := runM (AgentE.waitForTaskCompletion w url taskId 10000) p in
       fst (runM (AgentE.poll w (AgentE.poll_fuel 10000) url taskId (now p) 10000) p)
       ≠ inr AgentE.Exhausted
       ∧ now (snd out) <= now p + 12500
       ∧ (∃ l, calls (snd out) = (calls p ++ l)%list
               ∧ Forall (fun c => ∃ t, c = GET target t ∧ now p <= t < now p + 10000) l)
       ∧ (∀ v, fst out = inr v ->
            ∃ t, now p <= t < now p + 10000
                 ∧ last (calls (snd out)) = Some (GET target t)
                 ∧ completed_result (snd (poll_answer w target t)) = Some v
                 ∧ now (snd out) = t + fst (poll_answer w target t))
       ∧ (∀ e, fst out = inl e -> e = timeout)
       ∧ ((∀ t, now p <= t < now p + 10000
                -> completed_result (snd (poll_answer w target t)) = None)
          -> fst out = inl timeout))
    ∧ (∀ (agent : AgentE.descriptor) (method : string) (params : json)
         (p : proc (@AgentE.state Basic Lang)),
         now (snd (runM (AgentE.delegateToAgent w agent method params) p))
         <= now p + 17500)
    ∧ (∀ (agent : AgentE.descriptor) (text : string) (result : AgentE.analysis_result)
         (p q : proc (@AgentE.state Basic Lang)) (e : js_error),
         AgentE.findAgentByType "sentiment-analyzer" (self p) = Some agent ->
         runM (AgentE.delegateToAgent w agent "sentiment_analysis"
                 (JObj [("text", JStr text)])) p = (inl e, q) ->
         runM (AgentE.analyse_sentiment w (JStr text) result) p
         = (inr (AgentE.sentiment_fallback (AgentE.sentimentFallback text) result),
            with_self AgentE.incr_fallbackCount q))
    ∧ (∀ (agent : AgentE.descriptor) (text : string) (result : AgentE.analysis_result)
         (p q : proc (@AgentE.state Basic Lang)) (e : js_error),
         AgentE.findAgentByType "language-detector" (self p) = Some agent ->
         runM (AgentE.delegateToAgent w agent "language_detection"
                 (JObj [("text", JStr text)])) p = (inl e, q) ->
         runM (AgentE.analyse_language languageFallback w (JStr text) result) p
         = (inr (AgentE.language_fallback (languageFallback text) result),
            with_self AgentE.incr_fallbackCount q))
    ∧ (∀ (agent : AgentE.descriptor) (method : string) (params response e res : json)
         (p : proc (@AgentE.state Basic Lang)),
         snd (within (Some 5000)
                (post_rpc w (AgentE.d_url agent ++ "/rpc")
                   {| req_jsonrpc := JStr "2.0"; req_method := JStr method;
                      req_params := params;
                      req_id := JStr (uuidv4 (AgentE.uuids (self p))) |} (now p)))
         = Reply response ->
         js_get response "error" = inr e -> truthy e = false ->
         js_get response "result" = inr res ->
         truthy (js_get_opt res "task_id") = true ->
         ∃ q, now q <= now p + 5000
              ∧ runM (AgentE.delegateToAgent w agent method params) p
                = runM (AgentE.waitForTaskCompletion w (AgentE.d_url agent)
                          (js_get_opt res "task_id") 10000) q).
Proof.
  intros Basic Lang languageFallback w. split_and!.
  - intros url taskId p target timeout out. split; [apply poll_never_exhausted|].
    subst out.
    destruct (waitForTaskCompletion_spec w url taskId 10000 p)
      as (r & p' & Hrun & _ & _ & Ht).
    destruct (wait_trace w url taskId 10000 p) as (value & p'' & l & Hrun' & Hcalls & Hend).
    rewrite Hrun in Hrun'. injection Hrun' as -> <-. rewrite Hrun. cbn [fst snd].
    fold target in Hend. fold timeout.
    split; [lia|].
    assert (Hin : ∀ c, asked_in_vain w target (now p) (now p + 10000) c ->
                       ∃ t, c = GET target t ∧ now p <= t < now p + 10000).
    { intros c (t & -> & Hr & _). by exists t. }
    destruct Hend as [(l0 & t & -> & HF & Hr & Hs & Hv & Hf)|(HF & -> & Hf)].
    + split_and!.
      * exists (l0 ++ [GET target t])%list. split; [done|].
        apply Forall_app. split; [by eapply Forall_impl|].
        repeat constructor. by exists t.
      * intros v Hv'. exists t. rewrite Hcalls, app_assoc, last_snoc.
        split_and!; [lia|lia|done| |done].
        destruct value as [v'|]; [|done]. injection Hv' as ->. done.
      * intros e He. destruct value; [done|]. by injection He as <-.
      * intros Hnone. rewrite (Hnone t Hr) in Hv. by subst value.
    + split_and!.
      * exists l. split; [done|]. by eapply Forall_impl.
      * intros v Hv. done.
      * intros e He. by injection He as <-.
      * done.
  - intros agent method params p.
    destruct (delegateToAgent_spec w agent method params p) as (r & p' & Hrun & _ & Ht).
    rewrite Hrun. cbn [snd]. lia.
  - intros agent text result p q e Hfind Hrun.
    by rewrite analyse_sentiment_spec, Hfind, Hrun.
  - intros agent text result p q e Hfind Hrun.
    by rewrite analyse_language_spec, Hfind, Hrun.
  - intros agent method params response e res p Hpost He Hfalse Hres Hid.
    unfold AgentE.delegateToAgent, AgentE.draw_uuid, axios_post.
    pose proof (within_le 5000 (post_rpc w (AgentE.d_url agent ++ "/rpc")
      {| req_jsonrpc := JStr "2.0"; req_method := JStr method; req_params := params;
         req_id := JStr (uuidv4 (AgentE.uuids (self p))) |} (now p))) as Hlat.
    run_m. rewrite Hpost. run_m. rewrite He. run_m. rewrite Hfalse. run_m.
    rewrite Hres. run_m. rewrite Hid.
    eexists. split; [|reflexivity]. run_m. lia.
Qed.

(** A network where agent C (port 4003) accepts a task and never finishes
    it. *)
Definition never_done : world :=
  {| get_json := fun url _ =>
       if String.eqb url "http://localhost:4003/status"
       then (2, Reply (JObj [("status", JStr "ok")]))
       else if String.eqb url "http://localhost:4003/task/t-1"
       then (2, Reply (JObj [("id", JStr "t-1"); ("status", JStr "processing")]))
       else (2, Failure "connect ECONNREFUSED");
     get_card := fun url _ =>
       if String.eqb url "http://localhost:4003/agent-card"
       then (2, Reply {| card_id := "sentiment-analyzer-agent-c";
                         card_name := JStr "Agent C - Sentiment Analyzer";
                         card_type := JStr "sentiment-analyzer";
                         card_capabilities := JArr [] |})
       else (2, Failure "connect ECONNREFUSED");
     post_rpc := fun url body _ =>
       if String.eqb url "http://localhost:4003/rpc"
       then (2, Reply (JObj [("jsonrpc", JStr "2.0");
                             ("result", JObj [("task_id", JStr "t-1");
                                              ("status", JStr "accepted")]);
                             ("id", req_id body)]))
       else (2, Failure "connect ECONNREFUSED") |}.

(** Agent E after one discovery pass on that network. *)
Definition agent_c_known : proc (@AgentE.state nat string) :=
  snd (runM (AgentE.performDiscovery never_done) (Proc 0 (AgentE.init 4005) [])).

Definition agent_c : AgentE.descriptor :=
  {| AgentE.d_id := "sentiment-analyzer-agent-c";
     AgentE.d_name := JStr "Agent C - Sentiment Analyzer";
     AgentE.d_type := JStr "sentiment-analyzer";
     AgentE.d_url := "http://localhost:4003";
     AgentE.d_capabilities := JArr [];
     AgentE.d_last_seen := 8;
     AgentE.d_card := {| card_id := "sentiment-analyzer-agent-c";
                         card_name := JStr "Agent C - Sentiment Analyzer";
                         card_type := JStr "sentiment-analyzer";
                         card_capabilities := JArr [] |} |}.

Definition empty_result : @AgentE.analysis_result nat string :=
  {| AgentE.text_analysis := 1%nat; AgentE.delegation_used := false;
     AgentE.agents_called := []; AgentE.sentiment_analysis := None;
     AgentE.language_detection := None; AgentE.fallback_used := JUndefined |}.

(** C9 at a concrete run: agent C never finishes, the delegation throws its
    timeout, and the sentiment block falls back. *)
Lemma delegation_is_bounded_and_falls_back_witness :
  runM (AgentE.analyse_sentiment never_done (JStr "x") empty_result) agent_c_known
  = (inr (AgentE.sentiment_fallback (AgentE.sentimentFallback "x") empty_result),
     with_self AgentE.incr_fallbackCount
       (snd (runM (AgentE.delegateToAgent never_done agent_c "sentiment_analysis"
                     (JObj [("text", JStr "x")])) agent_c_known))).
Proof.
  apply (proj1 (proj2 (proj2 (delegation_is_bounded_and_falls_back nat string
                                sample_language never_done)))
           agent_c "x" empty_result agent_c_known _ (Error "Task t-1 timeout")).
  - vm_compute. reflexivity.
  - vm_compute. reflexivity.
Defined.

(** A network where agent C (port 4003) accepts a task and reports it as
    processing until 9600 ms; from then on it reports it as completed, taking
    1999 ms to answer. *)
Definition late_answer : world :=
  {| get_json := fun url t =>
       if String.eqb url "http://localhost:4003/status"
       then (2, Reply (JObj [("status", JStr "ok")]))
       else if String.eqb url "http://localhost:4003/task/t-1"
       then if t <? 9600
            then (5, Reply (JObj [("id", JStr "t-1"); ("status", JStr "processing")]))
            else (1999, Reply (JObj [("id", JStr "t-1"); ("status", JStr "completed");
                                     ("result", JObj [("sentiment", JStr "positive")])]))
       else (2, Failure "connect ECONNREFUSED");
     get_card := fun url _ =>
       if String.eqb url "http://localhost:4003/agent-card"
       then (2, Reply {| card_id := "sentiment-analyzer-agent-c";
                         card_name := JStr "Agent C - Sentiment Analyzer";
                         card_type := JStr "sentiment-analyzer";
                         card_capabilities := JArr [] |})
       else (2, Failure "connect ECONNREFUSED");
     post_rpc := fun url body _ =>
       if String.eqb url "http://localhost:4003/rpc"
       then (2, Reply (JObj [("jsonrpc", JStr "2.0");
                             ("result", JObj [("task_id", JStr "t-1");
                                              ("status", JStr "accepted")]);
                             ("id", req_id body)]))
       else (2, Failure "connect ECONNREFUSED") |}.

Definition is_poll_of_t1 (c : call) : bool :=
  match c with
  | GET url _ => String.eqb url "http://localhost:4003/task/t-1"
  | POST _ _ _ => false
  end.

(** C9 as stated fails: a delegation that exceeds the ceiling is not always
    a failure.  Agent E, freshly started, is asked for the sentiment of "x" on
    that network.  Its wait begins at 12 ms with the first poll; the poll sent
    at 9607 ms, before the ceiling, is answered at 11606 ms, 11594 ms after
    the wait began and so 1594 ms past the ceiling of 10 s: the wait returns
    the result, the request carries the remote sentiment, and no fallback is
    invoked or counted. *)
Lemma delegation_succeeds_past_the_ceiling :
  let out := runM (AgentE.intelligentTextAnalysis sample_basic sample_language
                     late_answer
                     (JObj [("text", JStr "x"); ("include_language", JBool false)]))
                  (Proc 0 (AgentE.init 4005) []) in
  let wait := runM (AgentE.waitForTaskCompletion late_answer "http://localhost:4003"
                      (JStr "t-1") 10000)
                   (Proc 12 (@AgentE.init nat string 4005) []) in
  List.find is_poll_of_t1 (calls (snd out))
  = Some (GET "http://localhost:4003/task/t-1" 12)
  ∧ last (calls (snd out)) = Some (GET "http://localhost:4003/task/t-1" 9607)
  ∧ now (snd out) = 11606
  ∧ 12 + 10000 < now (snd out)
  ∧ AgentE.sentiment_analysis <$> fst out
    = inr (Some (AgentE.Delegated (JObj [("sentiment", JStr "positive")])))
  ∧ AgentE.fallback_used <$> fst out = inr JUndefined
  ∧ AgentE.fallbackCount (self (snd out)) = 0%nat
  ∧ AgentE.delegationCount (self (snd out)) = 1%nat
  ∧ fst wait = inr (JObj [("sentiment", JStr "positive")])
  ∧ now (snd wait) = 12 + 11594.
Proof. vm_compute. split_and!; reflexivity. Qed.

(* ===================================================================== *)

(* ===================================================================== *)
(** * Registries: replaying a discovery pass *)
(* ===================================================================== *)

(** What a discovery pass does to a registry, one candidate address at a
    time: it records a descriptor, prunes by a test, or leaves it alone. *)
Inductive action (K V : Type) : Type :=
| ASet (k : K) (v : V)
| AFilter (keep : V -> bool)
| ANop.
Arguments ASet {K V}.
Arguments AFilter {K V}.
Arguments ANop {K V}.

Section replay.
Context {K V : Type} (eqb : K -> K -> bool).
Context (eqb_spec : ∀ x y, eqb x y = true ↔ x = y).

Definition apply_action (a : action K V) (m : list (K * V)) : list (K * V) :=
  match a with
  | ASet k v => JsMap.set eqb k v m
  | AFilter keep => List.filter (fun e => keep (snd e)) m
  | ANop => m
  end.

Definition replay (acts : list (action K V)) (m : list (K * V)) : list (K * V) :=
  fold_left (fun m a => apply_action a m) acts m.





(** A map in which the pass has nothing left to add or prune: recording
    rewrites the recorded keys where they are. *)


Lemma eqb_refl' (k : K) : eqb k k = true.
Proof. by apply eqb_spec. Qed.

Lemma eqb_ne (k k' : K) : k ≠ k' -> eqb k k' = false.
Proof. intros H. apply not_true_is_false. by intros ?%eqb_spec. Qed.

Lemma get_set_eq (k : K) (v : V) (m : list (K * V)) :
  JsMap.get eqb k (JsMap.set eqb k v m) = Some v.
Proof.
  unfold JsMap.get. induction m as [|[k0 v0] m IH]; simpl.
  - by rewrite eqb_refl'.
  - destruct (eqb k k0) eqn:E; simpl; [by rewrite eqb_refl'|by rewrite E].
Qed.

Lemma get_set_ne (k k' : K) (v : V) (m : list (K * V)) :
  k ≠ k' -> JsMap.get eqb k (JsMap.set eqb k' v m) = JsMap.get eqb k m.
Proof.
  intros Hne. unfold JsMap.get. induction m as [|[k0 v0] m IH]; simpl.
  - by rewrite eqb_ne.
  - destruct (eqb k' k0) eqn:E; simpl.
    + apply eqb_spec in E as <-. by rewrite eqb_ne.
    + destruct (eqb k k0); [done|apply IH].
Qed.

Lemma get_filter (keep : V -> bool) (k : K) (v : V) (m : list (K * V)) :
  JsMap.get eqb k m = Some v -> keep v = true ->
  JsMap.get eqb k (List.filter (fun e => keep (snd e)) m) = Some v.
Proof.
  unfold JsMap.get. induction m as [|[k0 v0] m IH]; simpl; [done|].
  destruct (eqb k k0) eqn:E; simpl.
  - intros [= ->] Hk. rewrite Hk. simpl. by rewrite E.
  - intros H Hk. destruct (keep v0); simpl; rewrite ?E; by apply IH.
Qed.

Lemma get_In (k : K) (v : V) (m : list (K * V)) :
  JsMap.get eqb k m = Some v -> In (k, v) m.
Proof.
  unfold JsMap.get. induction m as [|[k0 v0] m IH]; simpl; [done|].
  destruct (eqb k k0) eqn:E; simpl.
  - apply eqb_spec in E as <-. intros [= ->]. by left.
  - intros H. right. by apply IH.
Qed.

Lemma In_get (k : K) (v : V) (m : list (K * V)) :
  List.NoDup (map fst m) -> In (k, v) m -> JsMap.get eqb k m = Some v.
Proof.
  unfold JsMap.get. induction m as [|[k0 v0] m IH]; simpl; [done|].
  intros Hnd [[= -> ->]|Hin].
  - by rewrite eqb_refl'.
  - inversion Hnd as [|? ? Hk0 Hnd']; subst.
    rewrite eqb_ne; [by apply IH|].
    intros <-. apply Hk0. by apply (in_map fst) in Hin.
Qed.


Lemma keys_set (k : K) (v : V) (m : list (K * V)) :
  map fst (JsMap.set eqb k v m) =
  if JsMap.has eqb k m then map fst m else (map fst m ++ [k])%list.
Proof.
  unfold JsMap.has. induction m as [|[k0 v0] m IH]; simpl; [done|].
  destruct (eqb k k0) eqn:E; simpl.
  - by apply eqb_spec in E as <-.
  - rewrite IH. by destruct (existsb _ m).
Qed.

Lemma has_In (k : K) (m : list (K * V)) :
  JsMap.has eqb k m = true ↔ In k (map fst m).
Proof.
  unfold JsMap.has. rewrite existsb_exists, in_map_iff. split.
  - intros (e & He & ->%eqb_spec). by exists e.
  - intros (e & <- & He). exists e. by rewrite eqb_refl'.
Qed.

Lemma NoDup_set (k : K) (v : V) (m : list (K * V)) :
  List.NoDup (map fst m) -> List.NoDup (map fst (JsMap.set eqb k v m)).
Proof.
  intros Hnd. rewrite keys_set. destruct (JsMap.has eqb k m) eqn:E; [done|].
  apply NoDup_ListNoDup, NoDup_app. split_and!.
  - by apply NoDup_ListNoDup.
  - intros x Hx ->%list_elem_of_singleton.
    apply list_elem_of_In, has_In in Hx. congruence.
  - apply NoDup_singleton.
Qed.

Lemma NoDup_filter_keys (f : K * V -> bool) (m : list (K * V)) :
  List.NoDup (map fst m) -> List.NoDup (map fst (List.filter f m)).
Proof.
  induction m as [|e m IH]; simpl; [done|].
  intros Hnd. inversion Hnd as [|? ? Hk0 Hnd']; subst.
  destruct (f e); simpl; [|by apply IH].
  constructor; [|by apply IH].
  intros (e' & He' & [Hin _]%filter_In)%in_map_iff.
  apply Hk0. rewrite <-He'. by apply in_map.
Qed.














End replay.

(* ===================================================================== *)
(** * Agent E: a discovery pass as a replay *)
(* ===================================================================== *)




(** The test of the [catch] block: [agent.url.includes(`:${port}`)]. *)
Definition mentions (p : N) (d : AgentE.descriptor) : bool :=
  includes (AgentE.d_url d) (":" ++ show_N p).

(** The descriptor a pass records for the card served on port [p]. *)
Definition described (p : N) (c : agent_card) (t : N) : AgentE.descriptor :=
  {| AgentE.d_id := card_id c; AgentE.d_name := card_name c;
     AgentE.d_type := card_type c; AgentE.d_url := "http://localhost:" ++ show_N p;
     AgentE.d_capabilities := card_capabilities c;
     AgentE.d_last_seen := t; AgentE.d_card := c |}.

(** Every entry sits under its own id, and no key occurs twice: what
    [Map.set(agentCard.id, { id: agentCard.id, ... })] maintains. *)
Definition registry_ok (reg : list (string * AgentE.descriptor)) : Prop :=
  List.NoDup (map fst reg) ∧ Forall (fun e => AgentE.d_id (snd e) = fst e) reg.




Lemma registry_ok_nil : registry_ok [].
Proof. split; constructor. Qed.

Lemma registry_ok_set (k : string) (d : AgentE.descriptor)
    (reg : list (string * AgentE.descriptor)) :
  AgentE.d_id d = k -> registry_ok reg -> registry_ok (JsMap.set String.eqb k d reg).
Proof.
  intros Hd [Hnd Hid]. split; [by apply (NoDup_set _ String.eqb_eq)|].
  clear Hnd. induction Hid as [|e reg He Hid IH]; simpl.
  - by constructor.
  - destruct (String.eqb k (fst e)); by constructor.
Qed.

Lemma registry_ok_filter (f : string * AgentE.descriptor -> bool)
    (reg : list (string * AgentE.descriptor)) :
  registry_ok reg -> registry_ok (List.filter f reg).
Proof.
  intros [Hnd Hid]. split; [by apply NoDup_filter_keys|].
  clear Hnd. induction Hid as [|e reg He Hid IH]; simpl; [constructor|].
  destruct (f e); [by constructor|done].
Qed.



(** Deleting the ids of a list of agents, one after the other. *)
Lemma fold_delete (l : list AgentE.descriptor) (reg : list (string * AgentE.descriptor)) :
  fold_left (fun m a => JsMap.delete String.eqb (AgentE.d_id a) m) l reg
  = List.filter
      (fun e => negb (existsb (fun a => String.eqb (AgentE.d_id a) (fst e)) l)) reg.
Proof.
  revert reg. induction l as [|a l IH]; intros reg; simpl.
  - induction reg as [|e reg IHr]; simpl; congruence.
  - rewrite IH. unfold JsMap.delete.
    induction reg as [|e reg IHr]; simpl; [done|].
    destruct (String.eqb (AgentE.d_id a) (fst e)); simpl; [done|].
    destruct (existsb _ l); simpl; by rewrite IHr.
Qed.

(** In a registry keyed by id, the [catch] block prunes exactly the entries
    whose url mentions the port. *)
Lemma remove_unreachable_filter (p : N) (reg : list (string * AgentE.descriptor)) :
  registry_ok reg ->
  AgentE.remove_unreachable p reg
  = List.filter (fun e => negb (mentions p (snd e))) reg.
Proof.
  intros [Hnd Hid]. unfold AgentE.remove_unreachable. rewrite fold_delete.
  apply filter_ext_in. intros e He. f_equal.
  assert (Hide : AgentE.d_id (snd e) = fst e).
  { by apply (proj1 (List.Forall_forall _ _) Hid). }
  fold (mentions p). destruct (mentions p (snd e)) eqn:R.
  - apply existsb_exists. exists (snd e). split; [|by apply String.eqb_eq].
    apply filter_In. split; [|done]. unfold JsMap.values. by apply in_map.
  - apply not_true_is_false. intros (a & [Ha Hm]%filter_In & Hk%String.eqb_eq)%existsb_exists.
    unfold JsMap.values in Ha. apply in_map_iff in Ha as (e' & <- & He').
    assert (Hide' : AgentE.d_id (snd e') = fst e').
    { by apply (proj1 (List.Forall_forall _ _) Hid). }
    assert (snd e' = snd e) as Hsnd.
    { assert (Some (snd e') = Some (snd e)) as [=]; [|done].
      rewrite <-(In_get String.eqb String.eqb_eq (fst e) (snd e') reg Hnd).
      - apply (In_get String.eqb String.eqb_eq); [done|]. by destruct e.
      - rewrite <-Hk, Hide'. by destruct e'. }
    fold (mentions p (snd e')) in Hm. congruence.
Qed.

(** Among the scanned ports, the url of one mentions only its own port. *)
Lemma url_mentions (p q : N) :
  In p AgentE.portRange -> In q AgentE.portRange ->
  includes ("http://localhost:" ++ show_N p) (":" ++ show_N q) = (p =? q).
Proof.
  unfold AgentE.portRange. simpl.
  intros [<-|[<-|[<-|[<-|[]]]]] [<-|[<-|[<-|[<-|[]]]]]; vm_compute; reflexivity.
Qed.



Section AgentE_discovery.
Context {Basic Lang : Type}.
Context (w : world).





End AgentE_discovery.

(* ===================================================================== *)
(** * The discovery client: a pass as a replay *)
(* ===================================================================== *)








Section Client_discovery.
Context (w : world).



End Client_discovery.

(* ===================================================================== *)
(** * C8: discovery twice in a row *)
(* ===================================================================== *)




(* ===================================================================== *)
(** * Agent E: what a discovery pass costs and leaves behind *)
(* ===================================================================== *)

(** The two requests a pass may send to the agent on port [p]. *)
Definition is_probe_of (p : N) (c : call) : Prop :=
  ∃ t, c = GET (("http://localhost:" ++ show_N p) ++ "/status") t
       ∨ c = GET (("http://localhost:" ++ show_N p) ++ "/agent-card") t.

Section AgentE_pass.
Context {Basic Lang : Type}.
Context (w : world).

(** One turn of the loop: nothing for the agent's own port, else the status
    request and, after an ok, the card request, each given up after 2 s. *)
Lemma discover_port_traffic (p : N) (q : proc (@AgentE.state Basic Lang)) :
  ∃ l, calls (snd (runM (AgentE.discover_port w p) q)) = (calls q ++ l)%list
       ∧ Forall (is_probe_of p) l
       ∧ (List.length l <= 2)%nat
       ∧ (p = AgentE.port (self q) -> l = [])
       ∧ now q <= now (snd (runM (AgentE.discover_port w p) q)) <= now q + 4000.
Proof.
  unfold AgentE.discover_port. rewrite runM_bind. cbn [this runM].
  destruct (p =? AgentE.port (self q)) eqn:Ep.
  { exists []. cbn. rewrite app_nil_r. split_and!; [done|constructor|lia|done|lia|lia]. }
  apply N.eqb_neq in Ep.
  unfold try_catch, axios_get. cbn [runM]. rewrite !runM_bind. cbn [date_now runM settle].
  pose proof (within_le 2000 (get_json w (("http://localhost:" ++ show_N p) ++ "/status")
                                (now q))) as Hlat.
  assert (Hs : is_probe_of p (GET (("http://localhost:" ++ show_N p) ++ "/status") (now q))).
  { exists (now q). by left. }
  destruct (within (Some 2000) (get_json w _ (now q))) as [lat [data|msg]];
    cbn [fst snd] in *.
  2: { eexists [_]. cbn. split_and!; [done|by constructor|lia|done|lia|lia]. }
  rewrite runM_bind. cbn [lift runM].
  destruct (js_get data "status") as [e|st].
  { eexists [_]. cbn. split_and!; [done|by constructor|lia|done|lia|lia]. }
  destruct (is_str st "ok").
  2: { eexists [_]. cbn. split_and!; [done|by constructor|lia|done|lia|lia]. }
  unfold axios_get_card. rewrite !runM_bind. cbn [date_now runM settle].
  cbn [elapse sent now].
  pose proof (within_le 2000 (get_card w (("http://localhost:" ++ show_N p) ++ "/agent-card")
                                (now q + lat))) as Hlat'.
  assert (Hc : is_probe_of p (GET (("http://localhost:" ++ show_N p) ++ "/agent-card")
                                (now q + lat))).
  { exists (now q + lat). by right. }
  destruct (within (Some 2000) (get_card w _ (now q + lat))) as [lat' [c|msg]];
    cbn [fst snd] in *.
  all: eexists [_; _]; cbn; rewrite <-app_assoc.
  all: split_and!; [done|by repeat constructor|lia|done|lia|lia].
Qed.

Lemma for_of_traffic (ports : list N) (q : proc (@AgentE.state Basic Lang)) :
  ∃ l, calls (snd (runM (for_of ports (AgentE.discover_port w)) q)) = (calls q ++ l)%list
       ∧ Forall (fun c => ∃ p, In p ports ∧ p ≠ AgentE.port (self q) ∧ is_probe_of p c) l
       ∧ (List.length l <= 2 * List.length ports)%nat
       ∧ now q <= now (snd (runM (for_of ports (AgentE.discover_port w)) q))
         <= now q + 4000 * N.of_nat (List.length ports).
Proof.
  revert q. induction ports as [|p ports IH]; intros q.
  { exists []. cbn. rewrite app_nil_r. split_and!; [done|constructor|lia|lia|lia]. }
  cbn [for_of]. rewrite runM_bind.
  pose proof (discover_port_returns w p q) as Hr.
  destruct (discover_port_traffic p q) as (l1 & Hc1 & Hp1 & Hn1 & Hown & Ht1).
  destruct (quiet_discover_port w p q) as (_ & Hport & _).
  destruct (runM (AgentE.discover_port w p) q) as [[e|[]] q']; [done|].
  cbn [fst snd] in *.
  destruct (IH q') as (l2 & Hc2 & Hp2 & Hn2 & Ht2).
  exists (l1 ++ l2)%list. split_and!.
  - by rewrite Hc2, Hc1, app_assoc.
  - apply Forall_app. split.
    + apply List.Forall_forall. intros c Hin. exists p. split_and!; [by left| |].
      * intros ->. rewrite (Hown eq_refl) in Hin. destruct Hin.
      * by apply (proj1 (List.Forall_forall _ _) Hp1).
    + eapply Forall_impl; [exact Hp2|]. intros c (p' & Hin & Hne & Hc).
      exists p'. split_and!; [by right|by rewrite <-Hport|done].
  - rewrite length_app. cbn [List.length]. lia.
  - lia.
  - cbn [List.length]. lia.
Qed.
End AgentE_pass.

(** A discovery pass always ends, within 16 s, whatever the network does:
    it never throws, sends at most eight requests, each a GET of [/status]
    or [/agent-card] to a scanned port other than its own, stamps
    [lastDiscovery] with the time it ended at, and leaves the task store and
    the two counters alone. *)
Theorem discovery_pass_is_bounded :
  ∀ (Basic Lang : Type) (w : world) (q : proc (@AgentE.state Basic Lang)),
    let out := runM (AgentE.performDiscovery w) q in
    fst out = inr tt
    ∧ now q <= now (snd out) <= now q + 16000
    ∧ AgentE.lastDiscovery (self (snd out)) = Some (now (snd out))
    ∧ AgentE.tasks (self (snd out)) = AgentE.tasks (self q)
    ∧ AgentE.delegationCount (self (snd out)) = AgentE.delegationCount (self q)
    ∧ AgentE.fallbackCount (self (snd out)) = AgentE.fallbackCount (self q)
    ∧ ∃ l, calls (snd out) = (calls q ++ l)%list
           ∧ (List.length l <= 8)%nat
           ∧ Forall (fun c => ∃ p, In p AgentE.portRange
                                   ∧ p ≠ AgentE.port (self q) ∧ is_probe_of p c) l.
Proof.
  intros Basic Lang w q out. subst out.
  pose proof (performDiscovery_returns w q) as Hret.
  destruct (quiet_performDiscovery w q) as ((Htasks & _ & _) & _ & Hd & Hf).
  split_and!; [done| | | |done|done|done|].
  all: unfold AgentE.performDiscovery in *; rewrite runM_bind in *.
  all: pose proof (for_of_returns AgentE.portRange (AgentE.discover_port w) q
                     (discover_port_returns w)) as Hr.
  all: destruct (for_of_traffic w AgentE.portRange q) as (l & Hc & Hp & Hn & Ht).
  all: destruct (runM (for_of _ _) q) as [[e|[]] q']; [done|].
  all: cbn [fst snd] in *; cbn in Ht |- *; try lia; try done.
  exists l. split_and!; [done|cbn in Hn; lia|done].
Qed.

(** What the probe of port [p] started at time [t] does to the registry of
    the agent listening on [own]: the card request goes out when the status
    request has settled, and the descriptor is stamped when the card is in. *)
Definition probe_at (w : world) (own p t : N) : action string AgentE.descriptor :=
  if p =? own then ANop
  else
    let agentUrl := "http://localhost:" ++ show_N p in
    let r := within (Some 2000) (get_json w (agentUrl ++ "/status") t) in
    match snd r with
    | Failure _ => AFilter (fun d => negb (mentions p d))
    | Reply data =>
        match js_get data "status" with
        | inl _ => AFilter (fun d => negb (mentions p d))
        | inr st =>
            if is_str st "ok" then
              let r' := within (Some 2000)
                          (get_card w (agentUrl ++ "/agent-card") (t + fst r)) in
              match snd r' with
              | Reply c => ASet (card_id c) (described p c (t + fst r + fst r'))
              | Failure _ => AFilter (fun d => negb (mentions p d))
              end
            else ANop
        end
    end.

(** The three shapes of [probe_at], with what the network said. *)
Lemma probe_at_cases (w : world) (own p t : N) :
  probe_at w own p t = ANop
  ∨ probe_at w own p t = AFilter (fun d => negb (mentions p d))
  ∨ ∃ c t1 t2,
      probe_at w own p t = ASet (card_id c) (described p c t2)
      ∧ snd (within (Some 2000)
               (get_card w (("http://localhost:" ++ show_N p) ++ "/agent-card") t1))
        = Reply c.
Proof.
  unfold probe_at. destruct (p =? own); [by left|].
  destruct (snd (within (Some 2000) (get_json w _ t))) as [data|msg]; [|by right; left].
  destruct (js_get data "status") as [e|st]; [by right; left|].
  destruct (is_str st "ok"); [|by left].
  destruct (snd (within (Some 2000) (get_card w _ _))) as [c|msg] eqn:E; [|by right; left].
  right; right. by eexists c, _, _.
Qed.

Section replay_along.
Context {P K V : Type} (eqb : K -> K -> bool).
Context (R : P -> action K V -> Prop) (I : list (K * V) -> Prop).

(** A property every step keeps is kept by the replay. *)
Lemma replay_preserves (ports : list P) (acts : list (action K V)) (m : list (K * V)) :
  Forall2 R ports acts ->
  (∀ p a m, In p ports -> R p a -> I m -> I (apply_action eqb a m)) ->
  I m -> I (replay eqb acts m).
Proof.
  intros HR. revert m. induction HR as [|p a ports acts Hpa HR IH]; intros m Hk Hm; [done|].
  simpl. apply IH.
  - intros p' a' m' Hin. apply Hk. by right.
  - apply (Hk p); [by left|done|done].
Qed.

(** A property the step of [p] brings about, and every step keeps, holds
    after the replay. *)
Lemma replay_establishes (ports : list P) (acts : list (action K V)) (p : P)
    (m : list (K * V)) :
  Forall2 R ports acts -> In p ports ->
  (∀ a m, R p a -> I (apply_action eqb a m)) ->
  (∀ p' a m, In p' ports -> R p' a -> I m -> I (apply_action eqb a m)) ->
  I (replay eqb acts m).
Proof.
  intros HR. revert m. induction HR as [|p' a ports acts Hpa HR IH]; intros m Hin He Hk;
    [destruct Hin|].
  simpl. destruct Hin as [->|Hin].
  - eapply (replay_preserves ports acts); [done| |by apply He].
    intros p' a' m' Hin'. apply Hk. by right.
  - apply IH; [done|done|]. intros p'' a' m' Hin'. apply Hk. by right.
Qed.
End replay_along.

Lemma In_set {K V : Type} (eqb : K -> K -> bool) (k : K) (v : V) (m : list (K * V))
    (e : K * V) :
  In e (JsMap.set eqb k v m) -> e = (k, v) ∨ In e m.
Proof.
  induction m as [|x m IH]; simpl.
  - intros [<-|[]]. by left.
  - destruct (eqb k (fst x)); simpl.
    + intros [<-|H]; [by left|by right; right].
    + intros [<-|H]; [by right; left|]. destruct (IH H); [by left|by right; right].
Qed.

Section AgentE_pass_effect.
Context {Basic Lang : Type}.
Context (w : world).

(** One probe, seen on the registry. *)
Lemma discover_port_effect (p : N) (q : proc (@AgentE.state Basic Lang)) :
  registry_ok (AgentE.discoveredAgents (self q)) ->
  registry_ok (AgentE.discoveredAgents (self (snd (runM (AgentE.discover_port w p) q))))
  ∧ AgentE.discoveredAgents (self (snd (runM (AgentE.discover_port w p) q)))
    = apply_action String.eqb (probe_at w (AgentE.port (self q)) p (now q))
        (AgentE.discoveredAgents (self q)).
Proof.
  intros Hok. unfold AgentE.discover_port, probe_at.
  rewrite runM_bind. cbn [this runM].
  destruct (p =? AgentE.port (self q)) eqn:Ep; [done|].
  unfold try_catch, axios_get. cbn [runM]. rewrite !runM_bind. cbn [date_now runM settle].
  assert (Hdown : ∀ q0 : proc (@AgentE.state Basic Lang),
    AgentE.discoveredAgents (self q0) = AgentE.discoveredAgents (self q) ->
    let q' := snd (runM (update (AgentE.set_discoveredAgents
                                   (AgentE.remove_unreachable p))) q0) in
    registry_ok (AgentE.discoveredAgents (self q'))
    ∧ AgentE.discoveredAgents (self q')
      = apply_action String.eqb (AFilter (fun d => negb (mentions p d)))
          (AgentE.discoveredAgents (self q))).
  { intros q0 Hreg. cbn. rewrite Hreg, remove_unreachable_filter by done.
    split; [by apply registry_ok_filter|done]. }
  destruct (within (Some 2000) (get_json w _ (now q))) as [lat [data|msg]]; cbn [fst snd];
    [|by apply Hdown].
  rewrite runM_bind. cbn [lift runM].
  destruct (js_get data "status") as [e|st]; [by apply Hdown|].
  destruct (is_str st "ok"); [|done].
  unfold axios_get_card. rewrite !runM_bind. cbn [date_now runM settle].
  cbn [elapse sent now].
  destruct (within (Some 2000) (get_card w _ (now q + lat))) as [lat' [c|msg]];
    cbn [fst snd]; [|by apply Hdown].
  cbn. split; [by apply registry_ok_set|done].
Qed.

Lemma for_of_effect (ports : list N) (q : proc (@AgentE.state Basic Lang)) :
  registry_ok (AgentE.discoveredAgents (self q)) ->
  ∃ acts,
    Forall2 (fun p a => ∃ t, a = probe_at w (AgentE.port (self q)) p t) ports acts
    ∧ AgentE.discoveredAgents (self (snd (runM (for_of ports (AgentE.discover_port w)) q)))
      = replay String.eqb acts (AgentE.discoveredAgents (self q))
    ∧ registry_ok (AgentE.discoveredAgents
                     (self (snd (runM (for_of ports (AgentE.discover_port w)) q)))).
Proof.
  revert q. induction ports as [|p ports IH]; intros q Hok.
  { exists []. split_and!; [constructor|done|done]. }
  cbn [for_of]. rewrite runM_bind.
  pose proof (discover_port_returns w p q) as Hr.
  destruct (discover_port_effect p q Hok) as (Hok' & Heff).
  destruct (quiet_discover_port w p q) as (_ & Hport & _).
  destruct (runM (AgentE.discover_port w p) q) as [[e|[]] q']; [done|].
  cbn [fst snd] in *. destruct (IH q' Hok') as (acts & HR & Heq & Hok2).
  exists (probe_at w (AgentE.port (self q)) p (now q) :: acts). split_and!.
  - constructor; [by eexists|]. by rewrite <-Hport.
  - rewrite Heq, Heff. reflexivity.
  - done.
Qed.

(** A whole pass replays one probe per scanned port, in order. *)
Lemma performDiscovery_effect (q : proc (@AgentE.state Basic Lang)) :
  registry_ok (AgentE.discoveredAgents (self q)) ->
  ∃ acts,
    Forall2 (fun p a => ∃ t, a = probe_at w (AgentE.port (self q)) p t)
      AgentE.portRange acts
    ∧ AgentE.discoveredAgents (self (snd (runM (AgentE.performDiscovery w) q)))
      = replay String.eqb acts (AgentE.discoveredAgents (self q)).
Proof.
  intros Hok. unfold AgentE.performDiscovery. rewrite runM_bind.
  pose proof (for_of_returns AgentE.portRange (AgentE.discover_port w) q
                (discover_port_returns w)) as Hr.
  destruct (for_of_effect AgentE.portRange q Hok) as (acts & HR & Heq & _).
  destruct (runM (for_of _ _) q) as [[e|[]] q']; [done|].
  cbn [fst snd] in *. exists acts. split; [done|]. cbn. done.
Qed.
End AgentE_pass_effect.

Lemma probe_at_down (w : world) (own p t : N) (msg : string) :
  p ≠ own ->
  snd (within (Some 2000) (get_json w (("http://localhost:" ++ show_N p) ++ "/status") t))
  = Failure msg ->
  probe_at w own p t = AFilter (fun d => negb (mentions p d)).
Proof.
  intros Hne H. unfold probe_at. apply N.eqb_neq in Hne. by rewrite Hne, H.
Qed.

Lemma probe_at_live (w : world) (own p t : N) (data st : json) (c : agent_card) :
  p ≠ own ->
  snd (within (Some 2000) (get_json w (("http://localhost:" ++ show_N p) ++ "/status") t))
  = Reply data ->
  js_get data "status" = inr st -> is_str st "ok" = true ->
  (∀ t', snd (within (Some 2000)
                (get_card w (("http://localhost:" ++ show_N p) ++ "/agent-card") t'))
         = Reply c) ->
  ∃ t2, probe_at w own p t = ASet (card_id c) (described p c t2).
Proof.
  intros Hne H Hst Hok Hc. unfold probe_at. apply N.eqb_neq in Hne.
  rewrite Hne, H, Hst, Hok, Hc. by eexists.
Qed.

(** An agent that does not answer is gone after the pass: when the status
    request to a scanned port fails or times out whenever it is sent, no
    entry of the registry the pass leaves has a url on that port, whatever
    the registry held before. *)
Theorem discovery_prunes_unreachable :
  ∀ (Basic Lang : Type) (w : world) (q : proc (@AgentE.state Basic Lang)) (p : N),
    registry_ok (AgentE.discoveredAgents (self q)) ->
    In p AgentE.portRange -> p ≠ AgentE.port (self q) ->
    (∀ t, ∃ msg,
       snd (within (Some 2000)
              (get_json w (("http://localhost:" ++ show_N p) ++ "/status") t))
       = Failure msg) ->
    ∀ e, In e (AgentE.discoveredAgents (self (snd (runM (AgentE.performDiscovery w) q)))) ->
         includes (AgentE.d_url (snd e)) (":" ++ show_N p) = false.
Proof.
  intros Basic Lang w q p Hok Hp Hown Hdown.
  destruct (performDiscovery_effect w q Hok) as (acts & HR & ->).
  eapply (replay_establishes String.eqb _
            (fun m => ∀ e, In e m -> includes (AgentE.d_url (snd e)) (":" ++ show_N p) = false)
            _ _ p _ HR Hp).
  - intros a m [t ->] e. destruct (Hdown t) as [msg Hmsg].
    rewrite (probe_at_down _ _ _ _ _ Hown Hmsg). simpl.
    intros [_ Hk]%filter_In. unfold mentions in Hk. by destruct (includes _ _).
  - intros p' a m Hp' [t ->] Hm e.
    destruct (probe_at_cases w (AgentE.port (self q)) p' t) as [E|[E|(c & t1 & t2 & E & _)]];
      rewrite E; simpl.
    + apply Hm.
    + intros [Hin _]%filter_In. by apply Hm.
    + intros [->|Hin]%In_set; [|by apply Hm].
      change (includes ("http://localhost:" ++ show_N p') (":" ++ show_N p) = false).
      rewrite url_mentions by done. apply N.eqb_neq. intros ->. destruct (Hdown t) as [msg Hmsg].
      rewrite (probe_at_down _ _ _ _ _ Hown Hmsg) in E. discriminate E.
Qed.

(** Agent E holding a descriptor of agent A from an earlier pass. *)
Definition agent_a_remembered : proc (@AgentE.state nat string) :=
  with_self
    (AgentE.set_discoveredAgents
       (fun _ => [("text-processor-agent-a",
                   described 4001 {| card_id := "text-processor-agent-a";
                                     card_name := JStr "Agent A - Text Processor";
                                     card_type := JStr "text-processor";
                                     card_capabilities := JArr [] |} 3)]))
    (Proc 100 (AgentE.init 4005) []).

(** At a concrete run: agent A was registered, now only agent C answers; the
    pass drops the entry on port 4001. *)
Lemma discovery_prunes_unreachable_witness :
  Forall (fun e => includes (AgentE.d_url (snd e)) (":" ++ show_N 4001) = false)
    (AgentE.discoveredAgents
       (self (snd (runM (AgentE.performDiscovery never_done) agent_a_remembered)))).
Proof.
  apply List.Forall_forall.
  apply (discovery_prunes_unreachable nat string never_done agent_a_remembered 4001).
  - split; repeat constructor. simpl. tauto.
  - simpl. tauto.
  - discriminate.
  - intros t. eexists. reflexivity.
Defined.

Lemma findAgentByType_finds {Basic Lang : Type} (s : @AgentE.state Basic Lang)
    (k type : string) (d : AgentE.descriptor) :
  JsMap.get String.eqb k (AgentE.discoveredAgents s) = Some d ->
  AgentE.d_type d = JStr type ->
  ∃ a, AgentE.findAgentByType type s = Some a ∧ AgentE.d_type a = JStr type.
Proof.
  intros Hget Hty. apply (get_In String.eqb String.eqb_eq) in Hget.
  apply (in_map snd) in Hget. simpl in Hget.
  unfold AgentE.findAgentByType, JsMap.values.
  destruct (List.find _ _) as [a|] eqn:F.
  - exists a. split; [done|]. apply find_some in F as [_ F].
    unfold is_str in F. destruct (AgentE.d_type a); try done.
    by apply String.eqb_eq in F as ->.
  - eapply find_none in F; [|exact Hget]. simpl in F.
    rewrite Hty in F. simpl in F. by rewrite String.eqb_refl in F.
Qed.

(** An agent that answers is registered after the pass: when a scanned port
    answers its status with ok and serves the card [c] whenever asked, and no
    other scanned port serves a card with the same id, the registry the pass
    leaves holds under that id the descriptor built from [c] and the port's
    url, and an agent of the card's type is found by type. *)
Theorem discovery_registers_live_agent :
  ∀ (Basic Lang : Type) (w : world) (q : proc (@AgentE.state Basic Lang)) (p : N)
    (c : agent_card),
    registry_ok (AgentE.discoveredAgents (self q)) ->
    In p AgentE.portRange -> p ≠ AgentE.port (self q) ->
    (∀ t, ∃ data st,
       snd (within (Some 2000)
              (get_json w (("http://localhost:" ++ show_N p) ++ "/status") t))
       = Reply data
       ∧ js_get data "status" = inr st ∧ is_str st "ok" = true) ->
    (∀ t, snd (within (Some 2000)
                 (get_card w (("http://localhost:" ++ show_N p) ++ "/agent-card") t))
          = Reply c) ->
    (∀ p' t c', In p' AgentE.portRange -> p' ≠ p ->
       snd (within (Some 2000)
              (get_card w (("http://localhost:" ++ show_N p') ++ "/agent-card") t))
       = Reply c' ->
       card_id c' ≠ card_id c) ->
    let s' := self (snd (runM (AgentE.performDiscovery w) q)) in
    (∃ t, JsMap.get String.eqb (card_id c) (AgentE.discoveredAgents s')
          = Some (described p c t))
    ∧ (∀ type, card_type c = JStr type ->
         ∃ a, AgentE.findAgentByType type s' = Some a ∧ AgentE.d_type a = JStr type).
Proof.
  intros Basic Lang w q p c Hok Hp Hown Hstatus Hcard Huniq s'.
  assert (Hreg : ∃ t, JsMap.get String.eqb (card_id c) (AgentE.discoveredAgents s')
                      = Some (described p c t)).
  { subst s'. destruct (performDiscovery_effect w q Hok) as (acts & HR & ->).
    eapply (replay_establishes String.eqb _
              (fun m => ∃ t, JsMap.get String.eqb (card_id c) m = Some (described p c t))
              _ _ p _ HR Hp).
    - intros a m [t ->]. destruct (Hstatus t) as (data & st & H1 & H2 & H3).
      destruct (probe_at_live _ _ _ _ _ _ _ Hown H1 H2 H3 Hcard) as [t2 ->].
      exists t2. simpl. apply (get_set_eq String.eqb String.eqb_eq).
    - intros p' a m Hp' [t ->] [t0 Hm].
      destruct (N.eq_dec p' p) as [->|Hne].
      + destruct (Hstatus t) as (data & st & H1 & H2 & H3).
        destruct (probe_at_live _ _ _ _ _ _ _ Hown H1 H2 H3 Hcard) as [t2 ->].
        exists t2. simpl. apply (get_set_eq String.eqb String.eqb_eq).
      + destruct (probe_at_cases w (AgentE.port (self q)) p' t)
          as [E|[E|(c' & t1 & t2 & E & Hc')]]; rewrite E; simpl.
        * by exists t0.
        * exists t0. apply (get_filter _ (fun d => negb (mentions p' d))); [done|].
          change (negb (includes ("http://localhost:" ++ show_N p) (":" ++ show_N p'))
                  = true).
          rewrite url_mentions by done. apply negb_true_iff, N.eqb_neq. congruence.
        * exists t0. rewrite (get_set_ne String.eqb String.eqb_eq); [done|].
          intros Heq. by apply (Huniq p' t1 c' Hp' Hne Hc'). }
  split; [done|]. intros type Hty. destruct Hreg as [t Hget].
  by apply (findAgentByType_finds s' (card_id c) type (described p c t)).
Qed.

(** At a concrete run: agent C alone answers, and the pass of a fresh agent E
    registers it. *)
Lemma discovery_registers_live_agent_witness :
  let s' := self (snd (runM (AgentE.performDiscovery never_done)
                         (Proc 0 (@AgentE.init nat string 4005) []))) in
  (∃ t, JsMap.get String.eqb "sentiment-analyzer-agent-c" (AgentE.discoveredAgents s')
        = Some (described 4003 (AgentE.d_card agent_c) t))
  ∧ (∀ type, JStr "sentiment-analyzer" = JStr type ->
       ∃ a, AgentE.findAgentByType type s' = Some a ∧ AgentE.d_type a = JStr type).
Proof.
  apply (discovery_registers_live_agent nat string never_done
           (Proc 0 (AgentE.init 4005) []) 4003 (AgentE.d_card agent_c)).
  - apply registry_ok_nil.
  - simpl. tauto.
  - discriminate.
  - intros t. eexists _, _. split_and!; reflexivity.
  - intros t. reflexivity.
  - intros p' t c' [<-|[<-|[<-|[<-|[]]]]] Hne H; try done; discriminate H.
Defined.

(* ===================================================================== *)
(** * Agent E: the delegation protocol *)
(* ===================================================================== *)

Section AgentE_protocol.
Context {Basic Lang : Type}.
Context (w : world).

(** The polling loop only ever asks for the status of its task. *)
Lemma poll_traffic (fuel : nat) (url : string) (taskId : json) (start maxWait : N)
    (p : proc (@AgentE.state Basic Lang)) :
  ∃ l, calls (snd (runM (AgentE.poll w fuel url taskId start maxWait) p))
       = (calls p ++ l)%list
       ∧ Forall (fun c => ∃ t, c = GET (url ++ "/task/" ++ js_String taskId) t) l.
Proof.
  revert p. induction fuel as [|fuel IH]; intros p.
  { exists []. cbn. by rewrite app_nil_r. }
  cbn [AgentE.poll]. rewrite runM_bind. cbn [date_now runM].
  destruct (now p - start <? maxWait).
  2: { exists []. cbn. by rewrite app_nil_r. }
  rewrite runM_bind. unfold try_catch, axios_get. run_m.
  assert (Hone : ∀ l0 : list call,
    l0 = [GET (url ++ "/task/" ++ js_String taskId) (now p)] ->
    Forall (fun c => ∃ t, c = GET (url ++ "/task/" ++ js_String taskId) t) l0).
  { intros l0 ->. repeat constructor. by eexists. }
  destruct (snd (within (Some 2000) (get_json w _ (now p)))) as [resp|msg]; run_m.
  2: { eexists. split; [reflexivity|]. by apply Hone. }
  destruct (js_get resp "status") as [e|st]; run_m.
  { eexists. split; [reflexivity|]. by apply Hone. }
  destruct (is_str st "completed"); run_m.
  { destruct (js_get resp "result") as [e|v]; run_m;
      (eexists; split; [reflexivity|]; by apply Hone). }
  destruct (is_str st "failed"); run_m.
  { destruct (js_get resp "error") as [e|v]; run_m;
      (eexists; split; [reflexivity|]; by apply Hone). }
  match goal with |- context [runM (AgentE.poll w fuel url taskId start maxWait) ?p1] =>
    destruct (IH p1) as (l & Hl & HF) end.
  exists (GET (url ++ "/task/" ++ js_String taskId) (now p) :: l). split.
  - rewrite Hl. cbn. by rewrite <-app_assoc.
  - constructor; [by eexists|done].
Qed.
End AgentE_protocol.

(** The first answer that is not "still processing" ends the wait, with no
    retry and no pause.  Every poll but the last was sent before the ceiling
    and answered with a status that is neither "completed" nor "failed".
    Either the last poll, sent before the ceiling too, was answered
    otherwise, and the wait ended at the moment that answer arrived: with the
    result of the task when the answer says it is completed, and with the
    timeout error of [waitForTaskCompletion], not the remote error, when the
    task failed, the reply had no status, the network failed or the request
    ran into its 2 s limit.  Or every poll was answered "still processing",
    and the wait ended with the same timeout error once the ceiling had
    passed.  The agent's own state is untouched. *)
Theorem wait_ends_at_first_answer :
  ∀ (Basic Lang : Type) (w : world) (url : string) (taskId : json) (maxWait : N)
    (p : proc (@AgentE.state Basic Lang)),
    let target := url ++ "/task/" ++ js_String taskId in
    let timeout := Error ("Task " ++ js_String taskId ++ " timeout") in
    let out := runM (AgentE.waitForTaskCompletion w url taskId maxWait) p in
    self (snd out) = self p
    ∧ ∃ l, calls (snd out) = (calls p ++ l)%list
           ∧ ((∃ l0 t,
                 l = (l0 ++ [GET target t])%list
                 ∧ Forall (asked_in_vain w target (now p) (now p + maxWait)) l0
                 ∧ now p <= t < now p + maxWait
                 ∧ still_processing (snd (poll_answer w target t)) = false
                 ∧ fst out = match completed_result (snd (poll_answer w target t)) with
                             | Some v => inr v
                             | None => inl timeout
                             end
                 ∧ now (snd out) = t + fst (poll_answer w target t))
              ∨ (Forall (asked_in_vain w target (now p) (now p + maxWait)) l
                 ∧ fst out = inl timeout
                 ∧ now p + maxWait <= now (snd out))).
Proof.
  intros Basic Lang w url taskId maxWait p target timeout out. subst out.
  destruct (waitForTaskCompletion_spec w url taskId maxWait p)
    as (r & p' & Hrun & _ & Hself & _).
  destruct (wait_trace w url taskId maxWait p) as (value & p'' & l & Hrun' & Hcalls & Hend).
  rewrite Hrun in Hrun'. injection Hrun' as -> <-. rewrite Hrun. cbn [fst snd].
  split; [done|]. exists l. split; [done|].
  fold target in Hend. fold timeout.
  destruct Hend as [(l0 & t & -> & HF & Hr & Hs & -> & Hf)|(HF & -> & Hf)].
  - left. by exists l0, t.
  - by right.
Qed.

(** A delegation opens with one POST of [{jsonrpc: "2.0", method, params,
    id}] to [/rpc] of the agent, given up after 5 s, and every later request
    is a GET of a task of that agent.  A POST that fails is thrown as it is;
    a reply with a truthy [error] member is thrown as "Agent error: ..."; a
    reply whose [result] has no task id is returned as it is.  In these three
    cases nothing is polled. *)
Theorem delegation_protocol :
  ∀ (Basic Lang : Type) (w : world) (agent : AgentE.descriptor) (method : string)
    (params : json) (p : proc (@AgentE.state Basic Lang)),
    let body := {| req_jsonrpc := JStr "2.0"; req_method := JStr method;
                   req_params := params;
                   req_id := JStr (uuidv4 (AgentE.uuids (self p))) |} in
    let post := POST (AgentE.d_url agent ++ "/rpc") body (now p) in
    let r := within (Some 5000) (post_rpc w (AgentE.d_url agent ++ "/rpc") body (now p)) in
    let out := runM (AgentE.delegateToAgent w agent method params) p in
    (∃ l, calls (snd out) = (calls p ++ post :: l)%list
          ∧ Forall (fun c => ∃ id t, c = GET (AgentE.d_url agent ++ "/task/" ++ id) t) l)
    ∧ match snd r with
      | Failure msg => fst out = inl (Error msg) ∧ calls (snd out) = (calls p ++ [post])%list
      | Reply response =>
          match js_get response "error" with
          | inl e => fst out = inl e ∧ calls (snd out) = (calls p ++ [post])%list
          | inr e =>
              if truthy e then
                (∃ msg, fst out = inl (Error msg)) ∧ calls (snd out) = (calls p ++ [post])%list
              else
                match js_get response "result" with
                | inl e' => fst out = inl e' ∧ calls (snd out) = (calls p ++ [post])%list
                | inr res =>
                    if truthy (js_get_opt res "task_id") then True
                    else fst out = inr res ∧ calls (snd out) = (calls p ++ [post])%list
                end
          end
      end.
Proof.
  intros Basic Lang w agent method params p body post r out. subst out.
  unfold AgentE.delegateToAgent, AgentE.draw_uuid, axios_post. run_m.
  fold body. fold r. fold post.
  destruct (snd r) as [response|msg]; run_m.
  2: { split; [exists []; split; [done|by apply Forall_nil]|done]. }
  destruct (js_get response "error") as [e|e]; run_m.
  { split; [exists []; split; [done|by apply Forall_nil]|done]. }
  destruct (truthy e); run_m.
  { destruct (js_get e "message") as [[m]|m]; run_m;
      (split; [exists []; split; [done|by apply Forall_nil]|split; [by eexists|done]]). }
  destruct (js_get response "result") as [e'|res]; run_m.
  { split; [exists []; split; [done|by apply Forall_nil]|done]. }
  destruct (truthy (js_get_opt res "task_id")); run_m.
  2: { split; [exists []; split; [done|by apply Forall_nil]|done]. }
  split; [|done].
  unfold AgentE.waitForTaskCompletion. rewrite runM_bind. cbn [date_now runM].
  rewrite runM_bind.
  match goal with |- context [runM (AgentE.poll w ?f ?u ?i ?s ?m) ?p1] =>
    destruct (poll_traffic w f u i s m p1) as (l & Hl & HF);
    destruct (runM (AgentE.poll w f u i s m) p1) as [[e1|exit] p2] end.
  all: cbn [snd] in Hl; try destruct exit; cbn; rewrite Hl; cbn; rewrite <-app_assoc.
  all: exists l; split; [done|].
  all: eapply Forall_impl; [exact HF|]; intros c [t ->]; by eexists _, _.
Qed.

(* ===================================================================== *)
(** * Agent E: requests that cannot be served *)
(* ===================================================================== *)

Lemma take_job_last (taskId : string) (method params : json) (js : list job) :
  (∀ j, j ∈ js -> job_task j ≠ taskId) ->
  take_job taskId (js ++ [Job taskId method params]) = Some (Job taskId method params, js).
Proof.
  induction js as [|j js IH]; intros Hfresh; simpl.
  - by rewrite String.eqb_refl.
  - assert (String.eqb taskId (job_task j) = false) as ->.
    { apply String.eqb_neq. intros Heq. apply (Hfresh j); [by left|done]. }
    rewrite IH; [done|]. intros j' Hj'. apply Hfresh. by right.
Qed.

(** A value that has one property read from it has them all. *)
Lemma js_get_total (v : json) (k k' : string) (x : json) :
  js_get v k = inr x -> ∃ x', js_get v k' = inr x'.
Proof. destruct v; simpl; intros H; try discriminate; by eexists. Qed.

Section AgentE_rejects.
Context {Basic Lang : Type}.
Context (analyzeTextBasic : string -> Basic).
Context (languageFallback : string -> Lang).
Context (delegation_rate : nat -> nat -> string).
Context (w : world).

Lemma dispatch_without_text (method : string) (params text : json)
    (p : proc (@AgentE.state Basic Lang)) :
  method = "intelligent_text_analysis" ∨ method = "smart_text_processing" ->
  js_get params "text" = inr text -> truthy text = false ->
  runM (AgentE.dispatch analyzeTextBasic languageFallback delegation_rate w
          (JStr method) params) p
  = (inl (Error "Text parameter is required"), p).
Proof.
  intros Hm Hget Hfalsy. unfold AgentE.dispatch.
  destruct Hm as [-> | ->].
  - replace (is_str (JStr "intelligent_text_analysis") "intelligent_text_analysis")
      with true by reflexivity.
    unfold AgentE.intelligentTextAnalysis, AgentE.destructure.
    destruct params; simpl in Hget; try discriminate; injection Hget as <-;
      run_m; try done.
    simpl in Hfalsy. destruct (assoc "text" fields) as [[]|]; run_m; try done;
      simpl in Hfalsy; by rewrite Hfalsy.
  - replace (is_str (JStr "smart_text_processing") "intelligent_text_analysis")
      with false by reflexivity.
    replace (is_str (JStr "smart_text_processing") "smart_text_processing")
      with true by reflexivity.
    unfold AgentE.smartTextProcessing, AgentE.destructure.
    destruct params; simpl in Hget; try discriminate; injection Hget as <-;
      run_m; try done.
    simpl in Hfalsy. destruct (assoc "text" fields) as [[]|]; run_m; try done;
      simpl in Hfalsy; by rewrite Hfalsy.
Qed.

Lemma processTask_throwing (taskId : string) (method params : json) (e : js_error)
    (p p' : proc (@AgentE.state Basic Lang)) :
  runM (AgentE.dispatch analyzeTextBasic languageFallback delegation_rate w method params) p
  = (inl e, p') ->
  runM (AgentE.processTask analyzeTextBasic languageFallback delegation_rate w
          taskId method params) p
  = (inr tt, with_self (AgentE.set_tasks (alter (AgentE.fail e (now p')) taskId)) p').
Proof.
  intros H. unfold AgentE.processTask, try_catch. cbn [runM]. rewrite runM_bind, H.
  reflexivity.
Qed.
End AgentE_rejects.

(** Agent E checks no parameter when it accepts: an analysis or processing
    request whose [params] hold no text (none, or an empty one) is accepted
    with HTTP 200, and when its job runs the task ends failed with the error
    "Text parameter is required", without a request sent, a counter moved or
    the registry touched. *)
Theorem agentE_task_without_text_fails :
  ∀ (Basic Lang : Type) (analyzeTextBasic : string -> Basic)
    (languageFallback : string -> Lang) (delegation_rate : nat -> nat -> string)
    (w : world) (p : proc (@AgentE.state Basic Lang)) (method : string)
    (params text id : json) (dt : N),
    invE (self p) ->
    method = "intelligent_text_analysis" ∨ method = "smart_text_processing" ->
    js_get params "text" = inr text -> truthy text = false ->
    let req := {| req_jsonrpc := JStr "2.0"; req_method := JStr method;
                  req_params := params; req_id := id |} in
    let taskId := uuidv4 (AgentE.uuids (self p)) in
    let accepted := AgentE.rpc analyzeTextBasic languageFallback delegation_rate w req p in
    let p2 := AgentE.resume analyzeTextBasic languageFallback delegation_rate w taskId
                (elapse dt (fst accepted)) in
    snd accepted = Response 200 (BodyRpc (RpcResult taskId "accepted"
                                            "Task processing started" id))
    ∧ status <$> AgentE.tasks (self (fst accepted)) !! taskId = Some "processing"
    ∧ (λ k, (status k, error k, result k, completed_at k))
        <$> AgentE.tasks (self p2) !! taskId
      = Some ("failed", Val "Text parameter is required", Null, Some (now p + dt))
    ∧ calls p2 = calls p
    ∧ AgentE.discoveredAgents (self p2) = AgentE.discoveredAgents (self p)
    ∧ AgentE.delegationCount (self p2) = AgentE.delegationCount (self p)
    ∧ AgentE.fallbackCount (self p2) = AgentE.fallbackCount (self p).
Proof.
  intros Basic Lang analyzeTextBasic languageFallback delegation_rate w p method
    params text id dt Hinv Hm Hget Hfalsy req taskId accepted p2.
  pose proof (fresh_uuidE _ Hinv) as Hfresh. destruct Hinv as (_ & _ & Hjobs).
  assert (Hacc : accepted
    = (with_self (fun s =>
         AgentE.set_suspended (AgentE.suspended s ++ [Job taskId (JStr method) params])
           (AgentE.set_uuids (AgentE.uuids s + 1)
              (AgentE.set_tasks (insert taskId
                 {| task_id := taskId; status := "processing";
                    task_method := JStr method; task_params := params;
                    created_at := now p; agent := None; result := Null; error := Null;
                    completed_at := None; failed_at := None |}) s))) p,
       Response 200 (BodyRpc (RpcResult taskId "accepted" "Task processing started" id)))).
  { subst accepted req taskId. unfold AgentE.rpc. by destruct Hm as [-> | ->]. }
  subst p2. rewrite Hacc. cbn [fst snd]. split; [done|]. split.
  { cbn. by rewrite lookup_insert_eq. }
  unfold AgentE.resume.
  cbn [elapse with_self self AgentE.set_suspended AgentE.suspended AgentE.set_uuids
       AgentE.set_tasks].
  rewrite take_job_last.
  2: { intros j Hj Heq. destruct (Hjobs j Hj) as (t & Ht & _). subst taskId. congruence. }
  cbn [job_method job_params].
  match goal with |- context [runM (AgentE.processTask _ _ _ _ _ _ _) ?q] =>
    rewrite (processTask_throwing analyzeTextBasic languageFallback delegation_rate w
               taskId (JStr method) params _ q q
               (dispatch_without_text analyzeTextBasic languageFallback delegation_rate w
                  method params text q Hm Hget Hfalsy)) end.
  cbn. rewrite lookup_alter_eq, lookup_insert_eq. done.
Qed.

(** At a concrete request: the default analysis without any [text]. *)
Lemma agentE_task_without_text_fails_witness :
  let req := {| req_jsonrpc := JStr "2.0"; req_method := JStr "intelligent_text_analysis";
                req_params := JObj []; req_id := JNum 7 |} in
  let accepted := AgentE.rpc sample_basic sample_language (fun _ _ => "0%") nobody_home
                    req (Proc 0 (AgentE.init 4005) []) in
  let p2 := AgentE.resume sample_basic sample_language (fun _ _ => "0%") nobody_home
              "uuid-0" (elapse 1 (fst accepted)) in
  snd accepted = Response 200 (BodyRpc (RpcResult "uuid-0" "accepted"
                                          "Task processing started" (JNum 7)))
  ∧ status <$> AgentE.tasks (self (fst accepted)) !! "uuid-0" = Some "processing"
  ∧ (λ k, (status k, error k, result k, completed_at k))
      <$> AgentE.tasks (self p2) !! "uuid-0"
    = Some ("failed", Val "Text parameter is required", Null, Some 1)
  ∧ calls p2 = []
  ∧ AgentE.discoveredAgents (self p2) = []
  ∧ AgentE.delegationCount (self p2) = 0%nat
  ∧ AgentE.fallbackCount (self p2) = 0%nat.
Proof.
  exact (agentE_task_without_text_fails nat string sample_basic sample_language
           (fun _ _ => "0%") nobody_home (Proc 0 (AgentE.init 4005) [])
           "intelligent_text_analysis" (JObj []) JUndefined (JNum 7) 1
           (invE_init 4005) (or_introl eq_refl) eq_refl eq_refl).
Defined.

(* ===================================================================== *)
(** * Agent A: what becomes of an accepted task *)
(* ===================================================================== *)

(** Agent A checks the method and nothing else when it accepts: a request
    for a supported method is answered with HTTP 200 whatever its [params],
    and when the timer of its job fires the task takes the outcome of the
    handler: completed with the object it returned, or failed with the
    message of what it threw, stamped with the time of the firing.  A request
    without [params] fails this way on reading [params.text]. *)
Theorem agentA_task_outcome :
  ∀ (analyzeText : json -> js_error + list (string * json))
    (transformText validateText : json -> json -> js_error + list (string * json))
    (s : AgentA.state) (method : string) (params id : json) (dt : N),
    invA s -> In method AgentA.supportedMethods ->
    let req := {| req_jsonrpc := JStr "2.0"; req_method := JStr method;
                  req_params := params; req_id := id |} in
    let taskId := uuidv4 (AgentA.uuids s) in
    let accepted := AgentA.rpc req s in
    let s2 := AgentA.run analyzeText transformText validateText
                [AgentA.Elapse dt; AgentA.Resume taskId] (fst accepted) in
    snd accepted
    = Response 200 (BodyRpc (RpcResult taskId "accepted"
                               ("Task " ++ method ++ " accepted for processing") id))
    ∧ (λ t, (status t, result t, error t)) <$> AgentA.tasks (fst accepted) !! taskId
      = Some ("processing", Missing, Missing)
    ∧ (λ t, (status t, result t, error t, completed_at t, failed_at t))
        <$> AgentA.tasks s2 !! taskId
      = Some match AgentA.dispatch analyzeText transformText validateText
                     (JStr method) params with
             | inr fields =>
                 ("completed", Val (JObj fields), Missing, Some (AgentA.clock s + dt), None)
             | inl e =>
                 ("failed", Missing, Val (message e), None, Some (AgentA.clock s + dt))
             end
    ∧ AgentA.dispatch analyzeText transformText validateText (JStr method) JUndefined
      = inl (Error "Cannot read properties of undefined (reading 'text')").
Proof.
  intros analyzeText transformText validateText s method params id dt Hinv Hm
    req taskId accepted s2.
  pose proof (fresh_uuid _ Hinv) as Hfresh. destruct Hinv as (_ & _ & Hjobs).
  assert (Hsup : includes_str AgentA.supportedMethods (JStr method) = true).
  { simpl in Hm. destruct Hm as [<-|[<-|[<-|[]]]]; reflexivity. }
  assert (Hacc : accepted
    = ({| AgentA.tasks :=
            <[taskId := {| task_id := taskId; status := "processing";
                           task_method := JStr method; task_params := params;
                           created_at := AgentA.clock s; agent := Some "agent-a";
                           result := Missing; error := Missing;
                           completed_at := None; failed_at := None |}]> (AgentA.tasks s);
          AgentA.uuids := AgentA.uuids s + 1;
          AgentA.clock := AgentA.clock s;
          AgentA.suspended := AgentA.suspended s ++ [Job taskId (JStr method) params] |},
       Response 200 (BodyRpc (RpcResult taskId "accepted"
                                ("Task " ++ method ++ " accepted for processing") id)))).
  { subst accepted req taskId. unfold AgentA.rpc.
    replace (is_str (req_jsonrpc _) "2.0") with true by reflexivity.
    cbn [negb req_method]. rewrite Hsup. reflexivity. }
  subst s2. rewrite Hacc. cbn [fst snd]. split; [done|]. split.
  { cbn. by rewrite lookup_insert_eq. }
  split.
  - cbn [AgentA.run fold_left AgentA.step fst]. unfold AgentA.resume.
    cbn [AgentA.suspended AgentA.tasks AgentA.clock AgentA.uuids].
    rewrite take_job_last.
    2: { intros j Hj Heq. destruct (Hjobs j Hj) as (t & Ht & _). subst taskId. congruence. }
    cbn [AgentA.tasks]. rewrite lookup_alter_eq, lookup_insert_eq.
    unfold AgentA.finish. cbn [job_method job_params].
    by destruct (AgentA.dispatch _ _ _ _ _).
  - unfold AgentA.dispatch. simpl in Hm.
    destruct Hm as [<-|[<-|[<-|[]]]]; reflexivity.
Qed.

(** At a concrete request: [text_transform] without [params], with handlers
    that are never reached. *)
Lemma agentA_task_outcome_witness :
  let req := {| req_jsonrpc := JStr "2.0"; req_method := JStr "text_transform";
                req_params := JUndefined; req_id := JNum 1 |} in
  let accepted := AgentA.rpc req AgentA.init in
  let s2 := AgentA.run echo echo2 echo2
              [AgentA.Elapse 1500; AgentA.Resume "uuid-0"] (fst accepted) in
  snd accepted
  = Response 200 (BodyRpc (RpcResult "uuid-0" "accepted"
                             "Task text_transform accepted for processing" (JNum 1)))
  ∧ (λ t, (status t, result t, error t)) <$> AgentA.tasks (fst accepted) !! "uuid-0"
    = Some ("processing", Missing, Missing)
  ∧ (λ t, (status t, result t, error t, completed_at t, failed_at t))
      <$> AgentA.tasks s2 !! "uuid-0"
    = Some match AgentA.dispatch echo echo2 echo2 (JStr "text_transform") JUndefined with
           | inr fields => ("completed", Val (JObj fields), Missing, Some 1500, None)
           | inl e => ("failed", Missing, Val (message e), None, Some 1500)
           end
  ∧ AgentA.dispatch echo echo2 echo2 (JStr "text_transform") JUndefined
    = inl (Error "Cannot read properties of undefined (reading 'text')").
Proof.
  exact (agentA_task_outcome echo echo2 echo2 AgentA.init "text_transform" JUndefined
           (JNum 1) 1500 invA_init (or_intror (or_introl eq_refl))).
Defined.

(** Whether agent A accepts a request depends on the request alone. *)
Definition acceptedA (e : AgentA.event) : bool :=
  match e with
  | AgentA.Request (POST_rpc req) =>
      is_str (req_jsonrpc req) "2.0"
      && includes_str AgentA.supportedMethods (req_method req)
  | _ => false
  end.

Section AgentA_store.
Context (analyzeText : json -> js_error + list (string * json)).
Context (transformText : json -> json -> js_error + list (string * json)).
Context (validateText : json -> json -> js_error + list (string * json)).

(** Every identifier drawn so far names a stored task. *)
Definition all_stored (s : AgentA.state) : Prop :=
  ∀ n, n < AgentA.uuids s -> is_Some (AgentA.tasks s !! uuidv4 n).

Lemma all_stored_step (s : AgentA.state) (e : AgentA.event) :
  all_stored s ->
  all_stored (fst (AgentA.step analyzeText transformText validateText s e))
  ∧ AgentA.uuids (fst (AgentA.step analyzeText transformText validateText s e))
    = AgentA.uuids s + (if acceptedA e then 1 else 0).
Proof.
  intros Hall. destruct e as [[req|taskId]|taskId|dt]; cbn [AgentA.step acceptedA fst].
  - unfold AgentA.rpc.
    destruct (is_str (req_jsonrpc req) "2.0"); cbn [negb andb fst];
      [|split; [done|lia]].
    destruct (includes_str AgentA.supportedMethods (req_method req)); cbn [negb fst];
      [|split; [done|lia]].
    split; [|done]. intros n Hn. cbn [AgentA.tasks AgentA.uuids] in *.
    destruct (N.eq_dec n (AgentA.uuids s)) as [->|Hne].
    + rewrite lookup_insert_eq. by eexists.
    + rewrite lookup_insert_ne; [apply Hall; lia|]. intros Heq%uuidv4_inj. congruence.
  - split; [done|lia].
  - unfold AgentA.resume. destruct (take_job taskId (AgentA.suspended s)) as [[j rest]|];
      cbn [AgentA.uuids]; (split; [|lia]); [|done].
    intros n Hn. cbn [AgentA.tasks AgentA.uuids] in *. rewrite lookup_alter.
    case_decide; [|by apply Hall].
    subst. destruct (Hall n Hn) as [t Ht]. rewrite Ht. by eexists.
  - split; [|cbn [AgentA.uuids]; lia]. intros n Hn. by apply Hall.
Qed.

Lemma all_stored_run (es : list AgentA.event) (s : AgentA.state) :
  all_stored s ->
  all_stored (AgentA.run analyzeText transformText validateText es s)
  ∧ AgentA.uuids (AgentA.run analyzeText transformText validateText es s)
    = AgentA.uuids s + N.of_nat (List.length (List.filter acceptedA es)).
Proof.
  revert s. induction es as [|e es IH]; intros s Hall.
  { simpl. split; [done|lia]. }
  destruct (all_stored_step s e Hall) as (Hall' & Hu).
  destruct (IH _ Hall') as (Hall2 & Hu2).
  split; [exact Hall2|]. etrans; [exact Hu2|]. rewrite Hu.
  cbn [List.filter]. destruct (acceptedA e); cbn [List.length]; lia.
Qed.
End AgentA_store.

(** Agent A never drops a task: after any sequence of requests, timer
    firings and pauses, the task store holds exactly the tasks of the requests
    accepted so far, one for each; a status query is answered 404 exactly for
    the identifiers that no acceptance returned. *)
Theorem agentA_store_holds_every_accepted_task :
  ∀ (analyzeText : json -> js_error + list (string * json))
    (transformText validateText : json -> json -> js_error + list (string * json))
    (es : list AgentA.event),
    let s := AgentA.run analyzeText transformText validateText es AgentA.init in
    let accepted := N.of_nat (List.length (List.filter acceptedA es)) in
    AgentA.uuids s = accepted
    ∧ (∀ id, is_Some (AgentA.tasks s !! id) ↔ ∃ n, n < accepted ∧ id = uuidv4 n)
    ∧ (∀ id, http_status (AgentA.get_task id s) = 404%Z
             ↔ ¬ ∃ n, n < accepted ∧ id = uuidv4 n)
    ∧ size (AgentA.tasks s) = List.length (List.filter acceptedA es).
Proof.
  intros analyzeText transformText validateText es s accepted.
  assert (Hinit : all_stored AgentA.init) by (intros n Hn; simpl in Hn; lia).
  destruct (all_stored_run analyzeText transformText validateText es _ Hinit)
    as (Hall & Hu).
  pose proof (invA_run analyzeText transformText validateText es _ invA_init)
    as (Hdom & _ & _).
  fold s in Hall, Hu, Hdom. simpl in Hu. fold accepted in Hu.
  assert (Hiff : ∀ id, is_Some (AgentA.tasks s !! id) ↔ ∃ n, n < accepted ∧ id = uuidv4 n).
  { intros id. split.
    - intros [t Ht]. destruct (Hdom _ _ Ht) as (_ & n & Hn & ->). exists n. split; [lia|done].
    - intros (n & Hn & ->). apply Hall. lia. }
  split_and!; [done|done| |].
  - intros id. rewrite <-Hiff. unfold AgentA.get_task.
    destruct (AgentA.tasks s !! id) as [t|]; simpl.
    + split; [done|]. intros H. destruct H. by eexists.
    + split; [|done]. by intros _ [? ?].
  - assert (Hsize : ∀ (m : gmap string (task json)) (k : nat),
              (∀ id, is_Some (m !! id) ↔ ∃ n, n < N.of_nat k ∧ id = uuidv4 n) ->
              size m = k).
    { clear. intros m k. revert m. induction k as [|k IH]; intros m Hm.
      - apply map_size_empty_iff, map_empty. intros id.
        destruct (m !! id) as [t|] eqn:E; [|done].
        destruct (proj1 (Hm id) (ex_intro _ t E)) as (n & Hn & _). lia.
      - destruct (proj2 (Hm (uuidv4 (N.of_nat k)))) as [t Ht].
        { exists (N.of_nat k). split; [lia|done]. }
        rewrite <-(insert_delete_id m _ _ Ht), map_size_insert_None by apply lookup_delete_eq.
        f_equal. apply IH. intros id. rewrite lookup_delete_is_Some, Hm. split.
        + intros (Hne & n & Hn & ->). exists n. split; [|done].
          destruct (N.eq_dec n (N.of_nat k)) as [->|]; [done|lia].
        + intros (n & Hn & ->). split.
          * intros Heq%uuidv4_inj. lia.
          * exists n. split; [lia|done]. }
    apply Hsize. by subst accepted.
Qed.

(* ===================================================================== *)
(** * Agent E: the local sentiment fallback *)
(* ===================================================================== *)

Lemma lower_char_idem (c : ascii) : lower_char (lower_char c) = lower_char c.
Proof. destruct c as [[] [] [] [] [] [] [] []]; reflexivity. Qed.

Lemma toLowerCase_idem (s : string) : toLowerCase (toLowerCase s) = toLowerCase s.
Proof. induction s as [|c s IH]; simpl; [done|]. by rewrite lower_char_idem, IH. Qed.

Lemma count_in_disjoint (words : list string) :
  (AgentE.count_in AgentE.positiveWords words
   + AgentE.count_in AgentE.negativeWords words <= List.length words)%nat.
Proof.
  unfold AgentE.count_in. induction words as [|word words IH]; [simpl; lia|].
  cbn [List.filter].
  destruct (existsb (String.eqb word) AgentE.positiveWords) eqn:Ep;
    destruct (existsb (String.eqb word) AgentE.negativeWords) eqn:En;
    cbn [List.length]; try lia.
  exfalso. apply existsb_exists in Ep as (x & Hx & ->%String.eqb_eq).
  simpl in Hx.
  repeat (destruct Hx as [<-|Hx]; [vm_compute in En; discriminate En|]).
  destruct Hx.
Qed.

(** A text of ASCII characters only: the texts on which [toLowerCase] and
    the split at white space of this development are those of JavaScript. *)
Definition is_ascii_text (text : string) : bool :=
  forallb (fun c => N_of_ascii c <? 128) (String.list_ascii_of_string text).

(** On a text of ASCII characters the label, the confidence and the word
    counts of the fallback hang together: the text is positive exactly when
    it has more positive than negative words of the two lists, negative in
    the mirrored case and neutral when it has as many of either.  The
    confidence is 0.6 unless neutral, then 0.4.  A word counts for at most one
    list, there is at least one word, and letter case plays no part. *)
Theorem sentimentFallback_is_consistent :
  ∀ text : string,
    is_ascii_text text = true ->
    let r := AgentE.sentimentFallback text in
    ((AgentE.sentiment r = "positive"
      ∧ (AgentE.negative_words r < AgentE.positive_words r)%nat
      ∧ AgentE.confidence r = (6 # 10)%Q)
     ∨ (AgentE.sentiment r = "negative"
        ∧ (AgentE.positive_words r < AgentE.negative_words r)%nat
        ∧ AgentE.confidence r = (6 # 10)%Q)
     ∨ (AgentE.sentiment r = "neutral"
        ∧ AgentE.positive_words r = AgentE.negative_words r
        ∧ AgentE.confidence r = (4 # 10)%Q))
    ∧ (AgentE.positive_words r + AgentE.negative_words r <= AgentE.total_words r)%nat
    ∧ (1 <= AgentE.total_words r)%nat
    ∧ AgentE.sentimentFallback (toLowerCase text) = r.
Proof.
  intros text _ r. subst r. split; [|split; [|split]].
  - unfold AgentE.sentimentFallback.
    set (pos := AgentE.count_in AgentE.positiveWords _).
    set (neg := AgentE.count_in AgentE.negativeWords _).
    destruct (neg <? pos)%nat eqn:E1; [|destruct (pos <? neg)%nat eqn:E2].
    + left. apply Nat.ltb_lt in E1. cbn [AgentE.sentiment AgentE.score AgentE.confidence
        AgentE.positive_words AgentE.negative_words].
      assert (Hk : (1 <= Z.of_nat (pos - neg))%Z) by lia.
      set (k := Z.of_nat (pos - neg)) in *. clearbody k.
      assert (Hlt : ((3 # 10) < qmin (8 # 10) ((3 # 10) + inject_Z k * (1 # 10)))%Q).
      { unfold qmin. destruct (Qle_bool _ _); [done|].
        unfold Qlt, Qplus, Qmult, inject_Z. simpl. lia. }
      assert (Hle : (qmin (8 # 10) ((3 # 10) + inject_Z k * (1 # 10)) <= (8 # 10))%Q).
      { unfold qmin. destruct (Qle_bool _ _) eqn:Eb; [apply Qle_refl|].
        apply Qlt_le_weak, Qnot_le_lt. intros H%Qle_bool_iff. congruence. }
      split_and!; [done|done|].
      unfold qabs. assert (Hpos : (0 <= qmin (8 # 10) ((3 # 10) + inject_Z k * (1 # 10)))%Q).
      { apply Qlt_le_weak. eapply Qlt_trans; [|exact Hlt]. done. }
      apply Qle_bool_iff in Hpos. rewrite Hpos.
      destruct (Qle_bool (qmin _ _) 0) eqn:Eb; [|done].
      apply Qle_bool_iff in Eb. exfalso. apply (Qlt_not_le _ _ Hlt).
      eapply Qle_trans; [exact Eb|done].
    + right; left. apply Nat.ltb_lt in E2.
      cbn [AgentE.sentiment AgentE.score AgentE.confidence
           AgentE.positive_words AgentE.negative_words].
      assert (Hk : (1 <= Z.of_nat (neg - pos))%Z) by lia.
      set (k := Z.of_nat (neg - pos)) in *. clearbody k.
      assert (Hlt : (qmax (- (8 # 10)) (- (3 # 10) - inject_Z k * (1 # 10)) < - (3 # 10))%Q).
      { unfold qmax. destruct (Qle_bool _ _); [|done].
        unfold Qlt, Qminus, Qplus, Qmult, Qopp, inject_Z. simpl. lia. }
      assert (Hle : (- (8 # 10) <= qmax (- (8 # 10)) (- (3 # 10) - inject_Z k * (1 # 10)))%Q).
      { unfold qmax. destruct (Qle_bool _ _) eqn:Eb; [by apply Qle_bool_iff|apply Qle_refl]. }
      split_and!; [done|done|].
      unfold qabs.
      destruct (Qle_bool 0 (qmax _ _)) eqn:Eb.
      { apply Qle_bool_iff in Eb. exfalso. apply (Qlt_not_le _ _ Hlt).
        eapply Qle_trans; [|exact Eb]. done. }
      destruct (Qle_bool (- qmax _ _) 0) eqn:Eb2; [|done].
      apply Qle_bool_iff in Eb2. exfalso. apply (Qlt_not_le _ _ Hlt).
      apply Qopp_le_compat in Eb2. rewrite Qopp_involutive in Eb2.
      eapply Qle_trans; [|exact Eb2]. done.
    + right; right. apply Nat.ltb_ge in E1. apply Nat.ltb_ge in E2.
      cbn. split_and!; [done|lia|done].
  - unfold AgentE.sentimentFallback.
    destruct (_ <? _)%nat; [|destruct (_ <? _)%nat];
      cbn [AgentE.positive_words AgentE.negative_words AgentE.total_words];
      apply count_in_disjoint.
  - unfold AgentE.sentimentFallback.
    destruct (_ <? _)%nat; [|destruct (_ <? _)%nat]; cbn [AgentE.total_words].
    all: generalize (toLowerCase text); intros s; destruct s as [|c s]; simpl; [lia|].
    all: destruct (is_space c); [destruct (starts_with_space s)|destruct (split_ws s)];
      simpl; try lia.
    all: clear; induction s as [|c' s IH]; simpl; [lia|].
    all: destruct (is_space c'); [destruct (starts_with_space s)|destruct (split_ws s)];
      simpl in *; lia.
  - unfold AgentE.sentimentFallback. by rewrite toLowerCase_idem.
Qed.

(** At a concrete text. *)
Lemma sentimentFallback_is_consistent_witness :
  let r := AgentE.sentimentFallback "Good day, BAD luck and a great joy" in
  ((AgentE.sentiment r = "positive"
    ∧ (AgentE.negative_words r < AgentE.positive_words r)%nat
    ∧ AgentE.confidence r = (6 # 10)%Q)
   ∨ (AgentE.sentiment r = "negative"
      ∧ (AgentE.positive_words r < AgentE.negative_words r)%nat
      ∧ AgentE.confidence r = (6 # 10)%Q)
   ∨ (AgentE.sentiment r = "neutral"
      ∧ AgentE.positive_words r = AgentE.negative_words r
      ∧ AgentE.confidence r = (4 # 10)%Q))
  ∧ (AgentE.positive_words r + AgentE.negative_words r <= AgentE.total_words r)%nat
  ∧ (1 <= AgentE.total_words r)%nat
  ∧ AgentE.sentimentFallback (toLowerCase "Good day, BAD luck and a great joy") = r.
Proof.
  exact (sentimentFallback_is_consistent "Good day, BAD luck and a great joy" eq_refl).
Defined.

(* ===================================================================== *)
(** * The supervisor: stopping, waiting, starting all *)
(* ===================================================================== *)

(** Whether the child of an agent is recorded as gone. *)
Definition exited_of (agentId : string) (s : Orchestrator.state) : option bool :=
  (fun a => Orchestrator.exited (Orchestrator.process a))
    <$> JsMap.get String.eqb agentId (Orchestrator.agents s).

(** What [stopAgent] does, in full. *)
Lemma stopAgent_effect :
  ∀ (exit_delay : N -> string -> N -> option N) (agentId : string)
    (p : proc Orchestrator.state),
    let out := runM (Orchestrator.stopAgent exit_delay agentId) p in
    match JsMap.get String.eqb agentId (Orchestrator.agents (self p)) with
    | None =>
        out = (inl (Error ("Agent " ++ agentId ++ " not found or not running")), p)
    | Some a =>
        let child := Orchestrator.process a in
        fst out = inr "stopped"
        ∧ status_of agentId (self (snd out)) = Some "stopped"
        ∧ Orchestrator.os_calls (self (snd out))
          = (Orchestrator.os_calls (self p)
             ++ if Orchestrator.exited child then []
                else [Orchestrator.Kill (Orchestrator.pid child) "SIGTERM"])%list
        ∧ exited_of agentId (self (snd out))
          = Some (Orchestrator.exited child
                  || match exit_delay (Orchestrator.pid child) "SIGTERM" (now p) with
                     | Some d => d <? 5000
                     | None => false
                     end)
        ∧ now p <= now (snd out) <= now p + 5000
        ∧ calls (snd out) = calls p
    end.
Proof.
  intros exit_delay agentId p out. subst out.
  destruct (JsMap.get String.eqb agentId (Orchestrator.agents (self p))) as [a|] eqn:Hget.
  2: { unfold Orchestrator.stopAgent. cbn [mbind M_bind runM this]. by rewrite Hget. }
  unfold Orchestrator.stopAgent, Orchestrator.kill.
  cbn [mbind M_bind runM this]. rewrite Hget.
  cbn [mbind M_bind runM this]. rewrite Hget.
  destruct (Orchestrator.exited (Orchestrator.process a)) eqn:Hex.
  - run_m. rewrite !get_alter_agent, Hget. run_m.
    destruct (Orchestrator.killed (Orchestrator.process a)) eqn:Hk; run_m.
    + unfold status_of, exited_of. run_m.
      rewrite !get_alter_agent, Hget. cbn. rewrite app_nil_r, Hex.
      split_and!; [done|done|done|done|lia|lia|done].
    + rewrite !get_alter_agent, Hget. run_m. rewrite Hex. run_m.
      unfold status_of, exited_of. run_m.
      rewrite !get_alter_agent, Hget. cbn. rewrite app_nil_r, Hex.
      split_and!; [done|done|done|done|lia|lia|done].
  - run_m.
    destruct (exit_delay (Orchestrator.pid (Orchestrator.process a)) "SIGTERM" (now p))
      as [d|]; [destruct (d <? 5000) eqn:Hd|]; run_m;
      rewrite ?get_alter_agent, ?Hget; run_m;
      unfold status_of, exited_of; run_m;
      rewrite !get_alter_agent, ?Hget; cbn;
      try apply N.ltb_lt in Hd;
      (split_and!; [done|done|done|done|lia|lia|done]).
Qed.

(** [stopAgent] signals at most once and never escalates: an agent the
    supervisor has no record of makes it throw and changes nothing; for a
    recorded agent it sends SIGTERM (unless the child is already gone), waits
    for the exit or for 5 s, whichever comes first, and records the agent as
    stopped and returns "stopped" either way.  Because the SIGTERM marked
    the child as killed, the SIGKILL of the 5 s timer is never sent: a child
    that outlives the 5 s is recorded as stopped while it still runs. *)
Theorem stopAgent_signals_once :
  ∀ (exit_delay : N -> string -> N -> option N) (agentId : string)
    (p : proc Orchestrator.state),
    let out := runM (Orchestrator.stopAgent exit_delay agentId) p in
    match JsMap.get String.eqb agentId (Orchestrator.agents (self p)) with
    | None =>
        out = (inl (Error ("Agent " ++ agentId ++ " not found or not running")), p)
    | Some a =>
        let child := Orchestrator.process a in
        fst out = inr "stopped"
        ∧ status_of agentId (self (snd out)) = Some "stopped"
        ∧ Orchestrator.os_calls (self (snd out))
          = (Orchestrator.os_calls (self p)
             ++ if Orchestrator.exited child then []
                else [Orchestrator.Kill (Orchestrator.pid child) "SIGTERM"])%list
        ∧ exited_of agentId (self (snd out))
          = Some (Orchestrator.exited child
                  || match exit_delay (Orchestrator.pid child) "SIGTERM" (now p) with
                     | Some d => d <? 5000
                     | None => false
                     end)
        ∧ now p <= now (snd out) <= now p + 5000
        ∧ calls (snd out) = calls p
    end.
Proof.
  intros exit_delay agentId p out. subst out.
  pose proof (stopAgent_effect exit_delay agentId p) as H. cbv zeta in H.
  destruct (JsMap.get String.eqb agentId (Orchestrator.agents (self p))) as [a|];
    [|exact H].
  destruct H as (Hret & Hstatus & Hos & Hexit & (Hge & Hle) & Hcalls).
  cbv zeta. by split_and!.
Qed.

(** A liveness request of [waitForAgent] that got no answer within 1 s. *)
Definition unanswered (w : world) (port : N) (c : call) : Prop :=
  ∃ t msg, c = GET ("http://localhost:" ++ show_N port ++ "/status") t
           ∧ snd (within (Some 1000)
                    (get_json w ("http://localhost:" ++ show_N port ++ "/status") t))
             = Failure msg.

Section waitForAgent_props.
Context (w : world).

(** The loop of [waitForAgent] ends within its fuel: a turn that goes round
    again has paused for 500 ms. *)
Lemma wait_loop_spec (fuel k : nat) (port start timeout : N)
    (p : proc Orchestrator.state) :
  start + timeout <= now p + 500 * N.of_nat k ->
  (k < fuel)%nat ->
  now p <= start + timeout + 1500 ->
  ∃ (r : bool) p' l,
    runM (Orchestrator.wait_loop w fuel port start timeout) p = (inr (Some r), p')
    ∧ self p' = self p
    ∧ now p <= now p' <= start + timeout + 1500
    ∧ calls p' = (calls p ++ l)%list
    ∧ if r then
        ∃ l0 t d, l = (l0 ++ [GET ("http://localhost:" ++ show_N port ++ "/status") t])%list
                  ∧ Forall (unanswered w port) l0
                  ∧ snd (within (Some 1000)
                           (get_json w ("http://localhost:" ++ show_N port ++ "/status") t))
                    = Reply d
      else Forall (unanswered w port) l.
Proof.
  revert k p. induction fuel as [|fuel IH]; intros k p Hk Hfuel Hnow; [lia|].
  cbn [Orchestrator.wait_loop]. rewrite runM_bind. cbn [date_now runM].
  destruct (now p - start <? timeout) eqn:Hc.
  2: { exists false, p, []. rewrite app_nil_r.
       split_and!; [done|done|lia|lia|done|by apply Forall_nil]. }
  apply N.ltb_lt in Hc.
  rewrite runM_bind. unfold try_catch, axios_get. run_m.
  pose proof (within_le 1000
                (get_json w ("http://localhost:" ++ show_N port ++ "/status") (now p)))
    as Hlat.
  destruct (snd (within (Some 1000) (get_json w _ (now p)))) as [d|msg] eqn:Hr; run_m.
  - eexists true, _, [_]. split; [reflexivity|]. run_m.
    split_and!; [done|lia|lia|done|].
    exists [], (now p), d. split_and!; [done|by apply Forall_nil|done].
  - destruct k as [|k]; [lia|].
    match goal with
    | |- context [runM (Orchestrator.wait_loop _ _ _ _ _) ?q] =>
        destruct (IH k q) as (r & p' & l & Hrun & Hself & Ht & Hcalls & Hl)
    end.
    { run_m. lia. }
    { lia. }
    { run_m. lia. }
    assert (Hun : unanswered w port
                    (GET ("http://localhost:" ++ show_N port ++ "/status") (now p))).
    { by exists (now p), msg. }
    rewrite Hrun. revert Ht Hcalls Hself. run_m. intros Ht Hcalls Hself.
    exists r, p', (GET ("http://localhost:" ++ show_N port ++ "/status") (now p) :: l).
    split; [by destruct r|]. split; [done|]. split; [lia|].
    split; [by rewrite Hcalls, <-app_assoc|].
    destruct r.
    + destruct Hl as (l0 & t & d & -> & Hl0 & Hd).
      exists (GET ("http://localhost:" ++ show_N port ++ "/status") (now p) :: l0), t, d.
      split_and!; [done|by constructor|done].
    + by constructor.
Qed.
End waitForAgent_props.

(** [waitForAgent] probes the status endpoint until the first answer, with
    half a second between tries: it returns true with the first request that
    is answered within 1 s, all earlier ones having failed, or throws its
    "did not start" error when none was; either way it ends at most
    [timeout] + 1.5 s after it began and changes nothing in the supervisor. *)
Theorem waitForAgent_is_bounded :
  ∀ (w : world) (port timeout : N) (p : proc Orchestrator.state),
    let url := "http://localhost:" ++ show_N port ++ "/status" in
    let out := runM (Orchestrator.waitForAgent w port timeout) p in
    fst (runM (Orchestrator.wait_loop w (N.to_nat (timeout / 500) + 2) port (now p) timeout) p)
    ≠ inr None
    ∧ self (snd out) = self p
    ∧ now p <= now (snd out) <= now p + timeout + 1500
    ∧ ∃ l, calls (snd out) = (calls p ++ l)%list
           ∧ match fst out with
             | inr _ =>
                 fst out = inr true
                 ∧ ∃ l0 t d, l = (l0 ++ [GET url t])%list
                             ∧ Forall (unanswered w port) l0
                             ∧ snd (within (Some 1000) (get_json w url t)) = Reply d
             | inl e =>
                 e = Error ("Agent on port " ++ show_N port ++ " did not start within "
                              ++ show_N timeout ++ "ms")
                 ∧ Forall (unanswered w port) l
             end.
Proof.
  intros w port timeout p url out. subst out url.
  destruct (poll_fuel_enough timeout) as (Hk & Hfuel). unfold AgentE.poll_fuel in Hfuel.
  destruct (wait_loop_spec w (N.to_nat (timeout / 500) + 2) (N.to_nat (timeout / 500) + 1)
              port (now p) timeout p ltac:(lia) Hfuel ltac:(lia))
    as (r & p' & l & Hrun & Hself & Ht & Hcalls & Hl).
  unfold Orchestrator.waitForAgent. rewrite runM_bind. cbn [date_now runM].
  rewrite runM_bind, Hrun. split; [simpl; congruence|].
  destruct r; cbn; (split_and!; [done|lia|lia|]); exists l; (split; [done|]).
  - split; [done|]. exact Hl.
  - split; [done|]. exact Hl.
Qed.

(* ===================================================================== *)
(** * The supervisor: the functions behind its management API *)
(*    (advanced-orchestrator.js)                                          *)
(* ===================================================================== *)

Module OrchestratorApi.

(** An element of the array [startAllAgents] returns. *)
Inductive start_result : Type :=
| StartOk (result : Orchestrator.started)          (* { success: true, ...result } *)
| StartFailed (agentId : string) (error : string). (* { success: false, agentId, error } *)

(** An element of the array [stopAllAgents] returns. *)
Inductive stop_result : Type :=
| StopOk (agentId : string) (status : string)
| StopFailed (agentId : string) (error : string).

(** An element of the array [performDiscovery] returns. *)
Record discovered : Type := Discovered {
  dc_config : Orchestrator.agent_config;
  dc_status : string;
  dc_agent_card : option agent_card;
  dc_error : option string;
  dc_discovered_at : N
}.

Section OrchestratorApi.
Context (w : world).
Context (dirname : string).
Context (exit_delay : N -> string -> N -> option N).

(** The [for (const config of this.agentConfigs)] loop of [startAllAgents]. *)
Fixpoint start_each (configs : list Orchestrator.agent_config)
  : M Orchestrator.state (list start_result) :=
  match configs with
  | [] => mret []
  | config :: rest =>
      r ← try_catch
            (result ← Orchestrator.startAgent w dirname (Orchestrator.cfg_id config);
             mret (StartOk result))
            (fun error => mret (StartFailed (Orchestrator.cfg_id config) (message error)));
      results ← start_each rest;
      mret (r :: results)
  end.

Definition startAllAgents : M Orchestrator.state (list start_result) :=
  start_each Orchestrator.agentConfigs.

(** The [for (const [agentId] of this.agents)] loop of [stopAllAgents]. *)
Fixpoint stop_each (agentIds : list string) : M Orchestrator.state (list stop_result) :=
  match agentIds with
  | [] => mret []
  | agentId :: rest =>
      r ← try_catch
            (status ← Orchestrator.stopAgent exit_delay agentId;
             mret (StopOk agentId status))
            (fun error => mret (StopFailed agentId (message error)));
      results ← stop_each rest;
      mret (r :: results)
  end.

Definition stopAllAgents : M Orchestrator.state (list stop_result) :=
  s ← this;
  stop_each (JsMap.keys (Orchestrator.agents s)).

(** The [for (const config of this.agentConfigs)] loop of [performDiscovery]. *)
Fixpoint discover_each (configs : list Orchestrator.agent_config)
  : M Orchestrator.state (list discovered) :=
  match configs with
  | [] => mret []
  | config :: rest =>
      d ← try_catch
            (card ← axios_get_card w
                      ("http://localhost:" ++ show_N (Orchestrator.cfg_port config)
                         ++ "/agent-card") (Some 5000);
             t ← date_now;
             mret {| dc_config := config; dc_status := "online";
                     dc_agent_card := Some card; dc_error := None;
                     dc_discovered_at := t |})
            (fun error =>
               t ← date_now;
               mret {| dc_config := config; dc_status := "offline";
                       dc_agent_card := None; dc_error := Some (message error);
                       dc_discovered_at := t |});
      ds ← discover_each rest;
      mret (d :: ds)
  end.

Definition performDiscovery : M Orchestrator.state (list discovered) :=
  discover_each Orchestrator.agentConfigs.
End OrchestratorApi.
End OrchestratorApi.

(** ** Starting all agents *)

Lemma start_each_run (w : world) (dirname : string)
    (configs : list Orchestrator.agent_config) (p : proc Orchestrator.state) :
  Forall (fun c => is_configured (Orchestrator.cfg_id c) = true) configs ->
  runM (OrchestratorApi.start_each w dirname configs) p
  = (inr (map (fun c =>
                 OrchestratorApi.StartFailed (Orchestrator.cfg_id c)
                   (if is_running (Orchestrator.cfg_id c) (self p)
                    then "Agent " ++ Orchestrator.cfg_id c ++ " is already running"
                    else "Cannot access 'process' before initialization"))
            configs),
     p).
Proof.
  induction 1 as [|c configs Hc _ IH]; [done|].
  cbn [OrchestratorApi.start_each]. rewrite runM_bind. unfold try_catch. cbn [runM].
  rewrite runM_bind, startAgent_run, Hc. cbn [negb runM mret M_ret message].
  rewrite runM_bind, IH. reflexivity.
Qed.

(** [startAllAgents] starts nothing: every call of [startAgent] it makes
    throws (see [startAgent_throws]) and is caught, so it returns one failure
    per configured agent, in the order of the configuration, "already
    running" for an agent recorded as running and the ReferenceError of
    [startAgent] for every other, and leaves the supervisor as it was: no
    process spawned, no agent recorded, no request sent. *)
Theorem startAllAgents_starts_nothing :
  ∀ (w : world) (dirname : string) (p : proc Orchestrator.state),
    runM (OrchestratorApi.startAllAgents w dirname) p
    = (inr (map (fun agentId =>
                   OrchestratorApi.StartFailed agentId
                     (if is_running agentId (self p)
                      then "Agent " ++ agentId ++ " is already running"
                      else "Cannot access 'process' before initialization"))
              ["agent-a"; "agent-b"; "agent-c"; "agent-d"]),
       p).
Proof.
  intros w dirname p. unfold OrchestratorApi.startAllAgents.
  rewrite start_each_run; [done|]. by repeat constructor.
Qed.


(** ** Stopping all agents *)

(** [stopAgent] on one agent leaves the records of the others alone. *)
Definition others_kept (agentId : string) (s s' : Orchestrator.state) : Prop :=
  JsMap.keys (Orchestrator.agents s') = JsMap.keys (Orchestrator.agents s)
  ∧ ∀ k, k ≠ agentId ->
         JsMap.get String.eqb k (Orchestrator.agents s')
         = JsMap.get String.eqb k (Orchestrator.agents s).

Lemma others_kept_refl agentId s : others_kept agentId s s.
Proof. by split. Qed.
Lemma others_kept_trans agentId s1 s2 s3 :
  others_kept agentId s1 s2 -> others_kept agentId s2 s3 -> others_kept agentId s1 s3.
Proof.
  intros (Hk1 & Hg1) (Hk2 & Hg2). split; [congruence|].
  intros k Hk. by rewrite Hg2, Hg1.
Qed.

Lemma keys_alter_agent (agentId : string) (f : Orchestrator.agent -> Orchestrator.agent)
    (m : list (string * Orchestrator.agent)) :
  JsMap.keys (Orchestrator.alter_agent agentId f m) = JsMap.keys m.
Proof.
  unfold JsMap.keys, Orchestrator.alter_agent. rewrite map_map. apply map_ext.
  intros e. by destruct (String.eqb agentId (fst e)).
Qed.

Lemma get_alter_agent_ne (agentId k : string)
    (f : Orchestrator.agent -> Orchestrator.agent) (m : list (string * Orchestrator.agent)) :
  k ≠ agentId ->
  JsMap.get String.eqb k (Orchestrator.alter_agent agentId f m) = JsMap.get String.eqb k m.
Proof.
  intros Hne. unfold JsMap.get, Orchestrator.alter_agent.
  induction m as [|[k0 a] m IH]; [done|]. simpl.
  destruct (String.eqb agentId k0) eqn:E; simpl.
  - apply String.eqb_eq in E as <-.
    assert (String.eqb k agentId = false) as -> by by apply String.eqb_neq.
    apply IH.
  - destruct (String.eqb k k0); [done|apply IH].
Qed.

Lemma others_kept_alter agentId f s :
  others_kept agentId s
    (Orchestrator.set_agents (Orchestrator.alter_agent agentId f) s).
Proof.
  split; simpl; [apply keys_alter_agent|]. intros k Hk. by apply get_alter_agent_ne.
Qed.
Lemma others_kept_log_os agentId c s : others_kept agentId s (Orchestrator.log_os c s).
Proof. by split. Qed.

#[local] Hint Resolve others_kept_refl others_kept_trans others_kept_alter
  others_kept_log_os : frame.

Lemma others_kept_stopAgent (exit_delay : N -> string -> N -> option N)
    (agentId : string) :
  respects (others_kept agentId) (Orchestrator.stopAgent exit_delay agentId).
Proof. unfold Orchestrator.stopAgent, Orchestrator.kill. respects_auto. Qed.

(** The signal [stopAgent] sends to the child of an agent, if any. *)
Definition sigterm_for (a : Orchestrator.agent) : list Orchestrator.os_call :=
  if Orchestrator.exited (Orchestrator.process a) then []
  else [Orchestrator.Kill (Orchestrator.pid (Orchestrator.process a)) "SIGTERM"].

Lemma get_of_key (k : string) (m : list (string * Orchestrator.agent)) :
  In k (JsMap.keys m) -> is_Some (JsMap.get String.eqb k m).
Proof.
  unfold JsMap.keys, JsMap.get. induction m as [|[k0 a] m IH]; simpl; [done|].
  intros [->|Hin].
  - rewrite String.eqb_refl. by eexists.
  - destruct (String.eqb k k0); [by eexists|by apply IH].
Qed.

Lemma flat_map_entries (m l : list (string * Orchestrator.agent)) :
  (∀ e, In e l -> JsMap.get String.eqb (fst e) m = Some (snd e)) ->
  flat_map (fun k => match JsMap.get String.eqb k m with
                     | Some a => sigterm_for a
                     | None => []
                     end) (map fst l)
  = flat_map (fun e => sigterm_for (snd e)) l.
Proof.
  induction l as [|e l IH]; intros Hl; [done|]. cbn [map flat_map].
  rewrite (Hl e) by by left. f_equal. apply IH. intros e' He'. apply Hl. by right.
Qed.

Section stopAllAgents_props.
Context (exit_delay : N -> string -> N -> option N).

Lemma stop_each_spec (ks : list string) (p : proc Orchestrator.state) :
  List.NoDup ks ->
  (∀ k, In k ks -> is_Some (JsMap.get String.eqb k (Orchestrator.agents (self p)))) ->
  ∃ p',
    runM (OrchestratorApi.stop_each exit_delay ks) p
    = (inr (map (fun k => OrchestratorApi.StopOk k "stopped") ks), p')
    ∧ JsMap.keys (Orchestrator.agents (self p')) = JsMap.keys (Orchestrator.agents (self p))
    ∧ (∀ k, In k ks -> status_of k (self p') = Some "stopped")
    ∧ (∀ k, ¬ In k ks ->
            JsMap.get String.eqb k (Orchestrator.agents (self p'))
            = JsMap.get String.eqb k (Orchestrator.agents (self p)))
    ∧ Orchestrator.os_calls (self p')
      = (Orchestrator.os_calls (self p)
         ++ flat_map (fun k => match JsMap.get String.eqb k (Orchestrator.agents (self p)) with
                               | Some a => sigterm_for a
                               | None => []
                               end) ks)%list
    ∧ calls p' = calls p
    ∧ now p <= now p' <= now p + 5000 * N.of_nat (List.length ks).
Proof.
  revert p. induction ks as [|k ks IH]; intros p Hnd Hin.
  { exists p. simpl. rewrite app_nil_r. split_and!; try done; lia. }
  inversion Hnd as [|? ? Hk Hnd']; subst.
  destruct (Hin k (or_introl eq_refl)) as [a Ha].
  pose proof (stopAgent_effect exit_delay k p) as Heff. cbv zeta in Heff.
  rewrite Ha in Heff. destruct Heff as (Hret & Hst & Hos & _ & Ht & Hc).
  destruct (others_kept_stopAgent exit_delay k p) as (Hkeys & Hframe).
  cbn [OrchestratorApi.stop_each]. rewrite runM_bind. unfold try_catch. cbn [runM].
  rewrite runM_bind.
  destruct (runM (Orchestrator.stopAgent exit_delay k) p) as [r p1].
  cbn [fst snd] in *. subst r. cbn [runM mret M_ret]. rewrite runM_bind.
  destruct (IH p1 Hnd') as (p' & Hrun & Hkeys' & Hst' & Hframe' & Hos' & Hc' & Ht').
  { intros k' Hk'. rewrite Hframe; [apply Hin; by right|]. by intros ->. }
  rewrite Hrun. exists p'. split; [done|]. split; [congruence|]. split_and!.
  - intros k' [<-|Hk']; [|by apply Hst'].
    unfold status_of. rewrite Hframe' by done. exact Hst.
  - intros k' Hk'. rewrite Hframe'; [apply Hframe|]; intros H; apply Hk'; [by left|by right].
  - rewrite Hos', Hos. cbn [flat_map]. rewrite Ha, <-!app_assoc. f_equal.
    unfold sigterm_for at 2. f_equal.
    clear -Hframe Hk. induction ks as [|k' ks IHks]; [done|]. cbn [flat_map].
    rewrite Hframe, IHks; [done| |].
    + intros H. apply Hk. by right.
    + intros ->. apply Hk. by left.
  - congruence.
  - lia.
  - cbn [List.length]. lia.
Qed.
End stopAllAgents_props.

(** [stopAllAgents] stops every recorded agent and never fails: it returns
    one success per agent, in the order of the map; afterwards every agent is
    recorded as stopped; each child that had not exited got one SIGTERM, in
    that order, and nothing else was signalled; no request is sent; and it
    takes at most 5 s per agent. *)
Theorem stopAllAgents_stops_each_once :
  ∀ (exit_delay : N -> string -> N -> option N) (p : proc Orchestrator.state),
    List.NoDup (JsMap.keys (Orchestrator.agents (self p))) ->
    let out := runM (OrchestratorApi.stopAllAgents exit_delay) p in
    fst out = inr (map (fun k => OrchestratorApi.StopOk k "stopped")
                     (JsMap.keys (Orchestrator.agents (self p))))
    ∧ JsMap.keys (Orchestrator.agents (self (snd out)))
      = JsMap.keys (Orchestrator.agents (self p))
    ∧ Forall (fun e => Orchestrator.a_status (snd e) = "stopped")
        (Orchestrator.agents (self (snd out)))
    ∧ Orchestrator.os_calls (self (snd out))
      = (Orchestrator.os_calls (self p)
         ++ flat_map (fun e => sigterm_for (snd e)) (Orchestrator.agents (self p)))%list
    ∧ calls (snd out) = calls p
    ∧ now p <= now (snd out)
      <= now p + 5000 * N.of_nat (List.length (Orchestrator.agents (self p))).
Proof.
  intros exit_delay p Hnd out. subst out.
  unfold OrchestratorApi.stopAllAgents. rewrite runM_bind. cbn [this runM].
  destruct (stop_each_spec exit_delay _ p Hnd (fun k => get_of_key k _))
    as (p' & Hrun & Hkeys & Hst & _ & Hos & Hc & Ht).
  rewrite Hrun. cbn [fst snd]. split_and!; [done|done| | |done|lia|].
  - apply List.Forall_forall. intros [k a] Hin. unfold JsMap.keys in *.
    assert (Hk : In k (map fst (Orchestrator.agents (self p)))).
    { rewrite <-Hkeys. by apply (in_map fst) in Hin. }
    specialize (Hst k Hk). unfold status_of in Hst.
    rewrite (In_get String.eqb String.eqb_eq k a) in Hst; [by injection Hst|by rewrite Hkeys|done].
  - rewrite Hos. f_equal. unfold JsMap.keys in *.
    apply flat_map_entries. intros [k a] Hin.
    by apply (In_get String.eqb String.eqb_eq).
  - unfold JsMap.keys in Ht. rewrite length_map in Ht. lia.
Qed.

(** At a concrete state: agent-a alone is recorded, its child still runs. *)
Lemma stopAllAgents_stops_each_once_witness :
  let out := runM (OrchestratorApi.stopAllAgents exits_quickly) (supervising 0) in
  fst out = inr [OrchestratorApi.StopOk "agent-a" "stopped"]
  ∧ JsMap.keys (Orchestrator.agents (self (snd out))) = ["agent-a"]
  ∧ Forall (fun e => Orchestrator.a_status (snd e) = "stopped")
      (Orchestrator.agents (self (snd out)))
  ∧ Orchestrator.os_calls (self (snd out)) = [Orchestrator.Kill 0 "SIGTERM"]
  ∧ calls (snd out) = []
  ∧ 0 <= now (snd out) <= 5000.
Proof.
  apply (stopAllAgents_stops_each_once exits_quickly (supervising 0)).
  repeat constructor. simpl. tauto.
Defined.

(** ** The discovery of the supervisor *)

(** The entry [d] is what the card request [c] came back with. *)
Definition reports (w : world) (d : OrchestratorApi.discovered) (c : call) : Prop :=
  let url := "http://localhost:"
             ++ show_N (Orchestrator.cfg_port (OrchestratorApi.dc_config d))
             ++ "/agent-card" in
  ∃ t, c = GET url t
       ∧ match snd (within (Some 5000) (get_card w url t)) with
         | Reply card =>
             OrchestratorApi.dc_status d = "online"
             ∧ OrchestratorApi.dc_agent_card d = Some card
             ∧ OrchestratorApi.dc_error d = None
         | Failure msg =>
             OrchestratorApi.dc_status d = "offline"
             ∧ OrchestratorApi.dc_agent_card d = None
             ∧ OrchestratorApi.dc_error d = Some msg
         end.

Lemma discover_each_spec (w : world) (configs : list Orchestrator.agent_config)
    (p : proc Orchestrator.state) :
  ∃ ds p' l,
    runM (OrchestratorApi.discover_each w configs) p = (inr ds, p')
    ∧ map OrchestratorApi.dc_config ds = configs
    ∧ self p' = self p
    ∧ calls p' = (calls p ++ l)%list
    ∧ Forall2 (reports w) ds l
    ∧ now p <= now p' <= now p + 5000 * N.of_nat (List.length configs).
Proof.
  revert p. induction configs as [|config configs IH]; intros p.
  { exists [], p, []. rewrite app_nil_r.
    split_and!; [done|done|done|done|constructor|lia|simpl; lia]. }
  cbn [OrchestratorApi.discover_each]. rewrite runM_bind.
  unfold try_catch, axios_get_card. cbn [runM]. rewrite !runM_bind. cbn [date_now runM settle].
  pose proof (within_le 5000
                (get_card w ("http://localhost:" ++ show_N (Orchestrator.cfg_port config)
                               ++ "/agent-card") (now p))) as Hlat.
  destruct (within (Some 5000) (get_card w _ (now p))) as [lat [card|msg]] eqn:Hr;
    cbn [fst snd] in *; cbn [runM mret M_ret mbind M_bind date_now].
  all: rewrite runM_bind.
  all: match goal with
       | |- context [runM (OrchestratorApi.discover_each _ _) ?q] =>
           destruct (IH q) as (ds & p' & l & Hrun & Hcfg & Hself & Hcalls & Hrep & Ht)
       end.
  all: rewrite Hrun; cbn [runM mret M_ret] in *.
  all: eexists (_ :: ds), p', (_ :: l).
  all: split; [reflexivity|]; split; [by rewrite <-Hcfg|]; split; [done|].
  all: split; [rewrite Hcalls; cbn; by rewrite <-app_assoc|].
  all: split; [|revert Ht; cbn; lia].
  all: constructor; [|done]; unfold reports; cbv zeta;
    cbn [OrchestratorApi.dc_config]; exists (now p); split; [done|]; by rewrite Hr.
Qed.

(** The discovery of the supervisor asks each configured agent for its card,
    once and in the order of the configuration, giving up after 5 s: it never
    throws; it returns one entry per configured agent, in that order, online
    with the card when the request was answered and offline with the error
    message when it was not; it takes at most 20 s and records nothing in the
    supervisor. *)
Theorem supervisor_discovery_reports_each_agent :
  ∀ (w : world) (p : proc Orchestrator.state),
    let out := runM (OrchestratorApi.performDiscovery w) p in
    ∃ ds l,
      fst out = inr ds
      ∧ map (fun d => Orchestrator.cfg_id (OrchestratorApi.dc_config d)) ds
        = ["agent-a"; "agent-b"; "agent-c"; "agent-d"]
      ∧ map OrchestratorApi.dc_config ds = Orchestrator.agentConfigs
      ∧ calls (snd out) = (calls p ++ l)%list
      ∧ Forall2 (reports w) ds l
      ∧ self (snd out) = self p
      ∧ now p <= now (snd out) <= now p + 20000.
Proof.
  intros w p out. subst out. unfold OrchestratorApi.performDiscovery.
  destruct (discover_each_spec w Orchestrator.agentConfigs p)
    as (ds & p' & l & Hrun & Hcfg & Hself & Hcalls & Hrep & Ht).
  rewrite Hrun. exists ds, l. cbn [fst snd].
  split_and!; [done| |done|done|done|done|lia|simpl in Ht; lia].
  rewrite <-(map_map OrchestratorApi.dc_config Orchestrator.cfg_id), Hcfg. reflexivity.
Qed.

(** ** Routing by method name *)

(** The agent type the [if] chain of [routeAndExecuteTask] picks. *)
Definition route_type (m : string) : option string :=
  if String.prefix "text_" m then Some "text-processor"
  else if String.prefix "math_" m || includes m "math" then Some "math-calculator"
  else if String.prefix "sentiment_" m || includes m "sentiment" || includes m "emotion"
       then Some "sentiment-analyzer"
  else if String.prefix "language_" m || includes m "language" then Some "language-detector"
  else None.

Lemma route_unroutable (w : world) (m : string) (params : json)
    (p : proc Orchestrator.state) :
  route_type m = None ->
  runM (Orchestrator.routeAndExecuteTask w (JStr m) params) p
  = (inl (Error ("Unable to route method: " ++ m)), p).
Proof.
  unfold route_type, Orchestrator.routeAndExecuteTask. rewrite runM_bind.
  cbn [Orchestrator.as_method lift runM]. rewrite runM_bind.
  destruct (String.prefix "text_" m); [done|].
  destruct (String.prefix "math_" m || includes m "math"); [done|].
  destruct (String.prefix "sentiment_" m || includes m "sentiment" || includes m "emotion");
    [done|].
  by destruct (String.prefix "language_" m || includes m "language").
Qed.

Lemma route_sends (w : world) (m : string) (params : json) (p : proc Orchestrator.state)
    (type : string) (c : Orchestrator.agent_config) :
  route_type m = Some type ->
  List.find (fun c => String.eqb (Orchestrator.cfg_type c) type) Orchestrator.agentConfigs
  = Some c ->
  calls (snd (runM (Orchestrator.routeAndExecuteTask w (JStr m) params) p))
  = (calls p ++ [POST ("http://localhost:" ++ show_N (Orchestrator.cfg_port c) ++ "/json-rpc")
                   {| req_jsonrpc := JStr "2.0"; req_method := JStr m;
                      req_params := params; req_id := JNum (Z.of_N (now p)) |}
                   (now p)])%list.
Proof.
  intros Hty Hfind.
  assert (Hrun : ∀ k : string -> M Orchestrator.state Orchestrator.routed,
    runM ((if String.prefix "text_" m then mret "text-processor"
           else if String.prefix "math_" m || includes m "math" then mret "math-calculator"
           else if String.prefix "sentiment_" m || includes m "sentiment"
                   || includes m "emotion"
                then mret "sentiment-analyzer"
           else if String.prefix "language_" m || includes m "language"
                then mret "language-detector"
           else throw (Error ("Unable to route method: " ++ m))
           : M Orchestrator.state string) ≫= k) p
    = runM (k type) p).
  { intros k. unfold route_type in Hty. rewrite runM_bind.
    destruct (String.prefix "text_" m); [by injection Hty as <-|].
    destruct (String.prefix "math_" m || includes m "math"); [by injection Hty as <-|].
    destruct (String.prefix "sentiment_" m || includes m "sentiment" || includes m "emotion");
      [by injection Hty as <-|].
    destruct (String.prefix "language_" m || includes m "language");
      [by injection Hty as <-|done]. }
  unfold Orchestrator.routeAndExecuteTask. rewrite runM_bind.
  cbn [Orchestrator.as_method lift runM]. rewrite Hrun, Hfind.
  unfold axios_post. rewrite !runM_bind. cbn [date_now runM]. rewrite !runM_bind.
  cbn [date_now runM settle within].
  destruct (snd (post_rpc w _ _ (now p))) as [r|msg]; [|done].
  rewrite runM_bind. cbn [lift runM]. by destruct (js_get r "result").
Qed.

(** The capabilities the configuration declares that the name rules of
    [routeAndExecuteTask] do not reach. *)
Definition unreached : list string :=
  ["statistical_analysis"; "equation_solving"; "polarity_analysis";
   "multilingual_analysis"].

(** Routing goes by the name of the method, not by the capabilities the
    configuration declares.  A declared capability is sent, in one POST, to
    the port of the agent that declares it, except four whose names match
    none of the rules: statistical_analysis, equation_solving,
    polarity_analysis and multilingual_analysis are refused with "Unable to
    route method" and nothing is sent. *)
Theorem routing_reaches_declared_capabilities :
  ∀ (w : world) (params : json) (p : proc Orchestrator.state),
    Forall (fun c =>
      Forall (fun m =>
        let out := runM (Orchestrator.routeAndExecuteTask w (JStr m) params) p in
        if existsb (String.eqb m) unreached then
          out = (inl (Error ("Unable to route method: " ++ m)), p)
        else
          calls (snd out)
          = (calls p
             ++ [POST ("http://localhost:" ++ show_N (Orchestrator.cfg_port c) ++ "/json-rpc")
                   {| req_jsonrpc := JStr "2.0"; req_method := JStr m;
                      req_params := params; req_id := JNum (Z.of_N (now p)) |}
                   (now p)])%list)
        (Orchestrator.cfg_capabilities c))
      Orchestrator.agentConfigs.
Proof.
  intros w params p. unfold Orchestrator.agentConfigs.
  repeat apply List.Forall_cons.
  all: try apply List.Forall_nil.
  all: match goal with
       | |- context [existsb ?f ?l] =>
           let b := eval vm_compute in (existsb f l) in
           replace (existsb f l) with b by (vm_compute; reflexivity)
       end.
  all: cbv iota.
  all: first [ apply route_unroutable; vm_compute; reflexivity
             | eapply route_sends; [reflexivity|reflexivity] ].
Qed.

(** ** What the automatic restart comes to *)

(** The automatic restart of the health check stops the agent and does not
    bring it back: when the probe of a running agent fails with three or
    more errors already counted, the check runs [stopAgent], waits 2 s and
    calls [startAgent], which throws (see [startAgent_throws]); the throw is
    caught and logged.  The agent is left recorded as stopped, its counter
    one higher and not reset, and no process was spawned.  Later checks
    skip it, since they probe running agents only. *)
Theorem auto_restart_leaves_agent_stopped :
  ∀ (w : world) (dirname : string) (exit_delay : N -> string -> N -> option N)
    (agentId : string) (a : Orchestrator.agent) (p : proc Orchestrator.state),
    JsMap.get String.eqb agentId (Orchestrator.agents (self p)) = Some a ->
    Orchestrator.a_status a = "running" ->
    (∃ msg, snd (probe w a (now p)) = Failure msg) ->
    (3 <= Orchestrator.errorCount a)%nat ->
    let out := runM (Orchestrator.check_agent w dirname exit_delay agentId) p in
    fst out = inr tt
    ∧ status_of agentId (self (snd out)) = Some "stopped"
    ∧ errorCount_of agentId (self (snd out)) = Some (S (Orchestrator.errorCount a))
    ∧ Orchestrator.os_calls (self (snd out))
      = (Orchestrator.os_calls (self p) ++ sigterm_for a)%list
    ∧ (∀ q, self q = self (snd out) ->
            runM (Orchestrator.check_agent w dirname exit_delay agentId) q = (inr tt, q)).
Proof.
  intros w dirname exit_delay agentId a p Hget Hrun [msg Hmsg] Hcount out. subst out.
  destruct (check_agent_restart w dirname exit_delay agentId a p Hget Hrun msg Hmsg Hcount)
    as (p2 & Hstop & Hstatus & Herr & Hos & Hcheck).
  rewrite Hcheck. unfold start_again. rewrite runM_bind, startAgent_run.
  cbn [fst snd elapse self].
  split_and!; [done|done|done|done|].
  intros q Hq. unfold Orchestrator.check_agent. rewrite runM_bind. cbn [this runM].
  rewrite Hq. unfold status_of in Hstatus.
  destruct (JsMap.get String.eqb agentId (Orchestrator.agents (self p2))) as [a'|];
    [|done].
  injection Hstatus as ->. reflexivity.
Qed.

(** At a concrete state: agent-a has three errors counted and does not
    answer. *)
Lemma auto_restart_leaves_agent_stopped_witness :
  let out := runM (Orchestrator.check_agent (up_from 100000) "/srv" exits_quickly "agent-a")
               (supervising 3) in
  fst out = inr tt
  ∧ status_of "agent-a" (self (snd out)) = Some "stopped"
  ∧ errorCount_of "agent-a" (self (snd out)) = Some 4%nat
  ∧ Orchestrator.os_calls (self (snd out)) = [Orchestrator.Kill 0 "SIGTERM"]
  ∧ (∀ q, self q = self (snd out) ->
          runM (Orchestrator.check_agent (up_from 100000) "/srv" exits_quickly "agent-a") q
          = (inr tt, q)).
Proof.
  exact (auto_restart_leaves_agent_stopped (up_from 100000) "/srv" exits_quickly "agent-a"
           (running_agent_a 3) (supervising 3) eq_refl eq_refl
           (ex_intro _ "connect ECONNREFUSED" eq_refl) (le_n 3)).
Defined.

(* ===================================================================== *)
(** * The discovery client: what its registry keeps *)
(* ===================================================================== *)

Section Client_registry.
Context (w : world).

(** One probe of the client either leaves the registry alone or records the
    port; it leaves it alone when the status request fails. *)
Lemma client_discover_port_effect (p : N) (q : proc Client.state) :
  (∃ a, fst (runM (Client.discover_port w p) q) = inr a)
  ∧ Client.discoveryPorts (self (snd (runM (Client.discover_port w p) q)))
    = Client.discoveryPorts (self q)
  ∧ (Client.discoveredAgents (self (snd (runM (Client.discover_port w p) q)))
     = Client.discoveredAgents (self q)
     ∨ ∃ e, Client.discoveredAgents (self (snd (runM (Client.discover_port w p) q)))
            = JsMap.set N.eqb p e (Client.discoveredAgents (self q)))
  ∧ ((∃ msg, snd (within (Some 2000)
                    (get_json w ((Client.baseUrl ++ ":" ++ show_N p) ++ "/status") (now q)))
             = Failure msg) ->
     Client.discoveredAgents (self (snd (runM (Client.discover_port w p) q)))
     = Client.discoveredAgents (self q)).
Proof.
  unfold Client.discover_port.
  unfold try_catch, axios_get. cbn [runM]. rewrite !runM_bind. cbn [date_now runM settle].
  destruct (within (Some 2000) (get_json w _ (now q))) as [lat [data|msg]]; cbn [fst snd].
  2: { split_and!; [by eexists|done|by left|done]. }
  rewrite runM_bind. cbn [lift runM].
  destruct (js_get data "status") as [e|st].
  { split_and!; [by eexists|done|by left|by intros [? ?]]. }
  destruct (is_str st "ok").
  2: { split_and!; [by eexists|done|by left|by intros [? ?]]. }
  unfold axios_get_card. rewrite !runM_bind. cbn [date_now runM settle].
  cbn [elapse sent now].
  destruct (within (Some 2000) (get_card w _ _)) as [lat' [c|msg]]; cbn [fst snd].
  2: { split_and!; [by eexists|done|by left|by intros [? ?]]. }
  cbn. destruct (Client.js_length (card_capabilities c)) as [e|n]; cbn.
  all: split_and!; [by eexists|done|right; by eexists|by intros [? ?]].
Qed.

Lemma client_discover_ports_keeps (ps : list N) (q : proc Client.state) :
  (∃ l, fst (runM (Client.discover_ports w ps) q) = inr l)
  ∧ (∀ port, is_Some (JsMap.get N.eqb port (Client.discoveredAgents (self q))) ->
       is_Some (JsMap.get N.eqb port
                  (Client.discoveredAgents (self (snd (runM (Client.discover_ports w ps) q))))))
  ∧ (∀ port,
       (∀ t, ∃ msg, snd (within (Some 2000)
                           (get_json w ((Client.baseUrl ++ ":" ++ show_N port) ++ "/status") t))
                    = Failure msg) ->
       JsMap.get N.eqb port
         (Client.discoveredAgents (self (snd (runM (Client.discover_ports w ps) q))))
       = JsMap.get N.eqb port (Client.discoveredAgents (self q))).
Proof.
  revert q. induction ps as [|p ps IH]; intros q.
  { split_and!; [by eexists|done|done]. }
  cbn [Client.discover_ports]. rewrite runM_bind.
  destruct (client_discover_port_effect p q) as ([a Ha] & _ & Hreg & Hfail).
  destruct (runM (Client.discover_port w p) q) as [r q1]. cbn [fst snd] in *. subst r.
  rewrite runM_bind. destruct (IH q1) as ([l Hl] & Hkeep & Hstale).
  destruct (runM (Client.discover_ports w ps) q1) as [r q2]. cbn [fst snd] in *. subst r.
  cbn [runM mret M_ret fst snd]. split_and!; [by eexists| |].
  - intros port Hport. apply Hkeep. destruct Hreg as [->|[e ->]]; [done|].
    destruct (N.eq_dec port p) as [->|Hne].
    + rewrite (get_set_eq N.eqb N.eqb_eq). by eexists.
    + by rewrite (get_set_ne N.eqb N.eqb_eq).
  - intros port Hdown. rewrite (Hstale port Hdown).
    destruct Hreg as [->|[e He]]; [done|].
    destruct (N.eq_dec port p) as [->|Hne].
    + by rewrite (Hfail (Hdown (now q))).
    + rewrite He. by rewrite (get_set_ne N.eqb N.eqb_eq).
Qed.
End Client_registry.

(** The registry of the discovery client only grows: [discoverAgents] never
    throws and never removes an entry.  A port that was registered stays
    registered, and when its status request fails whenever it is sent, its
    entry is left exactly as it was, with its old card and [last_seen]. *)
Theorem client_registry_never_forgets :
  ∀ (w : world) (q : proc Client.state),
    let out := runM (Client.discoverAgents w) q in
    (∃ available, fst out = inr available)
    ∧ (∀ port, is_Some (JsMap.get N.eqb port (Client.discoveredAgents (self q))) ->
         is_Some (JsMap.get N.eqb port (Client.discoveredAgents (self (snd out)))))
    ∧ (∀ port,
         (∀ t, ∃ msg,
            snd (within (Some 2000)
                   (get_json w ((Client.baseUrl ++ ":" ++ show_N port) ++ "/status") t))
            = Failure msg) ->
         JsMap.get N.eqb port (Client.discoveredAgents (self (snd out)))
         = JsMap.get N.eqb port (Client.discoveredAgents (self q))).
Proof.
  intros w q out. subst out. unfold Client.discoverAgents.
  rewrite runM_bind. cbn [this runM].
  apply client_discover_ports_keeps.
Qed.

(* ===================================================================== *)
(** * The discovery client: sending a task (discovery-client.js) *)
(* ===================================================================== *)

Module ClientTasks.

(** How the polling loop of the client's [waitForTaskCompletion] is left. *)
Inductive poll_exit : Type :=
| Returned (v : json)      (* [return taskData.result] *)
| TimedOut                 (* the condition of the [while] failed *)
| Exhausted.               (* the model's fuel ran out *)

(** [error.response && error.response.status === 404] for an error axios
    rejected with: its message for a reply with that status. *)
Definition is_404 (error : js_error) : bool :=
  String.eqb (message error) "Request failed with status code 404".

Section ClientTasks.
Context (w : world).

(** The [while (Date.now() - startTime < maxWaitTime)] loop.  What the body
    throws itself has no [response], so the [catch] throws it again. *)
Fixpoint poll (fuel : nat) (agentUrl : string) (taskId : json)
    (startTime maxWaitTime pollInterval : N) : M Client.state poll_exit :=
  match fuel with
  | O => mret Exhausted
  | S fuel' =>
      t ← date_now;
      if t - startTime <? maxWaitTime then
        taskData ← try_catch
                     (axios_get w (agentUrl ++ "/task/" ++ js_String taskId) None)
                     (fun error =>
                        if is_404 error
                        then throw (Error ("Task " ++ js_String taskId ++ " not found"))
                        else throw error);
        st ← lift (js_get taskData "status");
        if is_str st "completed" then
          v ← lift (js_get taskData "result");
          mret (Returned v)
        else if is_str st "failed" then
          e ← lift (js_get taskData "error");
          throw (Error (if truthy e then js_String e else "Task failed"))
        else
          sleep pollInterval;;
          poll fuel' agentUrl taskId startTime maxWaitTime pollInterval
      else mret TimedOut
  end.

(** Every turn that goes round again takes [pollInterval], so this many
    turns outlast [maxWaitTime] when the interval is positive. *)
Definition poll_fuel (maxWaitTime pollInterval : N) : nat :=
  N.to_nat (maxWaitTime / pollInterval) + 2.

Definition waitForTaskCompletion (agentUrl : string) (taskId : json)
    (maxWaitTime pollInterval : N) : M Client.state json :=
  startTime ← date_now;
  exit ← poll (poll_fuel maxWaitTime pollInterval) agentUrl taskId startTime
           maxWaitTime pollInterval;
  match exit with
  | Returned v => mret v
  | TimedOut | Exhausted => throw (Error "Task timeout - exceeded maximum wait time")
  end.

(** [sendTaskToAgent(port, method, params)]; [uid] is what [uuidv4()]
    returns for the request.  The [catch] logs and throws again. *)
Definition sendTaskToAgent (uid : string) (port : N) (method params : json)
  : M Client.state json :=
  s ← this;
  match JsMap.get N.eqb port (Client.discoveredAgents s) with
  | None =>
      throw (Error ("Agent on port " ++ show_N port ++ " not found. Run discovery first."))
  | Some agent =>
      response ← axios_post w (Client.e_url agent ++ "/rpc")
                   {| req_jsonrpc := JStr "2.0"; req_method := method;
                      req_params := params; req_id := JStr uid |} None;
      result ← lift (js_get response "result");
      taskId ← lift (js_get result "task_id");
      waitForTaskCompletion (Client.e_url agent) taskId 30000 1000
  end.
End ClientTasks.
End ClientTasks.

(** The task record a request of the client reported as completed, with
    result [v]. *)
Definition completed_with (w : world) (target : string) (v : json) (c : call) : Prop :=
  ∃ t task st,
    c = GET target t
    ∧ snd (get_json w target t) = Reply task
    ∧ js_get task "status" = inr st ∧ is_str st "completed" = true
    ∧ js_get task "result" = inr v.

Section ClientTasks_props.
Context (w : world).

(** The loop ends within its fuel and asks only for the status of its task,
    once per turn; what it returns is the result of the task its last
    request found completed. *)
Lemma client_poll_spec (fuel k : nat) (url : string) (taskId : json)
    (start maxWait interval : N) (p : proc Client.state) :
  0 < interval ->
  start + maxWait <= now p + interval * N.of_nat k ->
  (k < fuel)%nat ->
  ∃ r p' l,
    runM (ClientTasks.poll w fuel url taskId start maxWait interval) p = (r, p')
    ∧ r ≠ inr ClientTasks.Exhausted
    ∧ self p' = self p
    ∧ calls p' = (calls p ++ l)%list
    ∧ Forall (fun c => ∃ t, c = GET (url ++ "/task/" ++ js_String taskId) t) l
    ∧ (List.length l <= k)%nat
    ∧ (∀ v, r = inr (ClientTasks.Returned v) ->
         ∃ l0 c, l = (l0 ++ [c])%list
                 ∧ completed_with w (url ++ "/task/" ++ js_String taskId) v c).
Proof.
  intros Hpos. revert k p. induction fuel as [|fuel IH]; intros k p Hk Hfuel; [lia|].
  cbn [ClientTasks.poll]. rewrite runM_bind. cbn [date_now runM].
  destruct (now p - start <? maxWait) eqn:Hc.
  2: { exists (inr ClientTasks.TimedOut), p, []. rewrite app_nil_r.
       split_and!; [done|done|done|done|by apply Forall_nil|simpl; lia|done]. }
  apply N.ltb_lt in Hc. destruct k as [|k]; [lia|].
  rewrite runM_bind. unfold try_catch, axios_get. run_m.
  assert (Hone : Forall (fun c => ∃ t, c = GET (url ++ "/task/" ++ js_String taskId) t)
                   [GET (url ++ "/task/" ++ js_String taskId) (now p)]).
  { repeat constructor. by eexists. }
  cbn [within].
  destruct (get_json w (url ++ "/task/" ++ js_String taskId) (now p)) as [lat [resp|msg]]
    eqn:Hget; run_m.
  2: { destruct (ClientTasks.is_404 _); run_m;
         (eexists _, _, [_]; split; [reflexivity|];
          split_and!; [done|done|done|done|simpl; lia|done]). }
  destruct (js_get resp "status") as [e|st] eqn:Hst; run_m.
  { eexists _, _, [_]. split; [reflexivity|].
    split_and!; [done|done|done|done|simpl; lia|done]. }
  destruct (is_str st "completed") eqn:Hdone; run_m.
  { destruct (js_get resp "result") as [e|v] eqn:Hres; run_m;
      (eexists _, _, [_]; split; [reflexivity|];
       split_and!; [done|done|done|done|simpl; lia|]); [done|].
    intros v' [= <-]. exists [], (GET (url ++ "/task/" ++ js_String taskId) (now p)).
    split; [done|]. exists (now p), resp, st. by rewrite Hget. }
  destruct (is_str st "failed"); run_m.
  { destruct (js_get resp "error") as [e|v]; run_m;
      (eexists _, _, [_]; split; [reflexivity|];
       split_and!; [done|done|done|done|simpl; lia|done]). }
  match goal with
  | |- context [runM (ClientTasks.poll _ _ _ _ _ _ _) ?q] =>
      destruct (IH k q) as (r & p' & l & Hrun & Hne & Hself & Hcalls & Hl & Hlen & Hv)
  end.
  { run_m. lia. }
  { lia. }
  rewrite Hrun. revert Hself Hcalls. run_m. intros Hself Hcalls.
  exists r, p', (GET (url ++ "/task/" ++ js_String taskId) (now p) :: l).
  split_and!; [done|done|done|by rewrite Hcalls, <-app_assoc|by constructor; [eexists|]|
               simpl; lia|].
  intros v Hr. destruct (Hv v Hr) as (l0 & c & -> & Hc0).
  by exists (GET (url ++ "/task/" ++ js_String taskId) (now p) :: l0), c.
Qed.

Lemma client_fuel_enough (maxWait interval : N) :
  0 < interval ->
  maxWait <= interval * N.of_nat (N.to_nat (maxWait / interval) + 1)
  ∧ (N.to_nat (maxWait / interval) + 1 < ClientTasks.poll_fuel maxWait interval)%nat.
Proof.
  intros Hpos. unfold ClientTasks.poll_fuel. split; [|lia].
  pose proof (N.div_mod maxWait interval ltac:(lia)) as Hdm.
  pose proof (N.mod_lt maxWait interval ltac:(lia)) as Hmod.
  rewrite Nat2N.inj_add, N2Nat.id. simpl N.of_nat. nia.
Qed.

Lemma client_wait_spec (url : string) (taskId : json) (maxWait interval : N)
    (p : proc Client.state) :
  0 < interval ->
  ∃ r p' l,
    runM (ClientTasks.waitForTaskCompletion w url taskId maxWait interval) p = (r, p')
    ∧ self p' = self p
    ∧ calls p' = (calls p ++ l)%list
    ∧ Forall (fun c => ∃ t, c = GET (url ++ "/task/" ++ js_String taskId) t) l
    ∧ (List.length l <= N.to_nat (maxWait / interval) + 1)%nat
    ∧ (∀ v, r = inr v ->
         ∃ l0 c, l = (l0 ++ [c])%list
                 ∧ completed_with w (url ++ "/task/" ++ js_String taskId) v c).
Proof.
  intros Hpos. destruct (client_fuel_enough maxWait interval Hpos) as (Hk & Hfuel).
  destruct (client_poll_spec (ClientTasks.poll_fuel maxWait interval)
              (N.to_nat (maxWait / interval) + 1) url taskId (now p) maxWait interval p
              Hpos ltac:(lia) Hfuel)
    as (r & p' & l & Hrun & Hne & Hself & Hcalls & Hl & Hlen & Hv).
  unfold ClientTasks.waitForTaskCompletion. rewrite runM_bind. cbn [date_now runM].
  rewrite runM_bind, Hrun.
  destruct r as [e|[v| |]]; [| | |done]; cbn [runM mret M_ret throw].
  - exists (inl e), p', l. by split_and!.
  - exists (inr v), p', l. split_and!; [done|done|done|done|done|].
    intros v' [= <-]. by apply Hv.
  - eexists (inl _), p', l. by split_and!.
Qed.
End ClientTasks_props.

(** The wait of the client reports what the agent reports: with positive
    ceiling and interval, a first answer saying the task is completed returns
    its result; one saying it failed throws the task's own error, or "Task
    failed" when it carries none; a reply with status 404 throws "Task <id>
    not found"; any other failure of the request is thrown on as it is.  The
    wait sends at most ceiling/interval + 1 requests, each a GET of the task,
    and changes nothing in the client.  Its requests carry no time limit of
    their own, so how long the wait lasts is for the network to say: what is
    bounded is the number of requests, not the time. *)
Theorem client_wait_reports_the_task :
  ∀ (w : world) (url : string) (taskId : json) (maxWait interval : N)
    (p : proc Client.state),
    0 < maxWait -> 0 < interval ->
    let target := url ++ "/task/" ++ js_String taskId in
    let r := get_json w target (now p) in
    let p1 := elapse (fst r) (sent (GET target (now p)) p) in
    let out := runM (ClientTasks.waitForTaskCompletion w url taskId maxWait interval) p in
    fst (runM (ClientTasks.poll w (ClientTasks.poll_fuel maxWait interval) url taskId
                 (now p) maxWait interval) p) ≠ inr ClientTasks.Exhausted
    ∧ self (snd out) = self p
    ∧ (∃ l, calls (snd out) = (calls p ++ l)%list
            ∧ Forall (fun c => ∃ t, c = GET target t) l
            ∧ (List.length l <= N.to_nat (maxWait / interval) + 1)%nat)
    ∧ match snd r with
      | Failure msg =>
          out = (inl (Error (if String.eqb msg "Request failed with status code 404"
                             then "Task " ++ js_String taskId ++ " not found"
                             else msg)), p1)
      | Reply task =>
          match js_get task "status" with
          | inl e => out = (inl e, p1)
          | inr st =>
              if is_str st "completed" then
                ∃ v, js_get task "result" = inr v ∧ out = (inr v, p1)
              else if is_str st "failed" then
                ∃ e, js_get task "error" = inr e
                     ∧ out = (inl (Error (if truthy e then js_String e else "Task failed")),
                              p1)
              else True
          end
      end.
Proof.
  intros w url taskId maxWait interval p Hwait Hpos target r p1 out.
  split.
  { destruct (client_fuel_enough maxWait interval Hpos) as (Hk & Hfuel).
    destruct (client_poll_spec w (ClientTasks.poll_fuel maxWait interval)
                (N.to_nat (maxWait / interval) + 1) url taskId (now p) maxWait interval p
                Hpos ltac:(lia) Hfuel) as (r0 & p' & l & Hrun & Hne & _).
    by rewrite Hrun. }
  destruct (client_wait_spec w url taskId maxWait interval p Hpos)
    as (r0 & p' & l & Hrun & Hself & Hcalls & Hl & Hlen & _).
  split; [subst out; by rewrite Hrun|]. split; [subst out; rewrite Hrun; by exists l|].
  clear Hrun Hself Hcalls Hl Hlen r0 p' l.
  subst out. unfold ClientTasks.waitForTaskCompletion.
  replace (ClientTasks.poll_fuel maxWait interval)
    with (S (N.to_nat (maxWait / interval) + 1)) by (unfold ClientTasks.poll_fuel; lia).
  rewrite runM_bind. cbn [date_now runM]. rewrite runM_bind.
  cbn [ClientTasks.poll]. rewrite runM_bind. cbn [date_now runM].
  rewrite N.sub_diag. apply N.ltb_lt in Hwait. rewrite Hwait.
  rewrite runM_bind. unfold try_catch, axios_get. run_m. cbn [within].
  fold target. fold r. subst p1. destruct r as [lat [task|msg]]; run_m.
  2: { unfold ClientTasks.is_404. cbn [message].
       by destruct (String.eqb msg "Request failed with status code 404"). }
  destruct (js_get task "status") as [e|st] eqn:Hst; run_m; [done|].
  destruct (is_str st "completed") eqn:Hc; run_m.
  { destruct task; simpl in Hst; try discriminate;
      try (injection Hst as <-; simpl in Hc; discriminate).
    run_m. by eexists. }
  destruct (is_str st "failed") eqn:Hf; run_m; [|done].
  destruct task; simpl in Hst; try discriminate;
    try (injection Hst as <-; simpl in Hf; discriminate).
  run_m. by eexists.
Qed.

(** At a concrete run: agent A has completed task uuid-0. *)
Lemma client_wait_reports_the_task_witness :
  let p := Proc 0 Client.init [] in
  let out := runM (ClientTasks.waitForTaskCompletion agent_a_online "http://localhost:4001"
                     (JStr "uuid-0") 30000 1000) p in
  fst (runM (ClientTasks.poll agent_a_online (ClientTasks.poll_fuel 30000 1000)
               "http://localhost:4001" (JStr "uuid-0") 0 30000 1000) p)
  ≠ inr ClientTasks.Exhausted
  ∧ self (snd out) = Client.init
  ∧ (∃ l, calls (snd out) = ([] ++ l)%list
          ∧ Forall (fun c => ∃ t, c = GET "http://localhost:4001/task/uuid-0" t) l
          ∧ (List.length l <= N.to_nat (30000 / 1000) + 1)%nat)
  ∧ ∃ v, js_get (JObj [("id", JStr "uuid-0"); ("status", JStr "completed");
                       ("result", JObj [("word_count", JNum 1)])]) "result" = inr v
         ∧ out = (inr v, Proc 5 Client.init [GET "http://localhost:4001/task/uuid-0" 0]).
Proof.
  exact (client_wait_reports_the_task agent_a_online "http://localhost:4001" (JStr "uuid-0")
           30000 1000 (Proc 0 Client.init []) eq_refl eq_refl).
Defined.

(** Closes the case where the request was sent and nothing was returned. *)
Ltac sends_only_post :=
  split; [done|]; exists [], ""%string;
  split_and!; [done|simpl; lia|by apply Forall_nil|];
  let v := fresh "v" in let Hv := fresh "Hv" in
  intros v Hv; cbn [fst] in Hv; discriminate Hv.

(** [sendTaskToAgent] returns the outcome of the task, not the acceptance:
    for a port that is not registered it throws and sends nothing; for a
    registered agent it sends one POST of the request to [/rpc] of the
    agent and then at most 31 requests, each a GET of one and the same task
    of that agent.  When it returns, the POST was answered with a
    [result.task_id], and the value returned is the result of that task as
    the last GET found it completed.  The client's registry is left as it
    was. *)
Theorem client_send_returns_task_result :
  ∀ (w : world) (uid : string) (port : N) (method params : json) (p : proc Client.state),
    let out := runM (ClientTasks.sendTaskToAgent w uid port method params) p in
    match JsMap.get N.eqb port (Client.discoveredAgents (self p)) with
    | None =>
        out = (inl (Error ("Agent on port " ++ show_N port
                             ++ " not found. Run discovery first.")), p)
    | Some agent =>
        let request := {| req_jsonrpc := JStr "2.0"; req_method := method;
                          req_params := params; req_id := JStr uid |} in
        let post := POST (Client.e_url agent ++ "/rpc") request (now p) in
        self (snd out) = self p
        ∧ ∃ l id,
            calls (snd out) = (calls p ++ post :: l)%list
            ∧ (List.length l <= 31)%nat
            ∧ Forall (fun c => ∃ t, c = GET (Client.e_url agent ++ "/task/" ++ id) t) l
            ∧ ∀ v, fst out = inr v ->
                ∃ response result taskId l0 c,
                  snd (post_rpc w (Client.e_url agent ++ "/rpc") request (now p))
                  = Reply response
                  ∧ js_get response "result" = inr result
                  ∧ js_get result "task_id" = inr taskId
                  ∧ id = js_String taskId
                  ∧ l = (l0 ++ [c])%list
                  ∧ completed_with w (Client.e_url agent ++ "/task/" ++ id) v c
    end.
Proof.
  intros w uid port method params p out. subst out.
  unfold ClientTasks.sendTaskToAgent. rewrite runM_bind. cbn [this runM].
  destruct (JsMap.get N.eqb port (Client.discoveredAgents (self p))) as [agent|]; [|done].
  cbv zeta. unfold axios_post. rewrite !runM_bind. cbn [date_now runM settle within].
  set (request := {| req_jsonrpc := JStr "2.0"; req_method := method;
                     req_params := params; req_id := JStr uid |}).
  destruct (snd (post_rpc w _ request (now p))) as [response|msg] eqn:Hpost; cbv iota beta;
    [|sends_only_post].
  rewrite runM_bind. cbn [lift runM].
  destruct (js_get response "result") as [e|result] eqn:Hres; cbv iota beta;
    [sends_only_post|].
  rewrite runM_bind. cbn [lift runM].
  destruct (js_get result "task_id") as [e|taskId] eqn:Hid; cbv iota beta;
    [sends_only_post|].
  match goal with |- context [runM (ClientTasks.waitForTaskCompletion _ _ _ _ _) ?q] =>
    destruct (client_wait_spec w (Client.e_url agent) taskId 30000 1000 q eq_refl)
      as (r & p' & l & Hrun & Hself & Hcalls & Hl & Hlen & Hv) end.
  rewrite Hrun. cbn [fst snd]. split; [by rewrite Hself|]. exists l, (js_String taskId).
  split_and!.
  - rewrite Hcalls. cbn. by rewrite <-app_assoc.
  - change (N.to_nat (30000 / 1000)) with 30%nat in Hlen. lia.
  - exact Hl.
  - intros v ->. destruct (Hv v eq_refl) as (l0 & c & -> & Hc).
    by exists response, result, taskId, l0, c.
Qed.

(* ===================================================================== *)
(** * Agent E: the delegation summary of [smartTextProcessing] *)
(* ===================================================================== *)

(** What one operation of the list adds to [operations_performed]. *)
Definition performed_name (operation : json) : list string :=
  if is_str operation "analyze" then ["basic_analysis"]
  else if is_str operation "sentiment" then ["sentiment_analysis"]
  else if is_str operation "language" then ["language_detection"]
  else [].

Section AgentE_summary.
Context {Basic Lang : Type}.
Context (analyzeTextBasic : string -> Basic).
Context (languageFallback : string -> Lang).
Context (w : world).

(** The summary of a result agrees with the two lists beside it, and with
    what the counters of the agent have moved by since [s0]. *)
Definition summary_exact (s0 : @AgentE.state Basic Lang)
    (r : @AgentE.processing_result Basic Lang) (s : @AgentE.state Basic Lang) : Prop :=
  AgentE.total_delegations r = List.length (AgentE.agents_used r)
  ∧ AgentE.total_fallbacks r = List.length (AgentE.fallbacks_used r)
  ∧ AgentE.delegationCount s
    = (AgentE.delegationCount s0 + AgentE.total_delegations r)%nat
  ∧ AgentE.fallbackCount s = (AgentE.fallbackCount s0 + AgentE.total_fallbacks r)%nat.

(** What a step leaves of the result it was given. *)
Definition extends_by (names : list string) (routed : nat)
    (r r' : @AgentE.processing_result Basic Lang) : Prop :=
  AgentE.processed_text r' = AgentE.processed_text r
  ∧ AgentE.operations_performed r' = (AgentE.operations_performed r ++ names)%list
  ∧ (AgentE.total_delegations r' + AgentE.total_fallbacks r'
     = AgentE.total_delegations r + AgentE.total_fallbacks r + routed)%nat.

Lemma process_sentiment_summary (s0 : @AgentE.state Basic Lang) (text : string)
    (result : @AgentE.processing_result Basic Lang)
    (p : proc (@AgentE.state Basic Lang)) :
  summary_exact s0 result (self p) ->
  ∃ r p', runM (AgentE.process_sentiment w (JStr text) result) p = (inr r, p')
          ∧ summary_exact s0 r (self p') ∧ extends_by [] 1 result r.
Proof.
  intros (Ha & Hf & Hd & Hc).
  unfold AgentE.process_sentiment, summary_exact, extends_by.
  rewrite runM_bind. cbn [this runM].
  destruct (AgentE.findAgentByType "sentiment-analyzer" (self p)) as [agent|].
  - unfold try_catch. cbn [runM]. rewrite runM_bind.
    destruct (delegateToAgent_spec w agent "sentiment_analysis"
                (JObj [("text", JStr text)]) p) as (r & p' & Hrun & Hself & _).
    rewrite Hrun. destruct r; eexists _, _; (split; [reflexivity|]);
      cbn; rewrite ?Hself; cbn; rewrite ?List.length_app, ?app_nil_r; cbn;
      split_and!; lia || done.
  - eexists _, _. split; [reflexivity|]. cbn.
    rewrite ?List.length_app, ?app_nil_r; cbn. split_and!; lia || done.
Qed.

Lemma process_language_summary (s0 : @AgentE.state Basic Lang) (text : string)
    (result : @AgentE.processing_result Basic Lang)
    (p : proc (@AgentE.state Basic Lang)) :
  summary_exact s0 result (self p) ->
  ∃ r p', runM (AgentE.process_language languageFallback w (JStr text) result) p
          = (inr r, p')
          ∧ summary_exact s0 r (self p') ∧ extends_by [] 1 result r.
Proof.
  intros (Ha & Hf & Hd & Hc).
  unfold AgentE.process_language, summary_exact, extends_by.
  rewrite runM_bind. cbn [this runM].
  destruct (AgentE.findAgentByType "language-detector" (self p)) as [agent|].
  - unfold try_catch. cbn [runM]. rewrite runM_bind.
    destruct (delegateToAgent_spec w agent "language_detection"
                (JObj [("text", JStr text)]) p) as (r & p' & Hrun & Hself & _).
    rewrite Hrun. destruct r; eexists _, _; (split; [reflexivity|]);
      cbn; rewrite ?Hself; cbn; rewrite ?List.length_app, ?app_nil_r; cbn;
      split_and!; lia || done.
  - eexists _, _. split; [reflexivity|]. cbn.
    rewrite ?List.length_app, ?app_nil_r; cbn. split_and!; lia || done.
Qed.

Lemma process_operation_summary (s0 : @AgentE.state Basic Lang) (text : string)
    (result : @AgentE.processing_result Basic Lang) (operation : json)
    (p : proc (@AgentE.state Basic Lang)) :
  summary_exact s0 result (self p) ->
  ∃ r p',
    runM (AgentE.process_operation analyzeTextBasic languageFallback w (JStr text)
            result operation) p = (inr r, p')
    ∧ summary_exact s0 r (self p')
    ∧ extends_by (performed_name operation)
        (if routed_operation operation then 1 else 0) result r.
Proof.
  intros Hs. unfold AgentE.process_operation, routed_operation, performed_name.
  destruct (is_str operation "analyze") eqn:Ea.
  - destruct operation as [| | | |s| |]; try done. simpl in Ea.
    apply String.eqb_eq in Ea as ->.
    eexists _, _. split; [reflexivity|]. split; [exact Hs|].
    unfold extends_by. simpl. split_and!; lia || done.
  - destruct (is_str operation "sentiment") eqn:Es.
    + rewrite runM_bind.
      destruct (process_sentiment_summary s0 text result p Hs)
        as (r & p' & -> & H & (Ht & Ho & Hn)).
      eexists _, _. split; [reflexivity|]. split; [exact H|].
      unfold extends_by. cbn. rewrite Ho, app_nil_r. split_and!; lia || done.
    + destruct (is_str operation "language") eqn:El.
      * rewrite runM_bind.
        destruct (process_language_summary s0 text result p Hs)
          as (r & p' & -> & H & (Ht & Ho & Hn)).
        eexists _, _. split; [reflexivity|]. split; [exact H|].
        unfold extends_by. cbn. rewrite Ho, app_nil_r. split_and!; lia || done.
      * eexists _, _. split; [reflexivity|]. split; [exact Hs|].
        unfold extends_by. cbn. rewrite app_nil_r. split_and!; lia || done.
Qed.

Lemma process_operations_summary (s0 : @AgentE.state Basic Lang) (text : string)
    (operations : list json) :
  ∀ (result : @AgentE.processing_result Basic Lang) (p : proc (@AgentE.state Basic Lang)),
  summary_exact s0 result (self p) ->
  ∃ r p',
    runM (AgentE.process_operations analyzeTextBasic languageFallback w (JStr text)
            result operations) p = (inr r, p')
    ∧ summary_exact s0 r (self p')
    ∧ extends_by (flat_map performed_name operations)
        (List.length (List.filter routed_operation operations)) result r.
Proof.
  induction operations as [|op ops IH]; intros result p Hs.
  - eexists _, _. split; [reflexivity|]. split; [exact Hs|].
    unfold extends_by. simpl. rewrite app_nil_r. split_and!; lia || done.
  - cbn [AgentE.process_operations]. rewrite runM_bind.
    destruct (process_operation_summary s0 text result op p Hs)
      as (r1 & p1 & -> & H1 & (Ht1 & Ho1 & Hn1)).
    destruct (IH r1 p1 H1) as (r2 & p2 & -> & H2 & (Ht2 & Ho2 & Hn2)).
    eexists _, _. split; [reflexivity|]. split; [exact H2|].
    unfold extends_by. cbn [flat_map List.filter].
    rewrite Ht2, Ht1, Ho2, Ho1, <-app_assoc. split_and!; [done|done|].
    destruct (routed_operation op); cbn [List.length]; lia.
Qed.
End AgentE_summary.

(** The delegation summary [smartTextProcessing] returns is exact.  For a
    non-empty string [text] and a list of operations, the call returns a
    result that holds the text it was given; [operations_performed] lists, in
    the order of the request, one entry for each operation that is "analyze",
    "sentiment" or "language" and nothing for any other; [total_delegations]
    and [total_fallbacks] are the lengths of [agents_used] and
    [fallbacks_used], add up to the number of sentiment and language
    operations, and are what the agent's own two counters moved by. *)
Theorem smart_processing_summary_is_exact :
  ∀ (Basic Lang : Type) (analyzeTextBasic : string -> Basic)
    (languageFallback : string -> Lang) (w : world)
    (fields : list (string * json)) (text : string) (operations : list json)
    (p : proc (@AgentE.state Basic Lang)),
    assoc "text" fields = Some (JStr text) -> text ≠ "" ->
    AgentE.iterate (member_or fields "operations"
                      (JArr [JStr "analyze"; JStr "sentiment"; JStr "language"]))
    = inr operations ->
    ∃ r p',
      runM (AgentE.smartTextProcessing analyzeTextBasic languageFallback w (JObj fields)) p
      = (inr r, p')
      ∧ AgentE.processed_text r = JStr text
      ∧ AgentE.operations_performed r = flat_map performed_name operations
      ∧ AgentE.total_delegations r = List.length (AgentE.agents_used r)
      ∧ AgentE.total_fallbacks r = List.length (AgentE.fallbacks_used r)
      ∧ (AgentE.total_delegations r + AgentE.total_fallbacks r
         = List.length (List.filter routed_operation operations))%nat
      ∧ AgentE.delegationCount (self p')
        = (AgentE.delegationCount (self p) + AgentE.total_delegations r)%nat
      ∧ AgentE.fallbackCount (self p')
        = (AgentE.fallbackCount (self p) + AgentE.total_fallbacks r)%nat.
Proof.
  intros Basic Lang analyzeTextBasic languageFallback w fields text operations p
    Htext Hne Hops.
  unfold AgentE.smartTextProcessing. rewrite !destructure_obj.
  assert (member_or fields "text" JUndefined = JStr text) as Ht.
  { unfold member_or. by rewrite Htext. }
  assert (truthy (JStr text) = true) as Htr.
  { simpl. destruct (String.eqb text "") eqn:E; [|done].
    by apply String.eqb_eq in E. }
  rewrite runM_bind. cbn [lift runM]. rewrite Ht.
  rewrite runM_bind. cbn [lift runM]. rewrite Htr. cbn [negb].
  rewrite runM_bind.
  pose proof (quiet_discover_if_empty w p) as (_ & _ & Hd & Hf).
  destruct (discover_if_empty_returns w p) as (p1 & Hrun & _).
  rewrite Hrun in Hd, Hf |- *. cbn [snd] in Hd, Hf.
  rewrite runM_bind. cbn [lift runM]. rewrite Hops.
  match goal with
  | |- context [runM (AgentE.process_operations _ _ _ _ ?r0 _) p1] =>
      destruct (process_operations_summary analyzeTextBasic languageFallback w
                  (self p) text operations r0 p1)
        as (r & p' & -> & (Ha & Hb & Hc & He) & (Hx & Hy & Hz))
  end.
  { unfold summary_exact. cbn. rewrite Hd, Hf. split_and!; lia || done. }
  exists r, p'. cbn in Hx, Hy, Hz. split_and!; done || lia.
Qed.

(** At a concrete request: an unknown operation between two known ones, and
    nobody on the network. *)
Lemma smart_processing_summary_is_exact_witness :
  ∃ r p',
    runM (AgentE.smartTextProcessing sample_basic sample_language nobody_home
            (JObj [("text", JStr "good");
                   ("operations", JArr [JStr "sentiment"; JStr "shout"; JStr "analyze"])]))
         (Proc 0 (AgentE.init 4005) [])
    = (inr r, p')
    ∧ AgentE.processed_text r = JStr "good"
    ∧ AgentE.operations_performed r
      = flat_map performed_name [JStr "sentiment"; JStr "shout"; JStr "analyze"]
    ∧ AgentE.total_delegations r = List.length (AgentE.agents_used r)
    ∧ AgentE.total_fallbacks r = List.length (AgentE.fallbacks_used r)
    ∧ (AgentE.total_delegations r + AgentE.total_fallbacks r
       = List.length (List.filter routed_operation
                        [JStr "sentiment"; JStr "shout"; JStr "analyze"]))%nat
    ∧ AgentE.delegationCount (self p')
      = (AgentE.delegationCount (AgentE.init (Basic:=nat) (Lang:=string) 4005)
         + AgentE.total_delegations r)%nat
    ∧ AgentE.fallbackCount (self p')
      = (AgentE.fallbackCount (AgentE.init (Basic:=nat) (Lang:=string) 4005)
         + AgentE.total_fallbacks r)%nat.
Proof.
  exact (smart_processing_summary_is_exact nat string sample_basic sample_language
           nobody_home
           [("text", JStr "good");
            ("operations", JArr [JStr "sentiment"; JStr "shout"; JStr "analyze"])]
           "good" [JStr "sentiment"; JStr "shout"; JStr "analyze"]
           (Proc 0 (AgentE.init 4005) []) eq_refl ltac:(discriminate) eq_refl).
Defined.

(* ===================================================================== *)
(** * Agent E: what the result of [intelligentTextAnalysis] records *)
(* ===================================================================== *)

Definition was_delegated {L : Type} (part : option (AgentE.handled L)) : bool :=
  match part with
  | Some (AgentE.Delegated _) => true
  | _ => false
  end.
Definition fell_back {L : Type} (part : option (AgentE.handled L)) : bool :=
  match part with
  | Some (AgentE.Fallback _) => true
  | _ => false
  end.

(** The value of [fallback_used] for the capabilities that fell back. *)
Definition fallback_label (sentiment language : bool) : json :=
  match sentiment, language with
  | true, true => JArr [JStr "sentiment"; JStr "language"]
  | true, false => JStr "sentiment"
  | false, true => JStr "language"
  | false, false => JUndefined
  end.

(** The result of [intelligentTextAnalysis] tells how each capability was
    served.  For a non-empty string [text] the call returns; the result has a
    sentiment part exactly when [include_sentiment] is truthy and a language
    part exactly when [include_language] is; a part that is not the remote
    agent's answer is the local fallback's for the text; [agents_called]
    names, in this order, Agent C and Agent D for the parts that were
    delegated, [delegation_used] says whether there is one, and
    [fallback_used] is absent, "sentiment", "language" or the pair of both
    for the parts that fell back.  The counters of the agent moved by the
    number of delegated parts and of fallen back parts. *)
Theorem analysis_result_tells_how_it_was_served :
  ∀ (Basic Lang : Type) (analyzeTextBasic : string -> Basic)
    (languageFallback : string -> Lang) (w : world)
    (fields : list (string * json)) (text : string)
    (p : proc (@AgentE.state Basic Lang)),
    assoc "text" fields = Some (JStr text) -> text ≠ "" ->
    ∃ r p',
      runM (AgentE.intelligentTextAnalysis analyzeTextBasic languageFallback w
              (JObj fields)) p = (inr r, p')
      ∧ AgentE.text_analysis r = analyzeTextBasic text
      ∧ (AgentE.sentiment_analysis r = None
         ↔ truthy (member_or fields "include_sentiment" (JBool true)) = false)
      ∧ (AgentE.language_detection r = None
         ↔ truthy (member_or fields "include_language" (JBool true)) = false)
      ∧ (∀ f, AgentE.sentiment_analysis r = Some (AgentE.Fallback f)
              -> f = AgentE.sentimentFallback text)
      ∧ (∀ f, AgentE.language_detection r = Some (AgentE.Fallback f)
              -> f = languageFallback text)
      ∧ AgentE.agents_called r
        = ((if was_delegated (AgentE.sentiment_analysis r)
            then ["Agent C (sentiment)"] else [])
           ++ (if was_delegated (AgentE.language_detection r)
               then ["Agent D (language)"] else []))%list
      ∧ AgentE.delegation_used r
        = was_delegated (AgentE.sentiment_analysis r)
          || was_delegated (AgentE.language_detection r)
      ∧ AgentE.fallback_used r
        = fallback_label (fell_back (AgentE.sentiment_analysis r))
            (fell_back (AgentE.language_detection r))
      ∧ AgentE.delegationCount (self p')
        = (AgentE.delegationCount (self p) + List.length (AgentE.agents_called r))%nat
      ∧ AgentE.fallbackCount (self p')
        = (AgentE.fallbackCount (self p)
           + (if fell_back (AgentE.sentiment_analysis r) then 1 else 0)
           + (if fell_back (AgentE.language_detection r) then 1 else 0))%nat.
Proof.
  intros Basic Lang analyzeTextBasic languageFallback w fields text p Htext Hne.
  rewrite (intelligentTextAnalysis_run analyzeTextBasic languageFallback w fields text p
             Htext Hne).
  rewrite runM_bind.
  pose proof (quiet_discover_if_empty w p) as (_ & _ & Hd & Hf).
  destruct (discover_if_empty_returns w p) as (p1 & Hrun & _).
  rewrite Hrun in Hd, Hf |- *. cbn [snd] in Hd, Hf. rewrite <-Hd, <-Hf. clear Hrun Hd Hf.
  rewrite runM_bind.
  destruct (truthy (member_or fields "include_sentiment" (JBool true)));
    [rewrite analyse_sentiment_spec;
     destruct (AgentE.findAgentByType "sentiment-analyzer" (self p1)) as [agentC|];
     [destruct (delegateToAgent_spec w agentC "sentiment_analysis"
                  (JObj [("text", JStr text)]) p1) as (r1 & p2 & -> & Hs1 & _);
      destruct r1 as [e1|v1]|]
    |cbn [mret M_ret runM]];
    rewrite runM_bind;
    (destruct (truthy (member_or fields "include_language" (JBool true)));
     [rewrite analyse_language_spec; cbn [with_self self];
      match goal with
      | |- context [AgentE.findAgentByType "language-detector" ?s] =>
          destruct (AgentE.findAgentByType "language-detector" s) as [agentD|]
      end;
      [match goal with
       | |- context [runM (AgentE.delegateToAgent w ?agent ?m ?a) ?q] =>
           destruct (delegateToAgent_spec w agent m a q) as (r2 & p3 & -> & Hs2 & _)
       end;
       destruct r2 as [e2|v2]|]
     |cbn [mret M_ret runM]]);
    eexists _, _; (split; [reflexivity|]);
    cbn; rewrite ?Hs2; cbn; rewrite ?Hs1; cbn;
    split_and!; try done; try lia; try (by intros f [= <-]).
Qed.

(** At a concrete request, with nobody on the network. *)
Lemma analysis_result_tells_how_it_was_served_witness :
  ∃ r p',
    runM (AgentE.intelligentTextAnalysis sample_basic sample_language nobody_home
            (JObj [("text", JStr "good"); ("include_language", JBool false)]))
         (Proc 0 (AgentE.init 4005) [])
    = (inr r, p')
    ∧ AgentE.text_analysis r = sample_basic "good"
    ∧ (AgentE.sentiment_analysis r = None ↔ true = false)
    ∧ (AgentE.language_detection r = None ↔ false = false)
    ∧ (∀ f, AgentE.sentiment_analysis r = Some (AgentE.Fallback f)
            -> f = AgentE.sentimentFallback "good")
    ∧ (∀ f, AgentE.language_detection r = Some (AgentE.Fallback f)
            -> f = sample_language "good")
    ∧ AgentE.agents_called r
      = ((if was_delegated (AgentE.sentiment_analysis r)
          then ["Agent C (sentiment)"] else [])
         ++ (if was_delegated (AgentE.language_detection r)
             then ["Agent D (language)"] else []))%list
    ∧ AgentE.delegation_used r
      = was_delegated (AgentE.sentiment_analysis r)
        || was_delegated (AgentE.language_detection r)
    ∧ AgentE.fallback_used r
      = fallback_label (fell_back (AgentE.sentiment_analysis r))
          (fell_back (AgentE.language_detection r))
    ∧ AgentE.delegationCount (self p')
      = (AgentE.delegationCount (AgentE.init (Basic:=nat) (Lang:=string) 4005)
         + List.length (AgentE.agents_called r))%nat
    ∧ AgentE.fallbackCount (self p')
      = (AgentE.fallbackCount (AgentE.init (Basic:=nat) (Lang:=string) 4005)
         + (if fell_back (AgentE.sentiment_analysis r) then 1 else 0)
         + (if fell_back (AgentE.language_detection r) then 1 else 0))%nat.
Proof.
  exact (analysis_result_tells_how_it_was_served nat string sample_basic sample_language
           nobody_home [("text", JStr "good"); ("include_language", JBool false)] "good"
           (Proc 0 (AgentE.init 4005) []) eq_refl ltac:(discriminate)).
Defined.

(* ===================================================================== *)
(** * Agent A: [transformText] (agent-a-server.js) *)
(* ===================================================================== *)

Module AgentAText.

Definition upper_char (c : ascii) : ascii :=
  let n := N_of_ascii c in
  if (97 <=? n) && (n <=? 122) then ascii_of_N (n - 32) else c.

(** [s.toUpperCase()]. *)
Fixpoint toUpperCase (s : string) : string :=
  match s with
  | EmptyString => EmptyString
  | String c s' => String (upper_char c) (toUpperCase s')
  end.

(** [s.split('').reverse().join('')]. *)
Definition reverse (s : string) : string :=
  String.string_of_list_ascii (rev (String.list_ascii_of_string s)).

(** The class [\w] of a regular expression. *)
Definition is_word_char (c : ascii) : bool :=
  let n := N_of_ascii c in
  ((48 <=? n) && (n <=? 57)) || ((65 <=? n) && (n <=? 90))
  || ((97 <=? n) && (n <=? 122)) || (n =? 95).

(** [s.replace(/\w\S*/g, txt => txt.charAt(0).toUpperCase()
    + txt.substr(1).toLowerCase())]: a match starts at a word character and
    runs to the next white space; [inside] says whether one is open. *)
Fixpoint title_from (inside : bool) (s : string) : string :=
  match s with
  | EmptyString => EmptyString
  | String c s' =>
      if inside then
        if is_space c then String c (title_from false s')
        else String (lower_char c) (title_from true s')
      else if is_word_char c then String (upper_char c) (title_from true s')
      else String c (title_from false s')
  end.
Definition title_case (s : string) : string := title_from false s.

(** [s.charAt(0).toUpperCase() + s.slice(1).toLowerCase()]. *)
Definition sentence_case (s : string) : string :=
  match s with
  | EmptyString => EmptyString
  | String c s' => String (upper_char c) (toLowerCase s')
  end.

(** A string method called on the parameter [text]. *)
Definition text_method (method : string) (text : json) : js_error + string :=
  match text with
  | JStr s => inr s
  | _ => inl (Error ("text." ++ method ++ " is not a function"))
  end.

(** [transformText(text, operation)]; [timestamp] is what
    [new Date().toISOString()] gives when the result is built. *)
Definition transformText (timestamp : string) (text operation : json)
  : js_error + list (string * json) :=
  if negb (truthy text) then inl (Error "Text is required")
  else if negb (truthy operation) then inl (Error "Operation is required")
  else
    transformed ←
      (if is_str operation "uppercase" then
         toUpperCase <$> text_method "toUpperCase" text
       else if is_str operation "lowercase" then
         toLowerCase <$> text_method "toLowerCase" text
       else if is_str operation "reverse" then
         reverse <$> text_method "split" text
       else if is_str operation "title_case" then
         title_case <$> text_method "replace" text
       else if is_str operation "sentence_case" then
         sentence_case <$> text_method "charAt" text
       else inl (Error ("Unsupported operation: " ++ js_String operation)));
    mret [("original", text); ("transformed", JStr transformed);
          ("operation", operation); ("processed_by", JStr "agent-a");
          ("timestamp", JStr timestamp)].

Definition operations : list string :=
  ["uppercase"; "lowercase"; "reverse"; "title_case"; "sentence_case"].
End AgentAText.

(** The [transformed] member of what a call returned. *)
Definition transformed_of (r : js_error + list (string * json)) : option json :=
  match r with
  | inr fields => assoc "transformed" fields
  | inl _ => None
  end.

Lemma upper_char_idem (c : ascii) :
  AgentAText.upper_char (AgentAText.upper_char c) = AgentAText.upper_char c.
Proof. destruct c as [[] [] [] [] [] [] [] []]; reflexivity. Qed.

Lemma lower_upper_char (c : ascii) : lower_char (AgentAText.upper_char c) = lower_char c.
Proof. destruct c as [[] [] [] [] [] [] [] []]; reflexivity. Qed.

Lemma is_space_lower (c : ascii) : is_space (lower_char c) = is_space c.
Proof. destruct c as [[] [] [] [] [] [] [] []]; reflexivity. Qed.

Lemma is_word_char_upper (c : ascii) :
  AgentAText.is_word_char (AgentAText.upper_char c) = AgentAText.is_word_char c.
Proof. destruct c as [[] [] [] [] [] [] [] []]; reflexivity. Qed.

Lemma toUpperCase_idem (s : string) :
  AgentAText.toUpperCase (AgentAText.toUpperCase s) = AgentAText.toUpperCase s.
Proof. induction s as [|c s IH]; simpl; [done|]. by rewrite upper_char_idem, IH. Qed.

Lemma toUpperCase_lower (s : string) :
  toLowerCase (AgentAText.toUpperCase s) = toLowerCase s.
Proof. induction s as [|c s IH]; simpl; [done|]. by rewrite lower_upper_char, IH. Qed.

Lemma title_from_idem (s : string) :
  ∀ inside, AgentAText.title_from inside (AgentAText.title_from inside s)
            = AgentAText.title_from inside s.
Proof.
  induction s as [|c s IH]; intros inside; [done|]. cbn [AgentAText.title_from].
  destruct inside.
  - destruct (is_space c) eqn:Es; cbn [AgentAText.title_from].
    + by rewrite Es, IH.
    + by rewrite is_space_lower, Es, lower_char_idem, IH.
  - destruct (AgentAText.is_word_char c) eqn:Ew; cbn [AgentAText.title_from].
    + by rewrite is_word_char_upper, Ew, upper_char_idem, IH.
    + by rewrite Ew, IH.
Qed.

Lemma title_from_lower (s : string) :
  ∀ inside, toLowerCase (AgentAText.title_from inside s) = toLowerCase s.
Proof.
  induction s as [|c s IH]; intros inside; [done|]. cbn [AgentAText.title_from].
  destruct inside.
  - destruct (is_space c); cbn [toLowerCase]; by rewrite ?lower_char_idem, IH.
  - destruct (AgentAText.is_word_char c); cbn [toLowerCase];
      by rewrite ?lower_upper_char, IH.
Qed.

Lemma reverse_involutive (s : string) : AgentAText.reverse (AgentAText.reverse s) = s.
Proof.
  unfold AgentAText.reverse.
  by rewrite String.list_ascii_of_string_of_list_ascii, rev_involutive,
    String.string_of_list_ascii_of_string.
Qed.

Lemma reverse_nonempty (s : string) : s ≠ "" -> AgentAText.reverse s ≠ "".
Proof.
  intros Hs Hr. apply Hs. rewrite <-(reverse_involutive s), Hr. reflexivity.
Qed.

Lemma truthy_text (s : string) : s ≠ "" -> truthy (JStr s) = true.
Proof.
  intros Hs. simpl. destruct (String.eqb s "") eqn:E; [|done].
  by apply String.eqb_eq in E.
Qed.

(** [transformText] on a non-empty text, for each of its five operations:
    the call returns the text as [original], the operation, the agent's name
    and the time stamp beside the transformed text.  Reversing is undone by
    reversing again: the same operation on the transformed text gives the
    original back.  The four case operations change nothing but the case of
    letters, and are settled after one application: the same operation on
    the transformed text returns it as it is. *)
Theorem transformText_applied_twice :
  ∀ (timestamp timestamp' text operation : string),
    text ≠ "" -> In operation AgentAText.operations ->
    ∃ u,
      AgentAText.transformText timestamp (JStr text) (JStr operation)
      = inr [("original", JStr text); ("transformed", JStr u);
             ("operation", JStr operation); ("processed_by", JStr "agent-a");
             ("timestamp", JStr timestamp)]
      ∧ (if String.eqb operation "reverse"
         then u = AgentAText.reverse text
         else toLowerCase u = toLowerCase text)
      ∧ transformed_of (AgentAText.transformText timestamp' (JStr u) (JStr operation))
        = Some (JStr (if String.eqb operation "reverse" then text else u)).
Proof.
  intros ts ts' text operation Hne Hin.
  unfold AgentAText.transformText.
  rewrite (truthy_text text Hne). cbn [negb].
  assert (Hkeep : ∀ f : string -> string,
            (∀ s, s ≠ "" -> f s ≠ "") -> truthy (JStr (f text)) = true).
  { intros f Hf. by apply truthy_text, Hf. }
  assert (Hcase : ∀ s c, String c s ≠ "") by done.
  unfold AgentAText.operations in Hin. simpl in Hin.
  destruct Hin as [<-|[<-|[<-|[<-|[<-|[]]]]]]; cbn -[truthy toLowerCase].
  - exists (AgentAText.toUpperCase text). split; [done|].
    split; [apply toUpperCase_lower|].
    rewrite (Hkeep AgentAText.toUpperCase); [|by intros [|c s]]. cbn.
    by rewrite toUpperCase_idem.
  - exists (toLowerCase text). split; [done|].
    split; [apply toLowerCase_idem|].
    rewrite (Hkeep toLowerCase); [|by intros [|c s]]. cbn.
    by rewrite toLowerCase_idem.
  - exists (AgentAText.reverse text). split; [done|]. split; [done|].
    rewrite (Hkeep AgentAText.reverse reverse_nonempty). cbn.
    by rewrite reverse_involutive.
  - exists (AgentAText.title_case text). split; [done|].
    split; [apply title_from_lower|].
    rewrite (Hkeep AgentAText.title_case).
    2: { intros [|c s]; [done|]. unfold AgentAText.title_case.
         cbn [AgentAText.title_from]. by destruct (AgentAText.is_word_char c). }
    cbn. unfold AgentAText.title_case. by rewrite title_from_idem.
  - exists (AgentAText.sentence_case text). split; [done|].
    split.
    { destruct text as [|c s]; [done|]. cbn [AgentAText.sentence_case toLowerCase].
      by rewrite lower_upper_char, toLowerCase_idem. }
    rewrite (Hkeep AgentAText.sentence_case); [|by intros [|c s]]. cbn.
    destruct text as [|c s]; [done|]. cbn [AgentAText.sentence_case].
    by rewrite upper_char_idem, toLowerCase_idem.
Qed.

(** At a concrete text. *)
Lemma transformText_applied_twice_witness :
  ∃ u,
    AgentAText.transformText "2024-01-01T00:00:00.000Z" (JStr "hello World")
      (JStr "title_case")
    = inr [("original", JStr "hello World"); ("transformed", JStr u);
           ("operation", JStr "title_case"); ("processed_by", JStr "agent-a");
           ("timestamp", JStr "2024-01-01T00:00:00.000Z")]
    ∧ toLowerCase u = toLowerCase "hello World"
    ∧ transformed_of (AgentAText.transformText "2024-01-01T00:00:01.500Z" (JStr u)
                        (JStr "title_case"))
      = Some (JStr u).
Proof.
  exact (transformText_applied_twice "2024-01-01T00:00:00.000Z" "2024-01-01T00:00:01.500Z"
           "hello World" "title_case" ltac:(discriminate)
           ltac:(simpl; tauto)).
Defined.

(* ===================================================================== *)
(** * The supervisor: which agents it ever watches *)
(* ===================================================================== *)

Module Supervisor.

(** What a constructed supervisor is asked to do: the calls of its HTTP
    handlers, of [start()] and of the timer of [startHealthMonitoring]. *)
Inductive request : Type :=
| Start (agentId : string)         (* POST /api/agents/:agentId/start *)
| Stop (agentId : string)          (* POST /api/agents/:agentId/stop *)
| Restart (agentId : string)       (* POST /api/agents/:agentId/restart *)
| StartAll                         (* POST /api/system/start-all, start() *)
| StopAll                          (* POST /api/system/stop-all *)
| Discover                         (* GET /api/discovery/agents *)
| Execute (method params : json)   (* POST /api/tasks/execute *)
| HealthTick.                      (* the callback of the setInterval *)

Section Supervisor.
Context (w : world).
Context (dirname : string).
Context (exit_delay : N -> string -> N -> option N).

(** A handler: [try { await call; res.json(...) } catch (error)
    { res.status(500).json(...) }]. *)
Definition handler {A : Type} (call : M Orchestrator.state A) : M Orchestrator.state unit :=
  try_catch (call;; mret tt) (fun _ => mret tt).

Definition serve (r : request) : M Orchestrator.state unit :=
  match r with
  | Start agentId => handler (Orchestrator.startAgent w dirname agentId)
  | Stop agentId => handler (Orchestrator.stopAgent exit_delay agentId)
  | Restart agentId =>
      handler (Orchestrator.stopAgent exit_delay agentId;;
               sleep 2000;;
               Orchestrator.startAgent w dirname agentId)
  | StartAll => handler (OrchestratorApi.startAllAgents w dirname)
  | StopAll => handler (OrchestratorApi.stopAllAgents exit_delay)
  | Discover => handler (OrchestratorApi.performDiscovery w)
  | Execute method params => handler (Orchestrator.routeAndExecuteTask w method params)
  | HealthTick => Orchestrator.startHealthMonitoring w dirname exit_delay
  end.

(** The requests of a run, each with the time that passed before it, taken
    one at a time. *)
Fixpoint serve_all (reqs : list (N * request)) : M Orchestrator.state unit :=
  match reqs with
  | [] => mret tt
  | (dt, r) :: rest => sleep dt;; serve r;; serve_all rest
  end.
End Supervisor.
End Supervisor.

Lemma same_trans {S : Type} : ∀ s1 s2 s3 : S, s1 = s2 -> s2 = s3 -> s1 = s3.
Proof. congruence. Qed.
#[local] Hint Resolve same_trans : frame.






(** The supervisor is started, asked once more to start agent A, and its
    health check fires four times, 15 s apart, with nothing listening
    anywhere: no request was ever sent for a status, and agent A is not
    recorded, let alone restarted. *)
Lemma four_health_checks_probe_nothing :
  let run := runM (Supervisor.serve_all nobody_home "/srv" exits_quickly
                     [(0, Supervisor.StartAll); (1000, Supervisor.Start "agent-a");
                      (15000, Supervisor.HealthTick); (15000, Supervisor.HealthTick);
                      (15000, Supervisor.HealthTick); (15000, Supervisor.HealthTick)])
                  (Proc 0 Orchestrator.init []) in
  fst run = inr tt
  ∧ calls (snd run) = []
  ∧ Orchestrator.os_calls (self (snd run)) = []
  ∧ JsMap.get String.eqb "agent-a" (Orchestrator.agents (self (snd run))) = None
  ∧ now (snd run) = 61000.
Proof. vm_compute. split_and!; reflexivity. Qed.
